(** * SKY130 technology plugin: corner-filename parser, descriptor builder,
      artifact patch engine and hook registry

    A shallow embedding of [hammer/technology/sky130/__init__.py].  Text is
    [string] (one [ascii] per character), Python [None] inside a list of
    strings is [option string], a raised exception is the [Raise] branch of
    [result], the settings database and the file system are finite maps. *)

From Stdlib Require Import Ascii.
From Stdlib Require String.
From Stdlib Require OrderedTypeEx.
From stdpp Require sorting.
From stdpp Require Import base option list gmap strings fin_maps.

Local Open Scope stdpp_scope.

(** ** Exceptions *)

Inductive exn : Type :=
  | IndexError
  | StopIteration
  | AttributeError
  | KeyError (key : string)
  | ValueError (msg : string)
  | FileNotFoundError (msg : string).

Inductive result (A : Type) : Type :=
  | Ok (a : A)
  | Raise (e : exn).
Arguments Ok {A} a.
Arguments Raise {A} e.

#[export] Instance result_ret : MRet result := fun _ a => Ok a.
#[export] Instance result_bind : MBind result := fun _ _ f m =>
  match m with
  | Ok a => f a
  | Raise e => Raise e
  end.

(** [l[i]] for a non-negative index. *)
Definition py_index {A} (l : list A) (i : nat) : result A :=
  match l !! i with
  | Some x => Ok x
  | None => Raise IndexError
  end.

(** Running a loop body over a list; the first exception stops the loop. *)
Fixpoint for_each {A B} (body : A -> result B) (l : list A) : result (list B) :=
  match l with
  | [] => Ok []
  | x :: l' =>
      y ← body x;
      ys ← for_each body l';
      mret (y :: ys)
  end.

(** ** Python string primitives *)

Definition LF : ascii := ascii_of_nat 10.
Definition CR : ascii := ascii_of_nat 13.
Definition nl : string := String LF "".

(** [s.startswith(p)] *)
Fixpoint startswith (s p : string) : bool :=
  match p with
  | EmptyString => true
  | String b p' =>
      match s with
      | EmptyString => false
      | String a s' => if Ascii.eqb a b then startswith s' p' else false
      end
  end.

(** [sub in s] *)
Fixpoint contains (sub s : string) : bool :=
  startswith s sub ||
  match s with
  | EmptyString => false
  | String _ s' => contains sub s'
  end.

(** [s[n:]] *)
Fixpoint sdrop (n : nat) (s : string) : string :=
  match n with
  | O => s
  | S n' =>
      match s with
      | EmptyString => EmptyString
      | String _ s' => sdrop n' s'
      end
  end.

(** [s[:n]] *)
Fixpoint stake (n : nat) (s : string) : string :=
  match n with
  | O => EmptyString
  | S n' =>
      match s with
      | EmptyString => EmptyString
      | String a s' => String a (stake n' s')
      end
  end.

(** [s.replace(old, new)] for a non-empty [old]: occurrences are found left
    to right and do not overlap.  [skip] counts the characters of the
    occurrence just replaced that are still to be passed over. *)
Fixpoint replace_from (old new s : string) (skip : nat) : string :=
  match s with
  | EmptyString => EmptyString
  | String a s' =>
      match skip with
      | S k => replace_from old new s' k
      | O =>
          if startswith s old
          then new +:+ replace_from old new s' (String.length old - 1)
          else String a (replace_from old new s' 0)
      end
  end.

(** With an empty [old] Python puts [new] before every character and at
    the end. *)
Fixpoint intersperse (new s : string) : string :=
  match s with
  | EmptyString => new
  | String a s' => new +:+ String a (intersperse new s')
  end.

Definition replace (old new s : string) : string :=
  match old with
  | EmptyString => intersperse new s
  | String _ _ => replace_from old new s 0
  end.

Definition cons_head (a : ascii) (l : list string) : list string :=
  match l with
  | [] => [String a ""]
  | h :: t => String a h :: t
  end.

(** [s.split(sep)] for a non-empty [sep]; the head of the result is the
    piece in progress. *)
Fixpoint split_from (sep s : string) (skip : nat) : list string :=
  match s with
  | EmptyString => [""]
  | String a s' =>
      match skip with
      | S k => split_from sep s' k
      | O =>
          if startswith s sep
          then "" :: split_from sep s' (String.length sep - 1)
          else cons_head a (split_from sep s' 0)
      end
  end.

Definition split (sep s : string) : list string := split_from sep s 0.

(** [sep.join(l)] *)
Fixpoint join (sep : string) (l : list string) : string :=
  match l with
  | [] => ""
  | [x] => x
  | x :: l' => x +:+ sep +:+ join sep l'
  end.

(** White space as [str.strip()] and [\s] see it, among the characters
    below 256: tab to carriage return, the four separators, the space, next
    line ([0x85]) and the no-break space ([0xA0]). *)
Definition is_space (a : ascii) : bool :=
  let n := nat_of_ascii a in
  ((9 <=? n) && (n <=? 13)) || ((28 <=? n) && (n <=? 32)) || (n =? 133) || (n =? 160).

Fixpoint lstrip (s : string) : string :=
  match s with
  | EmptyString => EmptyString
  | String a s' => if is_space a then lstrip s' else s
  end.

Fixpoint rstrip (s : string) : string :=
  match s with
  | EmptyString => EmptyString
  | String a s' =>
      match rstrip s' with
      | EmptyString => if is_space a then EmptyString else String a EmptyString
      | r => String a r
      end
  end.

Definition strip (s : string) : string := rstrip (lstrip s).

(** [text.count(pat)]: the number of positions of [s] at which [pat]
    starts. For a pattern that cannot overlap itself, such as [PORT], this is
    the number of occurrences [str.count] reports. *)
Fixpoint count_at (pat s : string) : nat :=
  match s with
  | EmptyString => 0
  | String _ s' => (if startswith s pat then 1 else 0) + count_at pat s'
  end.

(** [os.path.join] on POSIX. *)
Definition path_join2 (a b : string) : string :=
  if startswith b "/" then b
  else if bool_decide (a = "") || startswith (String.string_of_list_ascii (rev (String.list_ascii_of_string a))) "/"
       then a +:+ b
       else a +:+ "/" +:+ b.

Definition path_join (a : string) (l : list string) : string :=
  foldl path_join2 a l.

(** ** [pathlib] on POSIX

    A path object is its root ([/], [//] for exactly two leading slashes, or
    none) and its components: [Path(s)] drops empty components and [.],
    keeps [..], and [p / b] restarts from [b] when [b] is absolute. *)
Record PurePath : Type := { path_root : string; path_parts : list string }.

Definition root_of (s : string) : string :=
  if startswith s "//" && negb (startswith s "///") then "//"
  else if startswith s "/" then "/"
  else "".

Definition parts_of (s : string) : list string :=
  filter (fun c => c <> "" /\ c <> ".") (split "/" s).

Definition Path (s : string) : PurePath :=
  {| path_root := root_of s; path_parts := parts_of s |}.

(** [p / b] *)
Definition path_div (p : PurePath) (b : string) : PurePath :=
  if startswith b "/" then Path b
  else {| path_root := path_root p; path_parts := path_parts p ++ parts_of b |}.

(** [str(p)] *)
Definition path_str (p : PurePath) : string :=
  if bool_decide (path_root p = "") && bool_decide (path_parts p = []) then "."
  else path_root p +:+ join "/" (path_parts p).

(** [str(Path(a) / b1 / ... / bn)] *)
Definition pathlib_join (a : string) (l : list string) : string :=
  path_str (foldl path_div (Path a) l).

(** ** Regular expressions

    The fragment of Python's [re] the plugin uses: literal text, [^], the
    classes [.] and [\s] under a greedy or a lazy star, concatenation,
    alternation and numbered capturing groups, matched by backtracking in
    Python's order of preference.  None of the program's patterns matches
    the empty string; an empty match is treated as no match. *)

Inductive cclass : Type :=
  | CDot     (* [.]: any character but a line feed *)
  | CSpace.  (* [\s] *)

Inductive regex : Type :=
  | RLit (s : string)
  | RBol
  | RStar (c : cclass) (greedy : bool)
  | RSeq (r1 r2 : regex)
  | RAlt (r1 r2 : regex)
  | RGroup (n : nat) (r : regex).

Declare Scope regex_scope.
Delimit Scope regex_scope with re.
Bind Scope regex_scope with regex.
Infix "⋅" := RSeq (at level 41, right associativity) : regex_scope.
Infix "∣" := RAlt (at level 42, right associativity) : regex_scope.

Definition cmatch (c : cclass) (a : ascii) : bool :=
  match c with
  | CDot => negb (Ascii.eqb a LF)
  | CSpace => is_space a
  end.

(** A position in the subject: how many characters precede it, the text
    from it on, and the groups closed so far (group [n] at index [n-1]). *)
Record mstate : Type := MState {
  m_pos : nat;
  m_rest : string;
  m_caps : list (option string)
}.

Fixpoint star_greedy {R} (c : cclass) (k : nat -> string -> option R)
    (pos : nat) (rest : string) : option R :=
  match rest with
  | String a rest' =>
      if cmatch c a then
        match star_greedy c k (S pos) rest' with
        | Some x => Some x
        | None => k pos rest
        end
      else k pos rest
  | EmptyString => k pos rest
  end.

Fixpoint star_lazy {R} (c : cclass) (k : nat -> string -> option R)
    (pos : nat) (rest : string) : option R :=
  match k pos rest with
  | Some x => Some x
  | None =>
      match rest with
      | String a rest' => if cmatch c a then star_lazy c k (S pos) rest' else None
      | EmptyString => None
      end
  end.

Fixpoint rmatch {R} (r : regex) (k : mstate -> option R) (st : mstate) : option R :=
  match r with
  | RLit s =>
      if startswith (m_rest st) s
      then k (MState (m_pos st + String.length s) (sdrop (String.length s) (m_rest st)) (m_caps st))
      else None
  | RBol => if Nat.eqb (m_pos st) 0 then k st else None
  | RStar c true =>
      star_greedy c (fun pos rest => k (MState pos rest (m_caps st))) (m_pos st) (m_rest st)
  | RStar c false =>
      star_lazy c (fun pos rest => k (MState pos rest (m_caps st))) (m_pos st) (m_rest st)
  | RSeq r1 r2 => rmatch r1 (rmatch r2 k) st
  | RAlt r1 r2 =>
      match rmatch r1 k st with
      | Some x => Some x
      | None => rmatch r2 k st
      end
  | RGroup n r =>
      rmatch r (fun st' =>
        k (MState (m_pos st') (m_rest st')
             (<[pred n := Some (stake (m_pos st' - m_pos st) (m_rest st))]> (m_caps st')))) st
  end.

(** A non-empty match of [r] (with [groups] groups) starting at position
    [pos], where [rest] is the subject from [pos] on: its length and its
    groups. *)
Definition match_at (r : regex) (groups pos : nat) (rest : string)
    : option (nat * list (option string)) :=
  match rmatch r (fun st => Some (m_pos st - pos, m_caps st))
          (MState pos rest (replicate groups None)) with
  | Some (O, _) => None
  | m => m
  end.

(** [re.search(r, s)] is not [None]. *)
Fixpoint search_from (r : regex) (groups pos : nat) (s : string) : bool :=
  match match_at r groups pos s with
  | Some _ => true
  | None =>
      match s with
      | EmptyString => false
      | String _ s' => search_from r groups (S pos) s'
      end
  end.

Definition re_search (r : regex) (groups : nat) (s : string) : bool :=
  search_from r groups 0 s.

(** [re.findall(r, s)] for a pattern with one group: the text of group 1 of
    every match, scanning left to right, matches not overlapping. *)
Fixpoint findall_from (r : regex) (pos : nat) (s : string) (skip : nat) : list string :=
  match s with
  | EmptyString => []
  | String _ s' =>
      match skip with
      | S k => findall_from r (S pos) s' k
      | O =>
          match match_at r 1 pos s with
          | Some (len, caps) =>
              default "" (mjoin (caps !! 0)) :: findall_from r (S pos) s' (len - 1)
          | None => findall_from r (S pos) s' 0
          end
      end
  end.

Definition re_findall (r : regex) (s : string) : list string :=
  findall_from r 0 s 0.

Definition cons_piece (a : ascii) (l : list (option string)) : list (option string) :=
  match l with
  | Some h :: t => Some (String a h) :: t
  | _ => Some (String a "") :: l
  end.

(** [re.split(r, s)]: the text between the matches, each match contributing
    its groups ([None] for a group that took no part). The head of the result
    is the piece in progress. *)
Fixpoint re_split_from (r : regex) (groups pos : nat) (s : string) (skip : nat)
    : list (option string) :=
  match s with
  | EmptyString => [Some ""]
  | String a s' =>
      match skip with
      | S k => re_split_from r groups (S pos) s' k
      | O =>
          match match_at r groups pos s with
          | Some (len, caps) => Some "" :: caps ++ re_split_from r groups (S pos) s' (len - 1)
          | None => cons_piece a (re_split_from r groups (S pos) s' 0)
          end
      end
  end.

Definition re_split (r : regex) (groups : nat) (s : string) : list (option string) :=
  re_split_from r groups 0 s 0.

(** ['_(ff)|_(ss)|_(tt)'] *)
Definition corner_re : regex :=
  (RLit "_" ⋅ RGroup 1 (RLit "ff") ∣ RLit "_" ⋅ RGroup 2 (RLit "ss") ∣ RLit "_" ⋅ RGroup 3 (RLit "tt"))%re.

(** [r"^\s*wire SLEEP.*B.*delayed;"] *)
Definition pattern : regex :=
  (RBol ⋅ RStar CSpace true ⋅ RLit "wire SLEEP" ⋅ RStar CDot true ⋅ RLit "B"
     ⋅ RStar CDot true ⋅ RLit "delayed;")%re.

(** [r".*(SLEEP.*?B.*?delayed).*"] *)
Definition capture_pattern : regex :=
  (RStar CDot true
     ⋅ RGroup 1 (RLit "SLEEP" ⋅ RStar CDot false ⋅ RLit "B" ⋅ RStar CDot false ⋅ RLit "delayed")
     ⋅ RStar CDot true)%re.

(** ** The technology descriptor *)

Record Provide : Type := { lib_type : string; vt : option string }.

Record Corner : Type := { nmos : string; pmos : string; temperature : string }.

Record Supplies : Type := { VDD : string; GND : string }.

Record Library : Type := {
  nldm_liberty_file : option string;
  verilog_sim : option string;
  lef_file : option string;
  spice_file : option string;
  gds_file : option string;
  corner : option Corner;
  supplies : option Supplies;
  provides : list Provide
}.

Record SpecialCell : Type := {
  cell_type : string;
  name : list string;
  input_ports : option (list string);
  output_ports : option (list string)
}.

(** A metal layer as [LEFUtils.get_metals] reports it; the routine belongs
    to the host framework and its result is taken as data. *)
Record Metal : Type := { metal_name : string; metal_index : nat }.

Record Stackup : Type := { stackup_name : string; grid_unit : string; metals : list Metal }.

Record PathPrefix : Type := { prefix_id : string; prefix_path : string }.

Record Deck : Type := { tool_name : string; deck_name : string; deck_path : string }.

Record Site : Type := { site_name : string; site_x : string; site_y : string }.

Record TechJSON : Type := {
  tech_name : string;
  tech_grid_unit : string;
  installs : list PathPrefix;
  libraries : list Library;
  gds_map_file : string;
  physical_only_cells_list : list string;
  dont_use_list : list string;
  drc_decks : list Deck;
  additional_drc_text : string;
  lvs_decks : list Deck;
  additional_lvs_text : string;
  sites : list Site;
  stackups : list Stackup;
  special_cells : list SpecialCell
}.

(** ** The technology object and its surroundings

    One record carries what the methods of [SKY130Tech] read and write: the
    settings database behind [get_setting]/[set_setting], the attributes of
    [self], and the part of the file system the methods touch (text files by
    path, directory listings, and the metal layers of each technology LEF). *)

Inductive setting : Type :=
  | SStr (s : string)
  | SBool (b : bool).

#[export] Instance setting_eq_dec : EqDecision setting.
Proof. solve_decision. Defined.

Record state : Type := State {
  db : gmap string setting;
  files : gmap string string;
  dirs : gmap string (list string);
  tlefs : gmap string (list Metal);
  config : option TechJSON;
  library_name : string;
  use_sram22 : option bool;
  cache_dir : string
}.

Definition tech (A : Type) : Type := state -> state * result A.

#[export] Instance tech_ret : MRet tech := fun _ a st => (st, Ok a).
#[export] Instance tech_bind : MBind tech := fun _ _ f m st =>
  match m st with
  | (st', Ok a) => f a st'
  | (st', Raise e) => (st', Raise e)
  end.

Definition lift {A} (r : result A) : tech A := fun st => (st, r).
Definition raise {A} (e : exn) : tech A := fun st => (st, Raise e).

Definition with_db (f : gmap string setting -> gmap string setting) (st : state) : state :=
  State (f (db st)) (files st) (dirs st) (tlefs st) (config st)
        (library_name st) (use_sram22 st) (cache_dir st).
Definition with_files (f : gmap string string -> gmap string string) (st : state) : state :=
  State (db st) (f (files st)) (dirs st) (tlefs st) (config st)
        (library_name st) (use_sram22 st) (cache_dir st).
Definition with_config (c : TechJSON) (st : state) : state :=
  State (db st) (files st) (dirs st) (tlefs st) (Some c)
        (library_name st) (use_sram22 st) (cache_dir st).
Definition with_library_name (n : string) (st : state) : state :=
  State (db st) (files st) (dirs st) (tlefs st) (config st)
        n (use_sram22 st) (cache_dir st).
Definition with_use_sram22 (b : bool) (st : state) : state :=
  State (db st) (files st) (dirs st) (tlefs st) (config st)
        (library_name st) (Some b) (cache_dir st).

(** [self.get_setting(key)] is a method of the framework class
    [HammerTechnology], which is not among these sources: for a key the
    database holds it returns the value. What it does for a key the database
    lacks cannot be read off the plugin: the model takes it to raise
    [KeyError], and the statements about what a method returns take the keys
    the method reads as present. *)
Definition get_setting (key : string) : tech setting := fun st =>
  match db st !! key with
  | Some v => (st, Ok v)
  | None => (st, Raise (KeyError key))
  end.

(** [self.set_setting(key, value)] *)
Definition set_setting (key : string) (v : setting) : tech unit := fun st =>
  (with_db (insert key v) st, Ok tt).

(** [self.config = c] *)
Definition set_config (c : TechJSON) : tech unit := fun st =>
  (with_config c st, Ok tt).

(** A setting used where the code needs text. *)
Definition as_str (v : setting) : result string :=
  match v with
  | SStr s => Ok s
  | SBool _ => Raise (ValueError "expected str")
  end.

Definition setting_str (v : setting) : string :=
  match v with
  | SStr s => s
  | SBool true => "True"
  | SBool false => "False"
  end.

(** Truth value of a setting in a condition. *)
Definition truthy (v : setting) : bool :=
  match v with
  | SStr s => negb (bool_decide (s = ""))
  | SBool b => b
  end.

(** [os.listdir(path)] followed by [.sort()] *)
Fixpoint insert_sorted (x : string) (l : list string) : list string :=
  match l with
  | [] => [x]
  | y :: l' => if String.leb x y then x :: l else y :: insert_sorted x l'
  end.

Definition sort (l : list string) : list string := foldr insert_sorted [] l.

Definition listdir (path : string) : tech (list string) := fun st =>
  match dirs st !! path with
  | Some l => (st, Ok l)
  | None => (st, Raise (FileNotFoundError path))
  end.

(** [LEFUtils.get_metals(tlef_path)] mapped through [Metal.model_validate] *)
Definition get_metals (tlef_path : string) : tech (list Metal) := fun st =>
  match tlefs st !! tlef_path with
  | Some l => (st, Ok l)
  | None => (st, Raise (FileNotFoundError tlef_path))
  end.

(** ** [SKY130Tech.gen_config] *)

Definition mkLibrary : Library :=
  {| nldm_liberty_file := None; verilog_sim := None; lef_file := None; spice_file := None;
     gds_file := None; corner := None; supplies := None; provides := [] |}.

(** The chain [if speed == 'ff': ... if speed == 'tt': ... if speed == 'ss': ...] *)
Definition speed_class (speed : string) : string :=
  let speed := if bool_decide (speed = "ff") then "fast" else speed in
  let speed := if bool_decide (speed = "tt") then "typical" else speed in
  let speed := if bool_decide (speed = "ss") then "slow" else speed in
  speed.

(** [temp.replace('n', '-')], then [temp.split('C')[0] + ' C'] *)
Definition parse_temp (temp : string) : string :=
  let temp := replace "n" "-" temp in
  hd "" (split "C" temp) +:+ " C".

(** [next(c for c in process if c is not None)] *)
Fixpoint first_not_none (process : list (option string)) : result string :=
  match process with
  | [] => Raise StopIteration
  | Some c :: _ => Ok c
  | None :: process' => first_not_none process'
  end.

(** The outcome of one pass through a loop body: [None] when the body ends
    in [continue], the appended entry otherwise. *)
Definition continue {A} : result (option A) := Ok None.

(** The fields the IO loop reads off one corner file name. *)
Record CornerFields : Type := {
  cf_cell_name : string;
  cf_speed : string;
  cf_temp : string;
  cf_vdd : string
}.

(** The rest of the IO loop body once the cell, the speed and the
    temperature and voltage tokens are known. *)
Definition corner_of_tokens (cell_name speed : string) (temp_volt : list string)
    : result (option CornerFields) :=
  temp ← py_index temp_volt 0;
  let temp := parse_temp temp in
  tv1 ← py_index temp_volt 1;
  let vdd := join "." (split "v" tv1) +:+ " V" in
  (* Filter out IO/analog voltages that are not high voltage *)
  tv2 ← py_index temp_volt 2;
  if startswith tv2 "1" then continue else
  if bool_decide (length temp_volt = 4) && startswith (default "" (temp_volt !! 3)) "1"
  then continue else
  mret (Some {| cf_cell_name := cell_name; cf_speed := speed; cf_temp := temp; cf_vdd := vdd |}).

Definition io_corner_fields (cornerfilename : string) : result (option CornerFields) :=
  (* Skip versions with no internal power *)
  if contains "nointpwr" cornerfilename then continue else
  let tmp := replace ".lib" "" cornerfilename in
  let split_cell_corner := re_split corner_re 3 tmp in
  cell_name ← match split_cell_corner !! 0 with
              | Some (Some c) => Ok c
              | Some None => Raise AttributeError
              | None => Raise IndexError
              end;
  let process := drop 1 (take (length split_cell_corner - 1) split_cell_corner) in
  temp_volt ← match last split_cell_corner with
              | Some (Some t) => Ok (drop 1 (split "_" t))
              | Some None => Raise AttributeError
              | None => Raise IndexError
              end;
  (* Filter out cross corners (e.g ff_ss or ss_ff) *)
  if (3 <? length process)
     && negb (foldl andb true
                (zip_with (fun p q => bool_decide (p = q)) (take 3 process) (drop 4 process)))
  then continue else
  (* Determine actual corner *)
  speed ← first_not_none process;
  let speed := speed_class (replace "_" "" speed) in
  corner_of_tokens cell_name speed temp_volt.

Definition io_library (SKYWATER_LIBS library cornerfilename : string) (f : CornerFields) : Library :=
  let cell_name := cf_cell_name f in
  let '(file_lib, gds_file, lef_file, spice_file) :=
    (* gpiov2_pad_wrapped has separate GDS *)
    if bool_decide (cell_name = "sky130_ef_io__gpiov2_pad_wrapped") then
      let file_lib := "sky130_ef_io" in
      (file_lib, cell_name +:+ ".gds", "cache/sky130_ef_io.lef",
       path_join SKYWATER_LIBS ["cdl"; file_lib +:+ ".cdl"])
    else if contains "sky130_ef_io" cell_name then
      let file_lib := "sky130_ef_io" in
      (file_lib, file_lib +:+ ".gds", "cache/" +:+ file_lib +:+ ".lef",
       path_join SKYWATER_LIBS ["cdl"; file_lib +:+ ".cdl"])
    else
      let file_lib := library in
      (file_lib, file_lib +:+ ".gds",
       path_join SKYWATER_LIBS ["lef"; file_lib +:+ ".lef"],
       path_join SKYWATER_LIBS ["spice"; file_lib +:+ ".spice"]) in
  {| nldm_liberty_file := Some (path_join SKYWATER_LIBS ["lib"; cornerfilename]);
     verilog_sim := Some (path_join SKYWATER_LIBS ["verilog"; file_lib +:+ ".v"]);
     lef_file := Some lef_file;
     spice_file := Some spice_file;
     gds_file := Some (path_join SKYWATER_LIBS ["gds"; gds_file]);
     corner := Some {| nmos := cf_speed f; pmos := cf_speed f; temperature := cf_temp f |};
     supplies := Some {| VDD := cf_vdd f; GND := "0 V" |};
     provides := [ {| lib_type := cell_name; vt := Some "RVT" |} ] |}.

(** The body of the loop over the IO library's corner files. *)
Definition io_corner (SKYWATER_LIBS library cornerfilename : string) : result (option Library) :=
  f ← io_corner_fields cornerfilename;
  Ok (io_library SKYWATER_LIBS library cornerfilename <$> (f : option CornerFields)).

(** The body of the loop over the corner files of [sky130_fd_sc_hd]. *)
Definition hd_corner (SKYWATER_LIBS library : string) (lib_corner_files : list string)
    (cornerfilename : string) : result (option Library) :=
  (* cadence doesn't use the lib name in their corner libs *)
  if negb (contains "sky130" cornerfilename) then continue else
  (* ignore duplicate corner.lib/corner_ccsnoise.lib files *)
  if contains "ccsnoise" cornerfilename then continue else
  let tmp := replace ".lib" "" cornerfilename in
  let cornerfilename :=
    if bool_decide (tmp +:+ "_ccsnoise.lib" ∈ lib_corner_files)
    then tmp +:+ "_ccsnoise.lib" (* use ccsnoise version of lib file *)
    else cornerfilename in
  cornername ← py_index (split "__" tmp) 1;
  let cornerparts := split "_" cornername in
  speed ← py_index cornerparts 0;
  let speed := speed_class speed in
  temp ← py_index cornerparts 1;
  let temp := parse_temp temp in
  vdd ← py_index cornerparts 2;
  vdd0 ← py_index (split "v" vdd) 0;
  vdd1 ← py_index (split "v" vdd) 1;
  let vdd := vdd0 +:+ "." +:+ vdd1 +:+ " V" in
  mret (Some
    {| nldm_liberty_file := Some (path_join SKYWATER_LIBS ["lib"; cornerfilename]);
       verilog_sim := Some (path_join "cache" [library +:+ ".v"]);
       lef_file := Some (path_join SKYWATER_LIBS ["lef"; library +:+ ".lef"]);
       spice_file := Some (path_join "cache" [library +:+ ".cdl"]);
       gds_file := Some (path_join SKYWATER_LIBS ["gds"; library +:+ ".gds"]);
       corner := Some {| nmos := speed; pmos := speed; temperature := temp |};
       supplies := Some {| VDD := vdd; GND := "0 V" |};
       provides := [ {| lib_type := "stdcell"; vt := Some "RVT" |} ] |}).

(** Hardcode corners since they don't exactly match *)
Definition scl_hardcoded (speed : string) : string * string * string :=
  let '(speed, vdd, temp) := (speed, "", "") in
  let '(speed, vdd, temp) :=
    if bool_decide (speed = "ff") then ("fast", "1.95 V", "-40 C") else (speed, vdd, temp) in
  let '(speed, vdd, temp) :=
    if bool_decide (speed = "tt") then ("typical", "1.80 V", "25 C") else (speed, vdd, temp) in
  let '(speed, vdd, temp) :=
    if bool_decide (speed = "ss") then ("slow", "1.60 V", "100 C") else (speed, vdd, temp) in
  (speed, vdd, temp).

(** The body of the loop over the corner files of [sky130_scl]. *)
Definition scl_corner (SKY130_CDS SKY130_CDS_LIB library : string) (lib_corner_files : list string)
    (cornerfilename : string) : result (option Library) :=
  if negb (contains "sky130" cornerfilename) then continue else
  if contains "ccsnoise" cornerfilename then continue else
  let tmp := replace ".lib" "" cornerfilename in
  let cornerfilename :=
    if bool_decide (tmp +:+ "_ccsnoise.lib" ∈ lib_corner_files)
    then tmp +:+ "_ccsnoise.lib"
    else cornerfilename in
  let cornername := replace "sky130_" "" tmp in
  let cornerparts := split "_" cornername in
  speed ← py_index cornerparts 0;
  let '(speed, vdd, temp) := scl_hardcoded speed in
  mret (Some
    {| nldm_liberty_file := Some (path_join SKY130_CDS_LIB ["lib"; cornerfilename]);
       verilog_sim := Some (path_join "cache" [library +:+ ".v"]);
       lef_file := Some (path_join SKY130_CDS_LIB ["lef"; library +:+ "_9T.lef"]);
       spice_file := Some (path_join "cache" [library +:+ ".cdl"]);
       gds_file := Some (path_join SKY130_CDS ["gds"; library +:+ "_9T.gds"]);
       corner := Some {| nmos := speed; pmos := speed; temperature := temp |};
       supplies := Some {| VDD := vdd; GND := "0 V" |};
       provides := [ {| lib_type := "stdcell"; vt := Some "RVT" |} ] |}).

(** A loop that appends to [libs] whatever its body does not skip. *)
Definition corner_loop (body : string -> result (option Library)) (lib_corner_files : list string)
    : result (list Library) :=
  entries ← for_each body lib_corner_files;
  Ok (omap id (entries : list (option Library))).

Definition hd_phys_only : list string :=
  ["sky130_fd_sc_hd__tap_1"; "sky130_fd_sc_hd__tap_2"; "sky130_fd_sc_hd__tapvgnd_1";
   "sky130_fd_sc_hd__tapvpwrvgnd_1"; "sky130_fd_sc_hd__fill_1"; "sky130_fd_sc_hd__fill_2";
   "sky130_fd_sc_hd__fill_4"; "sky130_fd_sc_hd__fill_8"; "sky130_fd_sc_hd__diode_2"].

Definition hd_dont_use : list string :=
  ["*sdf*"; "sky130_fd_sc_hd__probe_p_*"; "sky130_fd_sc_hd__probec_p_*"].

Definition mkSpecialCell (cell_type : string) (name : list string) : SpecialCell :=
  {| cell_type := cell_type; name := name; input_ports := None; output_ports := None |}.

Definition scl_phys_only : list string :=
  ["sky130_fd_sc_hd__tap_1"; "sky130_fd_sc_hd__tap_2"; "sky130_fd_sc_hd__tapvgnd_1";
   "sky130_fd_sc_hd__tapvpwrvgnd_1"; "sky130_fd_sc_hd__fill_1"; "sky130_fd_sc_hd__fill_2";
   "sky130_fd_sc_hd__fill_4"; "sky130_fd_sc_hd__fill_8"; "sky130_fd_sc_hd__diode_2"].

Definition scl_dont_use : list string :=
  ["*sdf*"; "sky130_fd_sc_hd__probe_p_*"; "sky130_fd_sc_hd__probec_p_*"].

Definition hd_spcl_cells : list SpecialCell :=
  [ mkSpecialCell "tiehilocell" ["sky130_fd_sc_hd__conb_1"];
    {| cell_type := "tiehicell"; name := ["sky130_fd_sc_hd__conb_1"];
       input_ports := None; output_ports := Some ["HI"] |};
    {| cell_type := "tielocell"; name := ["sky130_fd_sc_hd__conb_1"];
       input_ports := None; output_ports := Some ["LO"] |};
    mkSpecialCell "endcap" ["sky130_fd_sc_hd__tap_1"];
    mkSpecialCell "tapcell" ["sky130_fd_sc_hd__tapvpwrvgnd_1"];
    mkSpecialCell "stdfiller"
      ["sky130_fd_sc_hd__fill_1"; "sky130_fd_sc_hd__fill_2"; "sky130_fd_sc_hd__fill_4";
       "sky130_fd_sc_hd__fill_8"];
    mkSpecialCell "decap"
      ["sky130_fd_sc_hd__decap_3"; "sky130_fd_sc_hd__decap_4"; "sky130_fd_sc_hd__decap_6";
       "sky130_fd_sc_hd__decap_8"; "sky130_fd_sc_hd__decap_12"];
    {| cell_type := "driver"; name := ["sky130_fd_sc_hd__buf_4"];
       input_ports := Some ["A"]; output_ports := Some ["X"] |};
    mkSpecialCell "ctsbuffer" ["sky130_fd_sc_hd__clkbuf_1"] ].

(** [[f"FILL{i**2}" for i in range(7)]] written out *)
Definition scl_spcl_cells : list SpecialCell :=
  [ mkSpecialCell "stdfiller" ["FILL0"; "FILL1"; "FILL4"; "FILL9"; "FILL16"; "FILL25"; "FILL36"];
    {| cell_type := "driver"; name := ["TBUF"];
       input_ports := Some ["A"]; output_ports := Some ["Y"] |};
    mkSpecialCell "ctsbuffer" ["CLKBUFX2"] ].

Definition mkTechJSON (libs : list Library) (phys_only dont_use : list string)
    (stackups : list Stackup) (spcl_cells : list SpecialCell) : TechJSON :=
  {| tech_name := "Skywater 130nm Library";
     tech_grid_unit := "0.001";
     installs :=
       [ {| prefix_id := "$SKY130_NDA"; prefix_path := "technology.sky130.sky130_nda" |};
         {| prefix_id := "$SKY130A"; prefix_path := "technology.sky130.sky130A" |};
         {| prefix_id := "$SKY130_CDS"; prefix_path := "technology.sky130.sky130_cds" |};
         {| prefix_id := "$SKY130_SCL"; prefix_path := "technology.sky130.sky130_scl" |} ];
     libraries := libs;
     gds_map_file := "sky130_lefpin.map";
     physical_only_cells_list := phys_only;
     dont_use_list := dont_use;
     drc_decks :=
       [ {| tool_name := "calibre"; deck_name := "calibre_drc";
            deck_path := "$SKY130_NDA/s8/V2.0.1/DRC/Calibre/s8_drcRules" |};
         {| tool_name := "klayout"; deck_name := "klayout_drc";
            deck_path := "$SKY130A/libs.tech/klayout/drc/sky130A.lydrc" |};
         {| tool_name := "pegasus"; deck_name := "pegasus_drc";
            deck_path := "$SKY130_CDS/Sky130_DRC/sky130_rev_0.0_1.0.drc.pvl" |} ];
     additional_drc_text := "";
     lvs_decks :=
       [ {| tool_name := "calibre"; deck_name := "calibre_lvs";
            deck_path := "$SKY130_NDA/s8/V2.0.1/LVS/Calibre/lvsRules_s8" |};
         {| tool_name := "pegasus"; deck_name := "pegasus_lvs";
            deck_path := "$SKY130_CDS/Sky130_LVS/Sky130_rev_0.0_0.1.lvs.pvl" |} ];
     additional_lvs_text := "";
     sites :=
       [ {| site_name := "unithd"; site_x := "0.46"; site_y := "2.72" |};
         {| site_name := "unithddbl"; site_x := "0.46"; site_y := "5.44" |} ];
     stackups := stackups;
     special_cells := spcl_cells |}.

Definition incorrect_selection (slib : setting) : exn :=
  ValueError ("Incorrect standard cell library selection: " +:+ setting_str slib).

(** Generate the tech config, based on the library type selected *)
Definition gen_config : tech unit :=
  slib ← get_setting "technology.sky130.stdcell_library";
  SKY130A ← get_setting "technology.sky130.sky130A";
  SKY130_CDS ← get_setting "technology.sky130.sky130_cds";
  SKY130_CDS_LIB ← get_setting "technology.sky130.sky130_scl";
  (* Common tech LEF and IO cell spice netlists *)
  let libs :=
    [ {| nldm_liberty_file := None; verilog_sim := None; lef_file := None;
         spice_file := Some "$SKY130A/libs.ref/sky130_fd_io/spice/sky130_ef_io__analog.spice";
         gds_file := None; corner := None; supplies := None;
         provides := [ {| lib_type := "IO library"; vt := None |} ] |} ] in
  libs ← (if bool_decide (slib = SStr "sky130_fd_sc_hd") then
            mret (libs ++
              [ {| nldm_liberty_file := None; verilog_sim := Some "cache/primitives.v";
                   lef_file := Some "$SKY130A/sky130_fd_sc_hd__nom.tlef";
                   spice_file := None; gds_file := None; corner := None; supplies := None;
                   provides := [ {| lib_type := "technology"; vt := None |} ] |} ])
          else if bool_decide (slib = SStr "sky130_scl") then
            mret (libs ++
              [ {| nldm_liberty_file := None;
                   verilog_sim := Some "$SKY130_SCL/verilog/sky130_scl_9T.v";
                   lef_file := Some "$SKY130_SCL/lef/sky130_scl_9T.tlef";
                   spice_file := None; gds_file := None; corner := None; supplies := None;
                   provides := [ {| lib_type := "technology"; vt := None |} ] |} ])
          else raise (incorrect_selection slib) : tech (list Library));
  (* Generate IO cells *)
  let library := "sky130_fd_io" in
  let SKYWATER_LIBS := path_join "$SKY130A" ["libs.ref"; library] in
  SKY130A ← lift (as_str SKY130A);
  let LIBRARY_PATH := path_join SKY130A ["libs.ref"; library; "lib"] in
  lib_corner_files ← listdir LIBRARY_PATH;
  let lib_corner_files := sort lib_corner_files in
  io_libs ← lift (corner_loop (io_corner SKYWATER_LIBS library) lib_corner_files);
  let libs := libs ++ io_libs in
  (* Select standard cell libraries *)
  if bool_decide (slib = SStr "sky130_fd_sc_hd") then
    let library := "sky130_fd_sc_hd" in
    let SKYWATER_LIBS := path_join "$SKY130A" ["libs.ref"; library] in
    let LIBRARY_PATH := path_join SKY130A ["libs.ref"; library; "lib"] in
    lib_corner_files ← listdir LIBRARY_PATH;
    let lib_corner_files := sort lib_corner_files in
    std_libs ← lift (corner_loop (hd_corner SKYWATER_LIBS library lib_corner_files) lib_corner_files);
    let libs := libs ++ std_libs in
    (* Generate stackup *)
    let tlef_path := path_join SKY130A ["libs.ref"; library; "techlef"; library +:+ "__min.tlef"] in
    metals ← get_metals tlef_path;
    let stackups := [ {| stackup_name := library; grid_unit := "0.001"; metals := metals |} ] in
    set_config (mkTechJSON libs hd_phys_only hd_dont_use stackups hd_spcl_cells)
  else if bool_decide (slib = SStr "sky130_scl") then
    (* Cadence's stdcell library doesn't contain clock or power gate cells,
       so we can't use discrete clock gating *)
    _ ← set_setting "synthesis.clock_gating_mode" (SStr "");
    let library := "sky130_scl" in
    SKY130_CDS_LIB ← lift (as_str SKY130_CDS_LIB);
    let LIBRARY_PATH := path_join SKY130_CDS_LIB ["lib"] in
    lib_corner_files ← listdir LIBRARY_PATH;
    let lib_corner_files := sort lib_corner_files in
    SKY130_CDS ← lift (as_str SKY130_CDS);
    std_libs ← lift (corner_loop (scl_corner SKY130_CDS SKY130_CDS_LIB library lib_corner_files)
                       lib_corner_files);
    let libs := libs ++ std_libs in
    (* Generate stackup *)
    let tlef_path := path_join SKY130_CDS_LIB ["lef"; library +:+ "_9T.tlef"] in
    metals ← get_metals tlef_path;
    let stackups := [ {| stackup_name := library; grid_unit := "0.001"; metals := metals |} ] in
    set_config (mkTechJSON libs scl_phys_only scl_dont_use stackups scl_spcl_cells)
  else raise (incorrect_selection slib).

(** ** Text files

    A file is its text. Reading by lines ([for line in sf], [sf.readlines()])
    cuts the text after every line feed; writing lines puts them back end to
    end. Paths are compared as text ([pathlib]'s normalisation of doubled or
    trailing slashes is left out). *)

Definition cons_line (a : ascii) (l : list string) : list string :=
  match l with
  | [] => [String a ""]
  | h :: t => String a h :: t
  end.

Fixpoint readlines (text : string) : list string :=
  match text with
  | EmptyString => []
  | String a text' =>
      if Ascii.eqb a LF then nl :: readlines text'
      else cons_line a (readlines text')
  end.

Definition writelines (sl : list string) : string := foldr String.append "" sl.

(** [path.exists()] / [os.path.exists(path)] *)
Definition exists_path (path : string) : tech bool := fun st =>
  (st, Ok (bool_decide (is_Some (files st !! path)) || bool_decide (is_Some (dirs st !! path)))).

(** [open(path, 'w')]: the file is created or emptied. *)
Definition open_w (path : string) : tech unit := fun st =>
  (with_files (insert path "") st, Ok tt).

(** Universal newlines, the default of [open(path, 'r')]: every [CR LF]
    and every other [CR] of the file is read as [LF]. *)
Fixpoint universal_newlines (text : string) : string :=
  match text with
  | EmptyString => EmptyString
  | String a text' =>
      if Ascii.eqb a CR then
        match text' with
        | String b text'' =>
            if Ascii.eqb b LF then String LF (universal_newlines text'')
            else String LF (universal_newlines text')
        | EmptyString => String LF EmptyString
        end
      else String a (universal_newlines text')
  end.

(** What a reader opened with [open(path, 'r')] yields when it is read: the
    text the file has then, with universal newlines. A file opened with
    mode ['w'] gets the text as it is written (the line separator of POSIX
    is [LF]). *)
Definition read (path : string) : tech string := fun st =>
  match files st !! path with
  | Some text => (st, Ok (universal_newlines text))
  | None => (st, Raise (FileNotFoundError path))
  end.

(** [df.write(text)] appends to the file opened for writing. *)
Definition write (path text : string) : tech unit := fun st =>
  (with_files (fun fs => <[path := default "" (fs !! path) +:+ text]> fs) st, Ok tt).

Definition get_library_name : tech string := fun st => (st, Ok (library_name st)).
Definition get_cache_dir : tech string := fun st => (st, Ok (cache_dir st)).
(** [self.use_sram22], an attribute only [post_install_script] sets *)
Definition get_use_sram22 : tech bool := fun st =>
  match use_sram22 st with
  | Some b => (st, Ok b)
  | None => (st, Raise AttributeError)
  end.

(** [[idx for idx, line in enumerate(sl) if P(line)]], counting from [i] *)
Fixpoint where_from (P : string -> bool) (sl : list string) (i : nat) : list nat :=
  match sl with
  | [] => []
  | line :: sl' => if P line then i :: where_from P sl' (S i) else where_from P sl' (S i)
  end.

Definition enum_where (P : string -> bool) (sl : list string) : list nat := where_from P sl 0.

(** [[idx for idx in range(lo, hi) if P(sl[idx])]] *)
Definition range_where (P : string -> bool) (sl : list string) (lo hi : nat) : list nat :=
  filter (fun idx => P (default "" (sl !! idx)) = true) (seq lo (hi - lo)).

(** ** [SKY130Tech.setup_cdl] *)

(** device names expected in LVS decks *)
Definition cdl_device_names : tech (string * string) :=
  let pmos := "pfet_01v8_hvt" in
  let nmos := "nfet_01v8" in
  tool ← get_setting "vlsi.core.lvs_tool";
  if bool_decide (tool = SStr "hammer.lvs.calibre") then mret ("phighvt", "nshort")
  else
    tool ← get_setting "vlsi.core.lvs_tool";
    if bool_decide (tool = SStr "hammer.lvs.netgen")
    then mret ("sky130_fd_pr__pfet_01v8_hvt", "sky130_fd_pr__nfet_01v8")
    else mret (pmos, nmos).

Definition cdl_line (pmos nmos line : string) : string :=
  let line := replace "pfet_01v8_hvt" pmos line in
  let line := replace "nfet_01v8" nmos line in
  line.

(** Copy and hack the cdl, replacing pfet_01v8_hvt/nfet_01v8 with
    respective names in LVS deck *)
Definition setup_cdl : tech unit :=
  setting_dir ← get_setting "technology.sky130.sky130A";
  setting_dir ← lift (as_str setting_dir);
  library_name ← get_library_name;
  let source_path :=
    pathlib_join setting_dir ["libs.ref"; library_name; "cdl"; library_name +:+ ".cdl"] in
  found ← exists_path source_path;
  if negb found then raise (FileNotFoundError ("CDL not found: " +:+ source_path)) else
  cache_tech_dir_path ← get_cache_dir;
  let dest_path := pathlib_join cache_tech_dir_path [library_name +:+ ".cdl"] in
  names ← cdl_device_names;
  let '(pmos, nmos) := (names : string * string) in
  _ ← open_w dest_path;
  sf ← read source_path;
  _ ← write dest_path ("*.SCALE MICRON" +:+ nl);
  write dest_path (writelines (map (cdl_line pmos nmos) (readlines sf))).

(** ** [SKY130Tech.setup_verilog] *)

Definition verilog_line (line : string) : string :=
  let line := replace "wire 1" "// wire 1" line in
  let line := replace "`endif SKY130_FD_SC_HD__LPFLOW_BLEEDER_FUNCTIONAL_V"
                      "`endif // SKY130_FD_SC_HD__LPFLOW_BLEEDER_FUNCTIONAL_V" line in
  line.

Definition broken_substr : string :=
  "(SHORT => VPWR) = (0:0:0,0:0:0,0:0:0,0:0:0,0:0:0,0:0:0);".

(** Additionally hack out the specifies *)
Definition hack_specify (sl : list string) : result (list string) :=
  (* Find timing declaration *)
  start_idx ← py_index
    (enum_where (contains "`ifndef SKY130_FD_SC_HD__LPFLOW_BLEEDER_1_TIMING_V") sl) 0;
  (* Search for the broken statement *)
  let lo := start_idx + 1 in
  let hi := length sl in
  (* [broken_specify_idx = len(sl)-1] is overwritten by the next statement *)
  broken_specify_idx ← py_index (range_where (contains broken_substr) sl lo hi) 0;
  endif_idx ← py_index (range_where (contains "`endif") sl lo hi) 0;
  (* Now, delete all the specify statements if specify exists before an endif. *)
  if broken_specify_idx <? endif_idx then
    start_specify_idx ← py_index (range_where (contains "specify") sl (start_idx + 1) endif_idx) 0;
    end_specify_idx ← py_index (range_where (contains "endspecify") sl (start_idx + 1) endif_idx) 0;
    (* Dice *)
    Ok (take start_specify_idx sl
          ++ drop (Nat.max start_specify_idx (end_specify_idx + 1)) sl)
  else Ok sl.

(** The rewriting of line [idx]: every captured spelling that differs from
    the declared one is replaced by it. *)
Definition fix_reference (canonical line : string) : string :=
  foldl (fun line elem =>
           if bool_decide (elem ≠ canonical) then replace elem canonical line else line)
        line (re_findall capture_pattern line).

(** [for idx in range(lo, hi): ...] *)
Definition fix_range (canonical : string) (lo hi : nat) (sl : list string) : list string :=
  foldl (fun sl idx => <[idx := fix_reference canonical (default "" (sl !! idx))]> sl)
        sl (seq lo (hi - lo)).

(** [pattern_idx]: the declarations with the name each declares. *)
Fixpoint declarations_from (sl : list string) (i : nat) : result (list (nat * string)) :=
  match sl with
  | [] => Ok []
  | value :: sl' =>
      if re_search pattern 0 value then
        canonical ← py_index (re_findall capture_pattern value) 0;
        rest ← declarations_from sl' (S i);
        Ok ((i, canonical) :: (rest : list (nat * string)))
      else declarations_from sl' (S i)
  end.

(** [for list_idx, pattern_tuple in enumerate(pattern_idx): ...] *)
Fixpoint harmonize_loop (pattern_idx : list (nat * string)) (sl : list string) : list string :=
  match pattern_idx with
  | [] => sl
  | pattern_tuple :: rest =>
      let hi := match rest with
                | next :: _ => fst next
                | [] => length sl
                end in
      harmonize_loop rest (fix_range (snd pattern_tuple) (fst pattern_tuple + 1) hi sl)
  end.

(** Deal with the nonexistent net tactfully (don't code in brittle
    replacements) *)
Definition harmonize (sl : list string) : result (list string) :=
  pattern_idx ← declarations_from sl 0;
  Ok (harmonize_loop pattern_idx sl).

(** Copy and hack the verilog *)
Definition setup_verilog : tech unit :=
  setting_dir ← get_setting "technology.sky130.sky130A";
  setting_dir ← lift (as_str setting_dir);
  library_name ← get_library_name;
  (* <library_name>.v *)
  let source_path :=
    pathlib_join setting_dir ["libs.ref"; library_name; "verilog"; library_name +:+ ".v"] in
  found ← exists_path source_path;
  if negb found then raise (FileNotFoundError ("Verilog not found: " +:+ source_path)) else
  cache_tech_dir_path ← get_cache_dir;
  let dest_path := pathlib_join cache_tech_dir_path [library_name +:+ ".v"] in
  _ ← open_w dest_path;
  sf ← read source_path;
  _ ← write dest_path (writelines (map verilog_line (readlines sf)));
  sf ← read dest_path;
  sl ← lift (hack_specify (readlines sf));
  sl ← lift (harmonize sl);
  (* Write back into destination *)
  _ ← open_w dest_path;
  _ ← write dest_path (writelines sl);
  (* primitives.v *)
  let source_path :=
    pathlib_join setting_dir ["libs.ref"; library_name; "verilog"; "primitives.v"] in
  found ← exists_path source_path;
  if negb found then raise (FileNotFoundError ("Verilog not found: " +:+ source_path)) else
  let dest_path := pathlib_join cache_tech_dir_path ["primitives.v"] in
  _ ← open_w dest_path;
  sf ← read source_path;
  write dest_path
    (writelines (map (replace "`default_nettype none" "`default_nettype wire") (readlines sf))).

(** ** [SKY130Tech.setup_techlef] *)

Definition _the_tlef_edit : string := "
LAYER licon
  TYPE CUT ;
END licon
".

(** Copy and hack the tech-lef, adding this very important [licon] section *)
Definition techlef_line (line : string) : string :=
  if bool_decide (strip line = "END pwell") then line +:+ _the_tlef_edit else line.

Definition setup_techlef : tech unit :=
  setting_dir ← get_setting "technology.sky130.sky130A";
  setting_dir ← lift (as_str setting_dir);
  library_name ← get_library_name;
  let source_path :=
    pathlib_join setting_dir ["libs.ref"; library_name; "techlef"; library_name +:+ "__nom.tlef"] in
  found ← exists_path source_path;
  if negb found then raise (FileNotFoundError ("Tech-LEF not found: " +:+ source_path)) else
  cache_tech_dir_path ← get_cache_dir;
  let dest_path := pathlib_join cache_tech_dir_path [library_name +:+ "__nom.tlef"] in
  _ ← open_w dest_path;
  sf ← read source_path;
  write dest_path (writelines (map techlef_line (readlines sf))).

(** ** [SKY130Tech.setup_io_lefs] *)

Definition class_core : string := "PORT" +:+ nl +:+ "      CLASS CORE ;".

(** [for idx in port_idx: sl[intv[0]+idx] = sl[intv[0]+idx].replace(...)] *)
Definition patch_interval (sl : list string) (intv : nat * nat) : list string :=
  let port_idx :=
    enum_where (contains "PORT") (take (snd intv - fst intv) (drop (fst intv) sl)) in
  foldl (fun sl idx =>
           <[fst intv + idx := replace "PORT" class_core (default "" (sl !! (fst intv + idx)))]> sl)
        sl port_idx.

Definition patch_net (sl : list string) (net : string) : list string :=
  let start := enum_where (contains ("PIN " +:+ net)) sl in
  let end_ := enum_where (contains ("END " +:+ net)) sl in
  let intervals := zip start end_ in
  foldl patch_interval sl intervals.

Definition patch_nets (sl : list string) : list string :=
  foldl patch_net sl ["VCCD1"; "VSSD1"].

(** force class to spacer *)
Definition patch_cell (sl : list string) (cell : string) : result (list string) :=
  let start := enum_where (contains ("MACRO " +:+ cell)) sl in
  start0 ← py_index start 0;
  line ← py_index sl (start0 + 1);
  Ok (<[start0 + 1 := replace "AREAIO" "SPACER" line]> sl).

Fixpoint patch_cells (sl : list string) (cells : list string) : result (list string) :=
  match cells with
  | [] => Ok sl
  | cell :: cells' =>
      sl ← patch_cell sl cell;
      patch_cells sl cells'
  end.

Definition spacer_cells : list string :=
  [ "sky130_ef_io__connect_vcchib_vccd_and_vswitch_vddio_slice_20um";
    "sky130_ef_io__disconnect_vccd_slice_5um";
    "sky130_ef_io__disconnect_vdda_slice_5um" ].

(** The errata lists; all three are empty in this version. *)
Definition start_broken_macro_list : list string := [].
Definition end_broken_macro_list : list string := [].
Definition end_fixed_macro_list : list string := [].

(** Extract broken macro *)
Fixpoint fix_broken_macro (end_broken_macro end_fixed_macro : string)
    (start_check_indices : list nat) (sl : list string) : result (list string) :=
  match start_check_indices with
  | [] => Ok sl
  | idx_broken_macro :: rest =>
      (* Find the start of the next_macro *)
      idx_start_next_macro ← py_index
        (range_where (contains "MACRO") sl (idx_broken_macro + 1) (length sl)) 0;
      (* Find the broken macro ending *)
      idx_end_broken_macro ← py_index
        (range_where (contains end_broken_macro) sl (idx_broken_macro + 1) (length sl)) 0;
      (* Fix *)
      let sl := if idx_end_broken_macro <? idx_start_next_macro
                then <[idx_end_broken_macro := end_fixed_macro]> sl else sl in
      fix_broken_macro end_broken_macro end_fixed_macro rest sl
  end.

Fixpoint fix_broken_macros (errata : list (string * (string * string))) (sl : list string)
    : result (list string) :=
  match errata with
  | [] => Ok sl
  | (start_broken_macro, (end_broken_macro, end_fixed_macro)) :: errata' =>
      (* Get all start indices to be checked *)
      let start_check_indices :=
        enum_where (fun line => bool_decide (line = start_broken_macro)) sl in
      sl ← fix_broken_macro end_broken_macro end_fixed_macro start_check_indices sl;
      fix_broken_macros errata' sl
  end.

Definition io_lef_lines (sl : list string) : result (list string) :=
  let sl := patch_nets sl in
  sl ← patch_cells sl spacer_cells;
  fix_broken_macros
    (zip start_broken_macro_list (zip end_broken_macro_list end_fixed_macro_list)) sl.

(** Power pins for clamps must be CLASS CORE; connect/disconnect spacers
    must be CLASS PAD SPACER, not AREAIO *)
Definition setup_io_lefs : tech unit :=
  sky130A_path ← get_setting "technology.sky130.sky130A";
  sky130A_path ← lift (as_str sky130A_path);
  let source_path :=
    pathlib_join sky130A_path ["libs.ref"; "sky130_fd_io"; "lef"; "sky130_ef_io.lef"] in
  found ← exists_path source_path;
  if negb found then raise (FileNotFoundError ("IO LEF not found: " +:+ source_path)) else
  cache_tech_dir_path ← get_cache_dir;
  let dest_path := pathlib_join cache_tech_dir_path ["sky130_ef_io.lef"] in
  _ ← open_w dest_path;
  sf ← read source_path;
  sl ← lift (io_lef_lines (readlines sf));
  write dest_path (writelines sl).

(** ** [SKY130Tech.post_install_script] *)

(** The jobs [post_install_script] runs once the attributes are set. *)
Definition run_patch_jobs : tech unit :=
  slib ← get_setting "technology.sky130.stdcell_library";
  _ ← (if bool_decide (slib = SStr "sky130_fd_sc_hd") then
         _ ← setup_cdl;
         _ ← setup_verilog;
         setup_techlef
       else mret tt);
  setup_io_lefs.

Definition post_install_script : tech unit :=
  _ ← (fun st => (with_library_name "sky130_fd_sc_hd" st, Ok tt)) : tech unit;
  (* check whether variables were overriden to point to a valid path *)
  macros ← get_setting "technology.sky130.sram22_sky130_macros";
  macros ← lift (as_str macros);
  found ← exists_path macros;
  _ ← (fun st => (with_use_sram22 found st, Ok tt)) : tech unit;
  run_patch_jobs.

(** ** Hooks *)

Inductive hook_location : Type := InsertPreStep | InsertPostStep.

(** The actions the hooks run, by name. *)
Inductive hook_function : Type :=
  | sky130_innovus_settings
  | sky130_add_endcaps
  | sky130_connect_nets
  | sky130_connect_nets2
  | calibre_drc_blackbox_srams
  | pegasus_drc_blackbox_srams
  | setup_calibre_lvs_deck
  | sram22_lvs_recognize_gates_all
  | calibre_lvs_blackbox_srams
  | pegasus_lvs_blackbox_srams.

Record HammerToolHookAction : Type := {
  target_name : string;
  location : hook_location;
  function : hook_function
}.

Definition make_post_insertion_hook (step : string) (f : hook_function) : HammerToolHookAction :=
  {| target_name := step; location := InsertPostStep; function := f |}.
Definition make_pre_insertion_hook (step : string) (f : hook_function) : HammerToolHookAction :=
  {| target_name := step; location := InsertPreStep; function := f |}.

(** [hooks.get(tool_name, [])] *)
Definition dict_get (hooks : gmap string (list HammerToolHookAction)) (tool_name : string)
    : list HammerToolHookAction :=
  default [] (hooks !! tool_name).

Definition get_tech_par_hooks (tool_name : string) : tech (list HammerToolHookAction) :=
  let hooks : gmap string (list HammerToolHookAction) :=
    {[ "innovus" :=
         [ make_post_insertion_hook "init_design" sky130_innovus_settings;
           make_pre_insertion_hook "place_tap_cells" sky130_add_endcaps;
           make_pre_insertion_hook "power_straps" sky130_connect_nets;
           make_pre_insertion_hook "write_design" sky130_connect_nets2 ] ]} in
  mret (dict_get hooks tool_name).

Definition get_tech_drc_hooks (tool_name : string) : tech (list HammerToolHookAction) :=
  let calibre_hooks := [] in
  let pegasus_hooks := [] in
  blackbox ← get_setting "technology.sky130.drc_blackbox_srams";
  let '(calibre_hooks, pegasus_hooks) :=
    if truthy blackbox then
      (calibre_hooks ++ [make_post_insertion_hook "generate_drc_run_file" calibre_drc_blackbox_srams],
       pegasus_hooks ++ [make_post_insertion_hook "generate_drc_ctl_file" pegasus_drc_blackbox_srams])
    else (calibre_hooks, pegasus_hooks) in
  let hooks : gmap string (list HammerToolHookAction) :=
    <["calibre" := calibre_hooks]> (<["pegasus" := pegasus_hooks]> ∅) in
  mret (dict_get hooks tool_name).

Definition get_tech_lvs_hooks (tool_name : string) : tech (list HammerToolHookAction) :=
  let calibre_hooks := [make_post_insertion_hook "generate_lvs_run_file" setup_calibre_lvs_deck] in
  let pegasus_hooks := [] in
  sram22 ← get_use_sram22;
  let calibre_hooks :=
    if (sram22 : bool)
    then calibre_hooks ++ [make_post_insertion_hook "generate_lvs_run_file" sram22_lvs_recognize_gates_all]
    else calibre_hooks in
  blackbox ← get_setting "technology.sky130.lvs_blackbox_srams";
  let '(calibre_hooks, pegasus_hooks) :=
    if truthy blackbox then
      (calibre_hooks ++ [make_post_insertion_hook "generate_lvs_run_file" calibre_lvs_blackbox_srams],
       pegasus_hooks ++ [make_post_insertion_hook "generate_lvs_ctl_file" pegasus_lvs_blackbox_srams])
    else (calibre_hooks, pegasus_hooks) in
  let hooks : gmap string (list HammerToolHookAction) :=
    <["calibre" := calibre_hooks]> (<["pegasus" := pegasus_hooks]> ∅) in
  mret (dict_get hooks tool_name).

(** ** Vocabulary of the statements *)

(** The three process codes the corner pattern recognises. *)
Inductive corner_code : Type := FF | SS | TT.

#[export] Instance corner_code_eq_dec : EqDecision corner_code.
Proof. solve_decision. Defined.

Definition code_str (p : corner_code) : string :=
  match p with FF => "ff" | SS => "ss" | TT => "tt" end.

Definition code_speed (p : corner_code) : string :=
  match p with FF => "fast" | SS => "slow" | TT => "typical" end.

(** What [re.split] reports for one match of the corner pattern. *)
Definition code_groups (p : corner_code) : list (option string) :=
  match p with
  | FF => [Some "ff"; None; None]
  | SS => [None; Some "ss"; None]
  | TT => [None; None; Some "tt"]
  end.

(** No process token ([_ff], [_ss], [_tt]) occurs in [s]. *)
Definition corner_free (s : string) : bool :=
  negb (contains "_ff" s) && negb (contains "_ss" s) && negb (contains "_tt" s).

(** The process part of an IO corner file name: the token once, or twice
    over. *)
Definition process_text (p : corner_code) (doubled : bool) : string :=
  if doubled then "_" +:+ code_str p +:+ "_" +:+ code_str p
  else "_" +:+ code_str p.

(** The voltage filter of the IO loop on the temperature and voltage tokens
    [temp_volt]: the third token, and the fourth when there are exactly four,
    is looked at. *)
Definition secondary_starts_with_1 (temp_volt : list string) : bool :=
  startswith (default "" (temp_volt !! 2)) "1"
  || (bool_decide (length temp_volt = 4) && startswith (default "" (temp_volt !! 3)) "1").

(** The process code a standard-cell corner file name carries: the first
    underscore-separated part of what follows the double underscore
    ([sky130_fd_sc_hd]), or of the name without its [sky130_] prefix
    ([sky130_scl]). *)
Definition hd_code (cornerfilename : string) : option string :=
  match split "__" (replace ".lib" "" cornerfilename) !! 1 with
  | Some cornername => head (split "_" cornername)
  | None => None
  end.

Definition scl_code (cornerfilename : string) : option string :=
  head (split "_" (replace "sky130_" "" (replace ".lib" "" cornerfilename))).

Definition corner_speeds (l : Library) : option (string * string) :=
  match corner l with
  | Some c => Some (nmos c, pmos c)
  | None => None
  end.

(** [s.find(sub)]: the position of the first occurrence. *)
Fixpoint find_from (sub s : string) (i : nat) : option nat :=
  if startswith s sub then Some i
  else match s with
       | EmptyString => None
       | String _ s' => find_from sub s' (S i)
       end.

Definition find (sub s : string) : option nat := find_from sub s 0.

(** The key [gen_config] writes for [sky130_scl]. *)
Definition clock_gating_key : string := "synthesis.clock_gating_mode".

(** ** Sample technology objects *)

Definition hooks_state : state :=
  {| db := {[ "technology.sky130.drc_blackbox_srams" := SBool true;
              "technology.sky130.lvs_blackbox_srams" := SBool true ]};
     files := ∅; dirs := ∅; tlefs := ∅; config := None;
     library_name := "sky130_fd_sc_hd"; use_sram22 := Some true; cache_dir := "cache" |}.


Definition sample_db (slib : string) : gmap string setting :=
  {[ "technology.sky130.stdcell_library" := SStr slib;
     "technology.sky130.sky130A" := SStr "/pdk/sky130A";
     "technology.sky130.sky130_cds" := SStr "/pdk/cds";
     "technology.sky130.sky130_scl" := SStr "/pdk/scl";
     "synthesis.clock_gating_mode" := SStr "auto" ]}.

Definition sample_dirs : gmap string (list string) :=
  {[ "/pdk/sky130A/libs.ref/sky130_fd_io/lib" :=
       [ "sky130_fd_io__top_gpiov2_tt_tt_025C_1v80_3v30.lib";
         "sky130_fd_io__top_gpiov2_ff_ff_n40C_1v95_5v50_nointpwr.lib";
         "sky130_fd_io__top_gpiov2_ff_ss_n40C_1v95_5v50.lib" ];
     "/pdk/sky130A/libs.ref/sky130_fd_sc_hd/lib" :=
       [ "sky130_fd_sc_hd__tt_025C_1v80.lib"; "sky130_fd_sc_hd__ss_n40C_1v28.lib" ];
     "/pdk/scl/lib" := [ "sky130_tt_1.8_25_nldm.lib"; "sky130_ff_1.98_0_nldm.lib" ] ]}.

Definition sample_tlefs : gmap string (list Metal) :=
  {[ "/pdk/sky130A/libs.ref/sky130_fd_sc_hd/techlef/sky130_fd_sc_hd__min.tlef" :=
       [ {| metal_name := "li1"; metal_index := 1 |} ];
     "/pdk/scl/lef/sky130_scl_9T.tlef" :=
       [ {| metal_name := "met1"; metal_index := 1 |} ] ]}.

Definition scl_state : state :=
  {| db := sample_db "sky130_scl"; files := ∅; dirs := sample_dirs; tlefs := sample_tlefs;
     config := None; library_name := ""; use_sram22 := None; cache_dir := "cache" |}.

Definition hd_state : state :=
  {| db := sample_db "sky130_fd_sc_hd"; files := ∅; dirs := sample_dirs; tlefs := sample_tlefs;
     config := None; library_name := ""; use_sram22 := None; cache_dir := "cache" |}.


(** A library Verilog file in which the vendor has fixed the timing arc:
    the sentinel directive is there, the malformed expression is not. *)
Definition verilog_fixed : string :=
"`ifndef SKY130_FD_SC_HD__LPFLOW_BLEEDER_1_TIMING_V
`define SKY130_FD_SC_HD__LPFLOW_BLEEDER_1_TIMING_V
module sky130_fd_sc_hd__lpflow_bleeder_1 (SHORT, VPWR);
specify
(SHORT => VPWR) = (0:0:0,0:0:0);
endspecify
endmodule
`endif  // SKY130_FD_SC_HD__LPFLOW_BLEEDER_1_TIMING_V
".

Definition patch_db : gmap string setting :=
  {[ "technology.sky130.stdcell_library" := SStr "sky130_fd_sc_hd";
     "technology.sky130.sky130A" := SStr "/pdk/sky130A";
     "technology.sky130.sram22_sky130_macros" := SStr "/pdk/sram22";
     "vlsi.core.lvs_tool" := SStr "hammer.lvs.calibre" ]}.

Definition verilog_fixed_state : state :=
  {| db := patch_db;
     files := {[ "/pdk/sky130A/libs.ref/sky130_fd_sc_hd/verilog/sky130_fd_sc_hd.v" := verilog_fixed;
                 "/pdk/sky130A/libs.ref/sky130_fd_sc_hd/verilog/primitives.v" := "" ]};
     dirs := ∅; tlefs := ∅; config := None;
     library_name := "sky130_fd_sc_hd"; use_sram22 := None; cache_dir := "/build/tech-sky130-cache" |}.


(** ** What a regular expression matches

    [path r st st'] says that [r] can take the matcher from position [st] to
    position [st']; the backtracking matcher is sound and complete for it. *)

Fixpoint all_class (c : cclass) (s : string) : bool :=
  match s with
  | EmptyString => true
  | String a s' => cmatch c a && all_class c s'
  end.

Fixpoint path (r : regex) (st st' : mstate) : Prop :=
  match r with
  | RLit s =>
      startswith (m_rest st) s = true
      /\ st' = MState (m_pos st + String.length s) (sdrop (String.length s) (m_rest st)) (m_caps st)
  | RBol => m_pos st = 0 /\ st' = st
  | RStar c _ =>
      exists n, n <= String.length (m_rest st)
        /\ all_class c (stake n (m_rest st)) = true
        /\ st' = MState (m_pos st + n) (sdrop n (m_rest st)) (m_caps st)
  | RSeq r1 r2 => exists mid, path r1 st mid /\ path r2 mid st'
  | RAlt r1 r2 => path r1 st st' \/ path r2 st st'
  | RGroup n r =>
      exists st1, path r st st1
        /\ st' = MState (m_pos st1) (m_rest st1)
                   (<[pred n := Some (stake (m_pos st1 - m_pos st) (m_rest st))]> (m_caps st1))
  end.


(** ** Delayed-net harmonisation, read as one pass over the file

    A line that [pattern] matches is a declaration and declares the spelling
    [capture_pattern] finds in it; every other line after a declaration has
    its captured spellings rewritten to the one last declared; the lines
    before the first declaration are left alone. *)

Definition is_declaration (line : string) : bool := re_search pattern 0 line.

Definition declared_name (line : string) : string :=
  hd "" (re_findall capture_pattern line).

Fixpoint harmonize_pass (canonical : option string) (sl : list string) : list string :=
  match sl with
  | [] => []
  | line :: sl' =>
      if is_declaration line then line :: harmonize_pass (Some (declared_name line)) sl'
      else match canonical with
           | Some c => fix_reference c line
           | None => line
           end :: harmonize_pass canonical sl'
  end.

(** The declarations of [sl] with their line numbers, counting from [i]. *)
Fixpoint declarations (sl : list string) (i : nat) : list (nat * string) :=
  match sl with
  | [] => []
  | line :: sl' =>
      if is_declaration line then (i, declared_name line) :: declarations sl' (S i)
      else declarations sl' (S i)
  end.


(** How many characters at the start of [s] are of class [c]. *)
Fixpoint class_run (c : cclass) (s : string) : nat :=
  match s with
  | EmptyString => 0
  | String a s' => if cmatch c a then S (class_run c s') else 0
  end.

(** A pattern that cannot take a line feed. *)
Fixpoint lf_free_re (r : regex) : bool :=
  match r with
  | RLit s => all_class CDot s
  | RBol => true
  | RStar CDot _ => true
  | RStar CSpace _ => false
  | RSeq r1 r2 | RAlt r1 r2 => lf_free_re r1 && lf_free_re r2
  | RGroup _ r => lf_free_re r
  end.

(** A line as the file reader yields it: no line feed, except as its last
    character. *)
Fixpoint one_line (line : string) : bool :=
  match line with
  | EmptyString => true
  | String a s =>
      match s with
      | EmptyString => true
      | String _ _ => negb (Ascii.eqb a LF) && one_line s
      end
  end.

(** A reference line with two spellings of the delayed net. *)
Definition two_spellings : string :=
  "  and and0 (X, SLEEP1_B_delayed, SLEEP1__B_delayed);" +:+ nl.

(** A declaration of the canonical delayed net followed by three
    references, spelled [SLEEP1_B_delayed], [SLEEP1B_delayed] and
    [Sleep1Bdelay]. *)
Definition delayed_net_lines : list string :=
  [ "  wire SLEEP1B_delayed;" +:+ nl;
    "  not not0 (SLEEP1_B_delayed, A);" +:+ nl;
    "  and and0 (X, SLEEP1B_delayed, B);" +:+ nl;
    "  buf buf0 (Y, Sleep1Bdelay);" +:+ nl ].


(** ** Sources and destinations of the patch jobs *)

Definition sky130A (st : state) : string :=
  match db st !! "technology.sky130.sky130A" with
  | Some (SStr a) => a
  | _ => ""
  end.

Definition cdl_source (st : state) : string :=
  pathlib_join (sky130A st) ["libs.ref"; library_name st; "cdl"; library_name st +:+ ".cdl"].
Definition cdl_dest (st : state) : string :=
  pathlib_join (cache_dir st) [library_name st +:+ ".cdl"].

Definition verilog_source (st : state) : string :=
  pathlib_join (sky130A st) ["libs.ref"; library_name st; "verilog"; library_name st +:+ ".v"].
Definition verilog_dest (st : state) : string :=
  pathlib_join (cache_dir st) [library_name st +:+ ".v"].

Definition primitives_source (st : state) : string :=
  pathlib_join (sky130A st) ["libs.ref"; library_name st; "verilog"; "primitives.v"].
Definition primitives_dest (st : state) : string :=
  pathlib_join (cache_dir st) ["primitives.v"].

Definition techlef_source (st : state) : string :=
  pathlib_join (sky130A st) ["libs.ref"; library_name st; "techlef"; library_name st +:+ "__nom.tlef"].
Definition techlef_dest (st : state) : string :=
  pathlib_join (cache_dir st) [library_name st +:+ "__nom.tlef"].

Definition io_lef_source (st : state) : string :=
  pathlib_join (sky130A st) ["libs.ref"; "sky130_fd_io"; "lef"; "sky130_ef_io.lef"].
Definition io_lef_dest (st : state) : string :=
  pathlib_join (cache_dir st) ["sky130_ef_io.lef"].


(** ** Regeneration: two runs of a patch job side by side

    [D] lists the paths a job may write (its destinations) and [e] is the
    technology object the job runs in (its settings, attributes and
    directories). Two runs are compared, one started in [st] and now in
    [s1], the other started in [st'] and now in [s2]: on the paths opened
    for writing so far ([W]) the two file systems hold the same text; any
    other path holds the same text in both, or is a destination that
    neither run has touched yet. *)

Definition same_env (s1 s2 : state) : Prop :=
  db s1 = db s2 /\ dirs s1 = dirs s2 /\ tlefs s1 = tlefs s2 /\ config s1 = config s2
  /\ library_name s1 = library_name s2 /\ use_sram22 s1 = use_sram22 s2
  /\ cache_dir s1 = cache_dir s2.

Definition related (D : list string) (e : state) (W : list string)
    (st st' s1 s2 : state) : Prop :=
  same_env s1 e /\ same_env s2 e
  /\ (forall p, p ∈ W -> files s1 !! p = files s2 !! p)
  /\ (forall p, files s1 !! p = files s2 !! p
                \/ (p ∈ D /\ files s1 !! p = files st !! p /\ files s2 !! p = files st' !! p)).

(** [regen D e W m W']: run side by side from related states, [m] ends
    with the same outcome in both, keeps the two runs related, opens the
    paths [W'] on top of [W] when it completes, and writes only to
    destinations. *)
Definition regen {A} (D : list string) (e : state) (W : list string) (m : tech A)
    (W' : list string) : Prop :=
  forall st st' s1 s2, related D e W st st' s1 s2 ->
    (m s1).2 = (m s2).2
    /\ related D e W st st' (m s1).1 (m s2).1
    /\ (forall a, (m s1).2 = Ok a -> related D e (W' ++ W) st st' (m s1).1 (m s2).1)
    /\ (forall p, p ∉ D -> files (m s1).1 !! p = files s1 !! p).


(** ** The statements about the patch jobs *)

(** Run a second time where the first run ended, the job changes nothing
    and ends the same. *)
Definition idempotent_job (m : tech unit) (st : state) : Prop :=
  m (m st).1 = ((m st).1, (m st).2).

(** Whatever text [dest] held before, the job ends the same, and when it
    completes [dest] holds the same text. *)
Definition regenerates (m : tech unit) (dest : string) (st : state) : Prop :=
  forall old,
    (m (with_files (insert dest old) st)).2 = (m st).2
    /\ ((m st).2 = Ok tt ->
        files (m (with_files (insert dest old) st)).1 !! dest = files (m st).1 !! dest).

(** The technology object as [post_install_script] sets it up before the
    jobs run, and the destinations of all jobs. *)
Definition installed (st : state) : state := with_library_name "sky130_fd_sc_hd" st.

Definition all_dests (st : state) : list string :=
  [ cdl_dest (installed st); verilog_dest (installed st); primitives_dest (installed st);
    techlef_dest (installed st); io_lef_dest (installed st) ].

Definition all_sources (st : state) : list string :=
  [ cdl_source (installed st); verilog_source (installed st);
    primitives_source (installed st); techlef_source (installed st);
    io_lef_source (installed st) ].

Definition sram22_macros (st : state) : string :=
  match db st !! "technology.sky130.sram22_sky130_macros" with
  | Some (SStr a) => a
  | _ => ""
  end.

(** ** A sample PDK *)

Definition sample_cdl : string :=
".SUBCKT sky130_fd_sc_hd__inv_1 A VGND VNB VPB VPWR Y
MMIN1 Y A VGND VNB nfet_01v8 m=1 w=0.65 l=0.15
MMIP1 Y A VPWR VPB pfet_01v8_hvt m=1 w=1.0 l=0.15
.ENDS
".

Definition sample_verilog : string :=
"`ifndef SKY130_FD_SC_HD__LPFLOW_BLEEDER_1_TIMING_V
`define SKY130_FD_SC_HD__LPFLOW_BLEEDER_1_TIMING_V
module sky130_fd_sc_hd__lpflow_bleeder_1 (SHORT, VPWR);
  wire 1;
specify
(SHORT => VPWR) = (0:0:0,0:0:0,0:0:0,0:0:0,0:0:0,0:0:0);
endspecify
endmodule
`endif  // SKY130_FD_SC_HD__LPFLOW_BLEEDER_1_TIMING_V
module sky130_fd_sc_hd__lpflow_inputiso0n_1 (X, A, SLEEP_B);
  wire SLEEP_B_delayed;
  and and0 (X, A, SLEEPB_delayed);
endmodule
".

Definition sample_primitives : string :=
"`default_nettype none
primitive sky130_fd_sc_hd__udp_mux_2to1 (X, A0, A1, S);
endprimitive
".

Definition sample_tlef : string :=
"LAYER pwell
  TYPE MASTERSLICE ;
END pwell
LAYER li1
  TYPE ROUTING ;
END li1
".

Definition sample_io_lef : string :=
"MACRO sky130_ef_io__vccd_lvc_clamped_pad
  CLASS PAD POWER ;
  PIN VCCD1
    USE POWER ;
    PORT
      LAYER met3 ;
    END
  END VCCD1
  PIN VSSD1
    PORT
      LAYER met3 ;
    END
  END VSSD1
  PIN VDDIO
    PORT
      LAYER met3 ;
    END
  END VDDIO
END sky130_ef_io__vccd_lvc_clamped_pad
MACRO sky130_ef_io__connect_vcchib_vccd_and_vswitch_vddio_slice_20um
  CLASS PAD AREAIO ;
END sky130_ef_io__connect_vcchib_vccd_and_vswitch_vddio_slice_20um
MACRO sky130_ef_io__disconnect_vccd_slice_5um
  CLASS PAD AREAIO ;
END sky130_ef_io__disconnect_vccd_slice_5um
MACRO sky130_ef_io__disconnect_vdda_slice_5um
  CLASS PAD AREAIO ;
END sky130_ef_io__disconnect_vdda_slice_5um
".

Definition sample_files : gmap string string :=
  {[ "/pdk/sky130A/libs.ref/sky130_fd_sc_hd/cdl/sky130_fd_sc_hd.cdl" := sample_cdl;
     "/pdk/sky130A/libs.ref/sky130_fd_sc_hd/verilog/sky130_fd_sc_hd.v" := sample_verilog;
     "/pdk/sky130A/libs.ref/sky130_fd_sc_hd/verilog/primitives.v" := sample_primitives;
     "/pdk/sky130A/libs.ref/sky130_fd_sc_hd/techlef/sky130_fd_sc_hd__nom.tlef" := sample_tlef;
     "/pdk/sky130A/libs.ref/sky130_fd_io/lef/sky130_ef_io.lef" := sample_io_lef ]}.

Definition patch_state : state :=
  {| db := patch_db; files := sample_files; dirs := ∅; tlefs := ∅; config := None;
     library_name := "sky130_fd_sc_hd"; use_sram22 := None;
     cache_dir := "/build/tech-sky130-cache" |}.

(** The same technology object with the PDK root written with a doubled
    slash, a [.] component and a slash at its end. *)
Definition unnormalised_state : state :=
  {| db := <["technology.sky130.sky130A" := SStr "/pdk//sky130A/./"]> patch_db;
     files := sample_files; dirs := ∅; tlefs := ∅; config := None;
     library_name := "sky130_fd_sc_hd"; use_sram22 := None;
     cache_dir := "/build/tech-sky130-cache" |}.


(** ** The statements about the IO LEF repair *)

Fixpoint has_char (c : ascii) (s : string) : bool :=
  match s with
  | EmptyString => false
  | String a s' => Ascii.eqb a c || has_char c s'
  end.

(** What the repair does to a line of a pin block. *)
Definition insert_class_core (line : string) : string := replace "PORT" class_core line.

(** A line that reads [PIN net], and one that reads [END net], white
    space at its ends apart. *)
Definition pin_line (net line : string) : bool := bool_decide (strip line = "PIN " +:+ net).
Definition end_line (net line : string) : bool := bool_decide (strip line = "END " +:+ net).

(** The PIN blocks of a net in a LEF text, read from the top: a block goes
    from a line that reads [PIN net] up to the line before the next line
    that reads [END net]. For every line, whether it lies in a block;
    [opened] tells whether a block is open where the lines start. *)
Fixpoint pin_block_lines (net : string) (opened : bool) (sl : list string) : list bool :=
  match sl with
  | [] => []
  | line :: sl' =>
      if opened then
        if end_line net line then false :: pin_block_lines net false sl'
        else true :: pin_block_lines net true sl'
      else
        if pin_line net line then true :: pin_block_lines net true sl'
        else false :: pin_block_lines net false sl'
  end.

Definition in_pin_block (net : string) (sl : list string) (i : nat) : bool :=
  default false (pin_block_lines net false sl !! i).

(** A text in which the words [PIN net] and [END net] stand for the blocks
    and for nothing else: outside a block no line holds [END net] and a line
    that holds [PIN net] reads [PIN net]; inside a block no line holds
    [PIN net] and a line that holds [END net] reads [END net]; the last
    block is closed. *)
Fixpoint plain_pins (net : string) (opened : bool) (sl : list string) : bool :=
  match sl with
  | [] => negb opened
  | line :: sl' =>
      let p := contains ("PIN " +:+ net) line in
      let e := contains ("END " +:+ net) line in
      if opened then
        negb p && (if e then end_line net line && plain_pins net false sl'
                   else plain_pins net true sl')
      else
        negb e && (if p then pin_line net line && plain_pins net true sl'
                   else plain_pins net false sl')
  end.

(** The sample IO LEF under a comment line that mentions both [END] lines. *)
Definition commented_io_lef : string :=
  "# the END VCCD1 and END VSSD1 lines close the core supply pins" +:+ nl +:+ sample_io_lef.

Definition commented_state : state :=
  {| db := patch_db;
     files := {[ "/pdk/sky130A/libs.ref/sky130_fd_io/lef/sky130_ef_io.lef" := commented_io_lef ]};
     dirs := ∅; tlefs := ∅; config := None;
     library_name := "sky130_fd_sc_hd"; use_sram22 := None;
     cache_dir := "/build/tech-sky130-cache" |}.

(** The intervals the repair forms for a net: the k-th line with [PIN net]
    paired with the k-th line with [END net]. *)
Definition pin_blocks (sl : list string) (net : string) : list (nat * nat) :=
  zip (enum_where (contains ("PIN " +:+ net)) sl) (enum_where (contains ("END " +:+ net)) sl).

Definition in_interval (i : nat) (intv : nat * nat) : bool :=
  (fst intv <=? i) && (i <? snd intv).

(** In how many of the given blocks line [i] lies. *)
Definition covering (blocks : list (nat * nat)) (i : nat) : nat :=
  length (filter (fun intv => in_interval i intv = true) blocks).

(** All lines but the last end with a line feed. *)
Definition ends_lf (line : string) : Prop := exists body, line = body +:+ nl.

Fixpoint lines_ok (sl : list string) : Prop :=
  match sl with
  | [] => True
  | line :: sl' =>
      match sl' with
      | [] => True
      | _ => ends_lf line /\ lines_ok sl'
      end
  end.


(** What the repair may change in a line: neither the number of [PORT]s
    nor the line feed at its end. *)
Definition keeps_ports (x y : string) : Prop :=
  count_at "PORT" y = count_at "PORT" x /\ (ends_lf x -> ends_lf y).


(** ** Text read line by line *)

(** [f] acts on every line by itself: applied to a text it is applied to
    the part before each line feed and to the part after it. *)
Definition linewise (f : string -> string) : Prop :=
  f "" = "" /\ forall s b, f (s +:+ String LF b) = f s +:+ String LF (f b).

(** The device names [setup_cdl] writes for an LVS tool. *)
Definition device_names (tool : setting) : string * string :=
  if bool_decide (tool = SStr "hammer.lvs.calibre") then ("phighvt", "nshort")
  else if bool_decide (tool = SStr "hammer.lvs.netgen")
       then ("sky130_fd_pr__pfet_01v8_hvt", "sky130_fd_pr__nfet_01v8")
       else ("pfet_01v8_hvt", "nfet_01v8").

(** The lines after which [setup_techlef] puts the [licon] section. *)
Definition is_end_pwell (line : string) : bool := bool_decide (strip line = "END pwell").

Definition pwell_lines (text : string) : nat :=
  length (filter (fun line => is_end_pwell line = true) (readlines text)).

(** ** Occurrences that cannot touch *)

(** One of the two texts is the beginning of the other. *)
Definition compatible (a q : string) : bool := startswith a q || startswith q a.

(** The non-empty ends of a text. *)
Fixpoint suffixes (s : string) : list string :=
  match s with
  | EmptyString => []
  | String _ s' => s :: suffixes s'
  end.

(** No occurrence of [pat] in a text shares a character with an occurrence
    of [a]: [pat] starts nowhere inside [a], and [a] starts nowhere inside
    [pat]. *)
Definition no_overlap (a pat : string) : bool :=
  forallb (fun a' => negb (compatible a' pat)) (suffixes a)
  && forallb (fun q => negb (compatible a q)) (suffixes pat).

(** ** The statements about the spacer cells of the IO LEF *)

Definition spacer_line (line : string) : string := replace "AREAIO" "SPACER" line.

(** The first line with [MACRO cell]. *)
Definition macro_header (sl : list string) (cell : string) : option nat :=
  head (enum_where (contains ("MACRO " +:+ cell)) sl).

(** The macro of [cell] has a header line and a line after it. *)
Definition spacer_ok (sl : list string) (cell : string) : Prop :=
  exists i, macro_header sl cell = Some i /\ i + 1 < length sl.

(** The lines the spacer loop rewrites, one for each cell that has a
    header. *)
Definition spacer_targets (sl : list string) (cells : list string) : list nat :=
  omap (fun cell => (fun i => i + 1) <$> macro_header sl cell) cells.

(** How often [j] is among [l]. *)
Definition occurrences (j : nat) (l : list nat) : nat :=
  length (filter (fun k => k = j) l).

(** The lines of [sl] have the same macro headers of [cells] as those of
    [sl0]. *)
Definition same_headers (cells : list string) (sl0 sl : list string) : Prop :=
  length sl = length sl0
  /\ forall cell, cell ∈ cells ->
       enum_where (contains ("MACRO " +:+ cell)) sl
       = enum_where (contains ("MACRO " +:+ cell)) sl0.

(** The header of [cell] cannot touch an [AREAIO], a [SPACER], a [PORT] or
    the class line put after a [PORT]. *)
Definition plain_header (cell : string) : bool :=
  no_overlap "AREAIO" ("MACRO " +:+ cell) && no_overlap "SPACER" ("MACRO " +:+ cell)
  && no_overlap "PORT" ("MACRO " +:+ cell) && no_overlap class_core ("MACRO " +:+ cell).

(** ** The statements about what a method leaves alone *)

(** The settings, the descriptor and the attributes of the technology
    object are the same in both states. *)
Definition same_object (s1 s2 : state) : Prop :=
  db s1 = db s2 /\ config s1 = config s2 /\ library_name s1 = library_name s2
  /\ use_sram22 s1 = use_sram22 s2 /\ cache_dir s1 = cache_dir s2.

(** A technology object set up for the [sky130_scl] family over the sample
    PDK. *)
Definition scl_patch_state : state :=
  {| db := <["technology.sky130.stdcell_library" := SStr "sky130_scl"]> patch_db;
     files := sample_files; dirs := ∅; tlefs := ∅; config := None;
     library_name := ""; use_sram22 := None; cache_dir := "/build/tech-sky130-cache" |}.

(** The hooks of the registry. *)
Definition drc_calibre_hook : HammerToolHookAction :=
  make_post_insertion_hook "generate_drc_run_file" calibre_drc_blackbox_srams.
Definition drc_pegasus_hook : HammerToolHookAction :=
  make_post_insertion_hook "generate_drc_ctl_file" pegasus_drc_blackbox_srams.
Definition lvs_deck_hook : HammerToolHookAction :=
  make_post_insertion_hook "generate_lvs_run_file" setup_calibre_lvs_deck.
Definition lvs_sram22_hook : HammerToolHookAction :=
  make_post_insertion_hook "generate_lvs_run_file" sram22_lvs_recognize_gates_all.
Definition lvs_calibre_hook : HammerToolHookAction :=
  make_post_insertion_hook "generate_lvs_run_file" calibre_lvs_blackbox_srams.
Definition lvs_pegasus_hook : HammerToolHookAction :=
  make_post_insertion_hook "generate_lvs_ctl_file" pegasus_lvs_blackbox_srams.

(** What a hook query returns for a tool, given the lists it built for
    Calibre and Pegasus. *)
Definition by_tool (tool_name : string) (calibre_hooks pegasus_hooks : list HammerToolHookAction)
    : list HammerToolHookAction :=
  if bool_decide (tool_name = "calibre") then calibre_hooks
  else if bool_decide (tool_name = "pegasus") then pegasus_hooks
  else [].

(** The sample PDK with the LVS black-box setting present and off. *)
Definition lvs_patch_state : state :=
  {| db := <["technology.sky130.lvs_blackbox_srams" := SBool false]> patch_db;
     files := sample_files; dirs := ∅; tlefs := ∅; config := None;
     library_name := ""; use_sram22 := None; cache_dir := "/build/tech-sky130-cache" |}.

(** ** The statements about the listings [gen_config] reads *)

(** The order [list.sort()] puts file names in. *)
Definition name_le (a b : string) : Prop := String.leb a b = true.

(** Two technology objects that differ at most in the order in which their
    directories are listed (and in the files, the descriptor and the
    attributes, which [gen_config] does not read). *)
Definition same_listings (s1 s2 : state) : Prop :=
  db s1 = db s2 /\ tlefs s1 = tlefs s2
  /\ forall path, option_Forall2 Permutation (dirs s1 !! path) (dirs s2 !! path).

(** The sample PDK of [hd_state] with every directory listed in the opposite
    order. *)
Definition hd_state_reversed : state :=
  {| db := sample_db "sky130_fd_sc_hd"; files := ∅; dirs := reverse <$> sample_dirs;
     tlefs := sample_tlefs; config := None; library_name := ""; use_sram22 := None;
     cache_dir := "cache" |}.

(** ** The statements about corner file names *)

(** The temperature and voltage part of a corner file name: every token
    with an underscore before it. *)
Definition underscore_tokens (toks : list string) : string :=
  foldr (fun t acc => "_" +:+ t +:+ acc) "" toks.

(** What the [sky130_scl] loop writes for a process code, whatever numbers
    the file name carries. *)
Definition scl_corner_values (code : string) : string * string * string :=
  if bool_decide (code = "ff") then ("fast", "1.95 V", "-40 C")
  else if bool_decide (code = "tt") then ("typical", "1.80 V", "25 C")
  else if bool_decide (code = "ss") then ("slow", "1.60 V", "100 C")
  else (code, "", "").

(** ** [re.sub]

    [matcher.sub(repl, s)] for a pattern that matches no empty text: every
    match, found left to right and not overlapping, is replaced by [repl]. *)

Fixpoint sub_from (r : regex) (groups : nat) (repl : string) (pos : nat) (s : string)
    (skip : nat) : string :=
  match s with
  | EmptyString => EmptyString
  | String a s' =>
      match skip with
      | S k => sub_from r groups repl (S pos) s' k
      | O =>
          match match_at r groups pos s with
          | Some (len, _) => repl +:+ sub_from r groups repl (S pos) s' (len - 1)
          | None => String a (sub_from r groups repl (S pos) s' 0)
          end
      end
  end.

Definition re_sub (r : regex) (groups : nat) (repl s : string) : string :=
  sub_from r groups repl 0 s 0.

(** ['|'.join(words)] as a pattern, for words without special characters *)
Fixpoint alternatives (words : list string) : regex :=
  match words with
  | [] => RLit ""
  | [w] => RLit w
  | w :: words' => RAlt (RLit w) (alternatives words')
  end.

(** ** The hook actions

    A hook action gets the tool it runs in. Of the tool, the record below
    carries what the actions of this plugin use: which tool classes it
    belongs to, the commands collected by [append], the supply nets of the
    design, the paths of the run files, the list-valued setting of the LVS
    deck sources, the parsed SRAM cache ([sram-cache.json], a list of
    objects) and the technology object with its file system. *)

Module Hook.

Record Supply : Type := { supply_name : string; tie : option string }.

Record HammerTool : Type := Tool {
  is_par : bool;   (* isinstance(ht, HammerPlaceAndRouteTool) *)
  is_tcl : bool;   (* isinstance(ht, TCLTool) *)
  is_drc : bool;   (* isinstance(ht, HammerDRCTool) *)
  is_lvs : bool;   (* isinstance(ht, HammerLVSTool) *)
  output : list string;
  all_power_nets : list Supply;
  all_ground_nets : list Supply;
  drc_run_file : string;
  drc_ctl_file : string;
  lvs_run_file : string;
  lvs_ctl_file : string;
  sram_cache : list (gmap string string);
  lvs_deck_sources : option (list string);
  technology : state
}.

Inductive error : Type :=
  | AssertionError (msg : string)
  | Error (e : exn).

Inductive outcome (A : Type) : Type :=
  | Done (a : A)
  | Failed (e : error).
Arguments Done {A} a.
Arguments Failed {A} e.

(** [ht.append(cmd)] *)
Definition append (cmd : string) (ht : HammerTool) : HammerTool :=
  Tool (is_par ht) (is_tcl ht) (is_drc ht) (is_lvs ht) (output ht ++ [cmd])
       (all_power_nets ht) (all_ground_nets ht)
       (drc_run_file ht) (drc_ctl_file ht) (lvs_run_file ht) (lvs_ctl_file ht)
       (sram_cache ht) (lvs_deck_sources ht) (technology ht).

Definition with_technology (f : state -> state) (ht : HammerTool) : HammerTool :=
  Tool (is_par ht) (is_tcl ht) (is_drc ht) (is_lvs ht) (output ht)
       (all_power_nets ht) (all_ground_nets ht)
       (drc_run_file ht) (drc_ctl_file ht) (lvs_run_file ht) (lvs_ctl_file ht)
       (sram_cache ht) (lvs_deck_sources ht) (f (technology ht)).

(** [with open(path, "a") as f: f.write(text)] *)
Definition append_file (path text : string) (ht : HammerTool) : HammerTool :=
  with_technology
    (with_files (fun fs => <[path := default "" (fs !! path) +:+ text]> fs)) ht.

Definition connect_pg_pin (tie net : string) : string :=
  "connect_global_net " +:+ tie +:+ " -type pg_pin -pin_base_name " +:+ net
  +:+ " -all -auto_tie -netlist_override".

Definition connect_net (tie net : string) : string :=
  "connect_global_net " +:+ tie +:+ " -type net    -net_base_name " +:+ net
  +:+ " -all -netlist_override".

Definition sky130_connect_nets (ht : HammerTool) : HammerTool * outcome bool :=
  if negb (is_par ht) then (ht, Failed (AssertionError "connect global nets only for par"))
  else if negb (is_tcl ht)
  then (ht, Failed (AssertionError "connect global nets can only run on TCL tools"))
  else
    let ht :=
      foldl (fun ht pwr_gnd_net =>
               match tie pwr_gnd_net with
               | Some t =>
                   append (connect_net t (supply_name pwr_gnd_net))
                     (append (connect_pg_pin t (supply_name pwr_gnd_net)) ht)
               | None => ht
               end)
            ht (all_power_nets ht ++ all_ground_nets ht) in
    (ht, Done true).

(** Pair VDD/VPWR and VSS/VGND nets: the result of [sky130_connect_nets] is
    not looked at. *)
Definition sky130_connect_nets2 (ht : HammerTool) : HammerTool * outcome bool :=
  match sky130_connect_nets ht with
  | (ht, Done _) => (ht, Done true)
  | (ht, Failed e) => (ht, Failed e)
  end.

(** [SKY130Tech.sky130_sram_names] on the parsed cache *)
Fixpoint sky130_sram_names (dl : list (gmap string string)) : result (list string) :=
  match dl with
  | [] => Ok []
  | d :: dl' =>
      match d !! "name" with
      | Some name =>
          match sky130_sram_names dl' with
          | Ok names => Ok (name :: names)
          | Raise e => Raise e
          end
      | None => Raise (KeyError "name")
      end
  end.

(** [box = ''; for name in names: box += line(name)] *)
Definition box_text (line : string -> string) (names : list string) : string :=
  foldl (fun box name => box +:+ line name) "" names.

Definition blackbox (ok : bool) (msg : string) (line : string -> string) (run_file : string)
    (ht : HammerTool) : HammerTool * outcome bool :=
  if negb ok then (ht, Failed (AssertionError msg))
  else
    match sky130_sram_names (sram_cache ht) with
    | Raise e => (ht, Failed (Error e))
    | Ok names => (append_file run_file (box_text line names) ht, Done true)
    end.

Definition calibre_drc_blackbox_srams (ht : HammerTool) : HammerTool * outcome bool :=
  blackbox (is_drc ht) "Exlude SRAMs only in DRC"
    (fun name => nl +:+ "EXCLUDE CELL " +:+ name) (drc_run_file ht) ht.

Definition pegasus_drc_blackbox_srams (ht : HammerTool) : HammerTool * outcome bool :=
  blackbox (is_drc ht) "Exlude SRAMs only in DRC"
    (fun name => nl +:+ "exclude_cell " +:+ name) (drc_ctl_file ht) ht.

Definition calibre_lvs_blackbox_srams (ht : HammerTool) : HammerTool * outcome bool :=
  blackbox (is_lvs ht) "Blackbox and filter SRAMs only in LVS"
    (fun name => (nl +:+ "LVS BOX " +:+ name) +:+ (nl +:+ "LVS FILTER " +:+ name +:+ " OPEN "))
    (lvs_run_file ht) ht.

Definition sram22_lvs_recognize_gates_all (ht : HammerTool) : HammerTool * outcome bool :=
  if negb (is_lvs ht)
  then (ht, Failed (AssertionError
          "Change 'LVS RECOGNIZE GATES' from 'NONE' to 'ALL' for SRAM22"))
  else (append_file (lvs_run_file ht) "LVS RECOGNIZE GATES ALL" ht, Done true).

Definition LVS_DECK_SCRUB_LINES : list string :=
  [ "VIRTUAL CONNECT REPORT"; "SOURCE PRIMARY"; "SOURCE SYSTEM SPICE"; "SOURCE PATH";
    "ERC"; "LVS REPORT" ].

Definition LVS_DECK_INSERT_LINES : string := "
LVS FILTER D  OPEN  SOURCE
LVS FILTER D  OPEN  LAYOUT
".

(** ['.*({}).*\n'.format('|'.join(LVS_DECK_SCRUB_LINES))] *)
Definition scrub_pattern : regex :=
  (RStar CDot true ⋅ RGroup 1 (alternatives LVS_DECK_SCRUB_LINES) ⋅ RStar CDot true
     ⋅ RLit nl)%re.

(** The body of the loop over the LVS decks: the technology object after the
    deck at index [i] was dealt with. The source is opened before the
    destination is emptied, and read after. *)
Definition setup_deck (source_paths : list string) (i : nat) (deck : Deck) (tech : state)
    : state * result unit :=
  if negb (bool_decide (tool_name deck = "calibre")) then (tech, Ok tt)
  else
    match source_paths !! i with
    | None => (tech, Ok tt)   (* IndexError caught: logged, next deck *)
    | Some source_path =>
        let source_path := path_str (Path source_path) in
        (found ← exists_path source_path;
         if negb found
         then raise (FileNotFoundError ("LVS deck not found: " +:+ source_path))
         else
           let dest_path := deck_path deck in
           _ ← read source_path;
           _ ← open_w dest_path;
           sf ← read source_path;
           _ ← write dest_path (re_sub scrub_pattern 1 "" sf);
           write dest_path LVS_DECK_INSERT_LINES) tech
    end.

Fixpoint setup_decks (source_paths : list string) (i : nat) (decks : list Deck) (tech : state)
    : state * result unit :=
  match decks with
  | [] => (tech, Ok tt)
  | deck :: decks' =>
      match setup_deck source_paths i deck tech with
      | (tech, Ok _) => setup_decks source_paths (S i) decks' tech
      | (tech, Raise e) => (tech, Raise e)
      end
  end.

Definition setup_calibre_lvs_deck (ht : HammerTool) : HammerTool * outcome bool :=
  if negb (is_lvs ht) then (ht, Failed (AssertionError "Modify Calibre LVS deck for LVS only"))
  else
    match lvs_deck_sources ht with
    | None =>
        (* a missing setting, taken to raise as in [get_setting] *)
        (ht, Failed (Error (KeyError "technology.sky130.lvs_deck_sources")))
    | Some source_paths =>
        match config (technology ht) with
        | None => (ht, Failed (Error AttributeError))
        | Some c =>
            match setup_decks source_paths 0 (lvs_decks c) (technology ht) with
            | (tech, Ok _) => (with_technology (fun _ => tech) ht, Done true)
            | (tech, Raise e) => (with_technology (fun _ => tech) ht, Failed (Error e))
            end
        end
    end.

End Hook.

(** ** The statements about the LVS deck *)

(** A line of an LVS deck that the set-up removes: it ends with a line
    feed and holds one of the statements to scrub. *)
Definition scrubbed (line : string) : bool :=
  has_char LF line && existsb (fun w => contains w line) Hook.LVS_DECK_SCRUB_LINES.

(** The deck without the lines to scrub. *)
Definition scrub (text : string) : string :=
  writelines (filter (fun line => scrubbed line = false) (readlines text)).

(** The LVS decks of every descriptor [gen_config] builds. *)
Definition calibre_lvs_deck : Deck :=
  {| tool_name := "calibre"; deck_name := "calibre_lvs";
     deck_path := "$SKY130_NDA/s8/V2.0.1/LVS/Calibre/lvsRules_s8" |}.
Definition pegasus_lvs_deck : Deck :=
  {| tool_name := "pegasus"; deck_name := "pegasus_lvs";
     deck_path := "$SKY130_CDS/Sky130_LVS/Sky130_rev_0.0_0.1.lvs.pvl" |}.

(** ** The commands and lines of the hook actions *)

(** The two commands that tie a supply net, none for a net without tie. *)
Definition net_commands (net : Hook.Supply) : list string :=
  match Hook.tie net with
  | Some t =>
      [ Hook.connect_pg_pin t (Hook.supply_name net);
        Hook.connect_net t (Hook.supply_name net) ]
  | None => []
  end.

(** The names of the SRAM cache, where every entry has one. *)
Definition named (cache : list (gmap string string)) (names : list string) : Prop :=
  Forall2 (fun d name => d !! "name" = Some name) cache names.

(** What a hook that completes with [text] appended to [run_file] leaves:
    the file holds what it held, nothing for a new file, and then [text];
    the other files and the commands of the tool are as they were. *)
Definition appends (run_file text : string) (ht : Hook.HammerTool)
    (r : Hook.HammerTool * Hook.outcome bool) : Prop :=
  r.2 = Hook.Done true
  /\ files (Hook.technology r.1)
     = <[run_file := default "" (files (Hook.technology ht) !! run_file) +:+ text]>
         (files (Hook.technology ht))
  /\ Hook.output r.1 = Hook.output ht.

(** An LVS run of a design with two SRAMs and one deck source. *)
Definition sample_deck : string :=
  "LVS POWER NAME VPWR
LVS REPORT lvs.report
  ERC SELECT CHECK
SOURCE PATH top.spice
LVS ABORT ON SUPPLY ERROR NO".

Definition lvs_technology : state :=
  {| db := ∅; files := {[ "/pdk/decks/lvsRules_s8" := sample_deck ]}; dirs := ∅; tlefs := ∅;
     config := Some (mkTechJSON [] [] [] [] []);
     library_name := "sky130_fd_sc_hd"; use_sram22 := Some true;
     cache_dir := "/build/tech-sky130-cache" |}.

Definition lvs_tool : Hook.HammerTool :=
  {| Hook.is_par := false; Hook.is_tcl := false; Hook.is_drc := true; Hook.is_lvs := true;
     Hook.output := [];
     Hook.all_power_nets := []; Hook.all_ground_nets := [];
     Hook.drc_run_file := "/build/drc-rundir/drc_run_file";
     Hook.drc_ctl_file := "/build/drc-rundir/pegasusdrcctl";
     Hook.lvs_run_file := "/build/lvs-rundir/lvs_run_file";
     Hook.lvs_ctl_file := "/build/lvs-rundir/pegasuslvsctl";
     Hook.sram_cache :=
       [ {[ "name" := "sram22_64x32m4w8" ]}; {[ "name" := "sram22_512x64m4w8" ]} ];
     Hook.lvs_deck_sources := Some ["/pdk//decks/./lvsRules_s8"];
     Hook.technology := lvs_technology |}.

(** A place-and-route run with one tied and one untied supply. *)
Definition par_tool : Hook.HammerTool :=
  {| Hook.is_par := true; Hook.is_tcl := true; Hook.is_drc := false; Hook.is_lvs := false;
     Hook.output := ["init_design"];
     Hook.all_power_nets :=
       [ {| Hook.supply_name := "VDD"; Hook.tie := None |};
         {| Hook.supply_name := "VPWR"; Hook.tie := Some "VDD" |} ];
     Hook.all_ground_nets :=
       [ {| Hook.supply_name := "VSS"; Hook.tie := None |};
         {| Hook.supply_name := "VGND"; Hook.tie := Some "VSS" |} ];
     Hook.drc_run_file := ""; Hook.drc_ctl_file := "";
     Hook.lvs_run_file := ""; Hook.lvs_ctl_file := "";
     Hook.sram_cache := []; Hook.lvs_deck_sources := None;
     Hook.technology := lvs_technology |}.
(** * Properties *)

(** ** Sanity checks of the string primitives *)

Example replace_ex : replace ".lib" "" "cell_ff_n40C_1v95_5v50.lib" = "cell_ff_n40C_1v95_5v50".
Proof. reflexivity. Qed.
Example replace_ex2 : replace "ab" "x" "aababab." = "axxx.".
Proof. reflexivity. Qed.
Example split_ex : split "_" "_n40C_1v95__5v50" = [""; "n40C"; "1v95"; ""; "5v50"].
Proof. reflexivity. Qed.
Example split_ex2 : split "__" "a___b__" = ["a"; "_b"; ""].
Proof. reflexivity. Qed.
Example strip_ex : strip "  END pwell
" = "END pwell".
Proof. reflexivity. Qed.
Example join_ex : path_join "$SKY130A" ["libs.ref"; "sky130_fd_io"; "lib"] = "$SKY130A/libs.ref/sky130_fd_io/lib".
Proof. reflexivity. Qed.

(** ** Sanity checks of the regular expressions *)

Example re_split_ex1 :
  re_split corner_re 3 "cell_ff_ff_n40C_1v95_5v50"
  = [Some "cell"; Some "ff"; None; None; Some ""; Some "ff"; None; None; Some "_n40C_1v95_5v50"].
Proof. reflexivity. Qed.

Example re_split_ex2 :
  re_split corner_re 3 "cell_tt_025C_1v80_3v30"
  = [Some "cell"; None; None; Some "tt"; Some "_025C_1v80_3v30"].
Proof. reflexivity. Qed.

Example re_split_ex3 : re_split corner_re 3 "cell_sf_025C" = [Some "cell_sf_025C"].
Proof. reflexivity. Qed.

Example findall_ex1 :
  re_findall capture_pattern ("  buf (SLEEP1_B_delayed, SLEEP_B_delayed);" +:+ nl) = ["SLEEP_B_delayed"].
Proof. reflexivity. Qed.

Example findall_ex2 : re_findall capture_pattern ("Sleep1Bdelay" +:+ nl) = [].
Proof. reflexivity. Qed.

Example search_ex1 : re_search pattern 0 ("   wire SLEEP1B_delayed;" +:+ nl) = true.
Proof. reflexivity. Qed.

Example search_ex2 : re_search pattern 0 ("  x wire SLEEP1B_delayed;" +:+ nl) = false.
Proof. reflexivity. Qed.

(** ** Strings *)

Lemma append_cons (a : ascii) (s t : string) : String a s +:+ t = String a (s +:+ t).
Proof. reflexivity. Qed.

Lemma append_nil_l (s : string) : "" +:+ s = s.
Proof. reflexivity. Qed.

Lemma append_nil_r (s : string) : s +:+ "" = s.
Proof. induction s as [|a s IH]; [done | rewrite append_cons; congruence]. Qed.

Lemma append_assoc (a b c : string) : (a +:+ b) +:+ c = a +:+ (b +:+ c).
Proof. induction a as [|x a IH]; [done | rewrite !append_cons; congruence]. Qed.

Lemma length_append (a b : string) :
  String.length (a +:+ b) = String.length a + String.length b.
Proof. induction a as [|x a IH]; [done | rewrite append_cons; simpl; congruence]. Qed.

Lemma startswith_nil (s : string) : startswith s "" = true.
Proof. by destruct s. Qed.

Lemma startswith_app (p s : string) : startswith (p +:+ s) p = true.
Proof.
  induction p as [|a p IH]; [apply startswith_nil |].
  rewrite append_cons. simpl. by rewrite Ascii.eqb_refl.
Qed.

Lemma contains_tail (sub : string) (a : ascii) (s : string) :
  contains sub (String a s) = false -> contains sub s = false.
Proof. simpl. intros H. apply orb_false_iff in H. tauto. Qed.

Lemma contains_head (sub s : string) :
  contains sub s = false -> startswith s sub = false.
Proof. destruct s; simpl; intros H; apply orb_false_iff in H; tauto. Qed.

Lemma contains_startswith (w s : string) : startswith s w = true -> contains w s = true.
Proof. intros H. destruct s; cbn [contains]; by rewrite H. Qed.

Lemma contains_middle (w x y : string) : contains w (x +:+ w +:+ y) = true.
Proof.
  induction x as [| a x IH].
  - rewrite append_nil_l. apply contains_startswith, startswith_app.
  - rewrite append_cons. cbn [contains]. rewrite IH. apply orb_true_r.
Qed.

(** ** The corner pattern *)

Lemma corner_free_tail (a : ascii) (s : string) :
  corner_free (String a s) = true -> corner_free s = true.
Proof.
  unfold corner_free. rewrite !andb_true_iff, !negb_true_iff.
  intros [[H1 H2] H3]. repeat split; eapply contains_tail; eassumption.
Qed.

Lemma corner_free_head (s : string) :
  corner_free s = true ->
  startswith s "_ff" = false /\ startswith s "_ss" = false /\ startswith s "_tt" = false.
Proof.
  unfold corner_free. rewrite !andb_true_iff, !negb_true_iff.
  intros [[H1 H2] H3]. repeat split; by apply contains_head.
Qed.

(** What the corner pattern matches at a position depends on the next three
    characters only. *)
Lemma match_at_corner (pos : nat) (s : string) :
  match_at corner_re 3 pos s =
    if startswith s "_ff" then Some (3, code_groups FF)
    else if startswith s "_ss" then Some (3, code_groups SS)
    else if startswith s "_tt" then Some (3, code_groups TT)
    else None.
Proof.
  unfold match_at, corner_re. cbn [rmatch m_rest m_pos m_caps String.length].
  replace (pos + 1 + 2 - pos) with 3 by lia.
  replace (pos + 1 + 2 - (pos + 1)) with 2 by lia.
  destruct s as [|a [|b [|c s]]]; cbn; try done;
    repeat (match goal with
            | |- context [Ascii.eqb ?x ?y] => destruct (Ascii.eqb_spec x y); subst; cbn
            end; try done);
    by rewrite startswith_nil.
Qed.

Lemma re_split_skip (r : regex) (g : nat) (a b : string) (pos : nat) :
  re_split_from r g pos (a +:+ b) (String.length a)
  = re_split_from r g (pos + String.length a) b 0.
Proof.
  revert pos. induction a as [|x a IH]; intros pos.
  - by rewrite append_nil_l, Nat.add_0_r.
  - rewrite append_cons. simpl. rewrite IH. f_equal. lia.
Qed.

Lemma re_split_corner_free (pos : nat) (s : string) :
  corner_free s = true -> re_split_from corner_re 3 pos s 0 = [Some s].
Proof.
  revert pos. induction s as [|a s IH]; intros pos Hfree; [done |].
  cbn [re_split_from]. rewrite match_at_corner.
  destruct (corner_free_head _ Hfree) as (-> & -> & ->).
  rewrite IH by eauto using corner_free_tail. done.
Qed.

Lemma re_split_token (pos : nat) (p : corner_code) (rest : string) :
  re_split_from corner_re 3 pos ("_" +:+ code_str p +:+ rest) 0
  = Some "" :: code_groups p ++ re_split_from corner_re 3 (pos + 3) rest 0.
Proof.
  destruct p; unfold code_str; rewrite !append_cons, !append_nil_l;
    cbn [re_split_from]; rewrite match_at_corner; cbn [startswith Ascii.eqb Bool.eqb];
    rewrite startswith_nil; cbn; repeat f_equal; lia.
Qed.

(** Inside a name that has no process token, in front of an underscore, the
    corner pattern finds nothing. *)
Lemma startswith_before_underscore (t u pat : string) :
  pat = "_ff" \/ pat = "_ss" \/ pat = "_tt" ->
  corner_free t = true -> t <> "" ->
  startswith (t +:+ String "_" u) pat = false.
Proof.
  intros Hpat Hfree Hne.
  assert (startswith t pat = false) as Ht.
  { destruct (corner_free_head _ Hfree) as (? & ? & ?).
    destruct Hpat as [-> | [-> | ->]]; done. }
  destruct t as [|a [|b [|c t]]]; [done | | |];
    rewrite ?append_cons, ?append_nil_l;
    destruct Hpat as [-> | [-> | ->]]; revert Ht; cbn;
    repeat (match goal with
            | |- context [Ascii.eqb ?x ?y] => destruct (Ascii.eqb_spec x y); subst; cbn
            end; try done);
    by rewrite !startswith_nil.
Qed.

Lemma re_split_cell (pos : nat) (cell : string) (p : corner_code) (rest : string) :
  corner_free cell = true ->
  re_split_from corner_re 3 pos (cell +:+ "_" +:+ code_str p +:+ rest) 0
  = Some cell :: code_groups p
      ++ re_split_from corner_re 3 (pos + String.length cell + 3) rest 0.
Proof.
  revert pos. induction cell as [|a cell IH]; intros pos Hfree.
  - rewrite append_nil_l, re_split_token. simpl. by rewrite Nat.add_0_r.
  - rewrite append_cons. cbn [re_split_from]. rewrite match_at_corner.
    rewrite <- (append_cons a cell).
    change ("_" +:+ code_str p +:+ rest) with (String "_" (code_str p +:+ rest)).
    rewrite !(startswith_before_underscore (String a cell)) by (done || tauto).
    change (String "_" (code_str p +:+ rest)) with ("_" +:+ code_str p +:+ rest).
    rewrite IH by eauto using corner_free_tail.
    simpl. repeat f_equal. lia.
Qed.

(** The split of a name with one process token. *)
Lemma re_split_single (cell : string) (p : corner_code) (tail : string) :
  corner_free cell = true -> corner_free tail = true ->
  re_split corner_re 3 (cell +:+ "_" +:+ code_str p +:+ tail)
  = Some cell :: code_groups p ++ [Some tail].
Proof.
  intros Hc Ht. unfold re_split.
  by rewrite re_split_cell, re_split_corner_free.
Qed.

(** The split of a name with the process token doubled. *)
Lemma re_split_double (cell : string) (p q : corner_code) (tail : string) :
  corner_free cell = true -> corner_free tail = true ->
  re_split corner_re 3 (cell +:+ "_" +:+ code_str p +:+ "_" +:+ code_str q +:+ tail)
  = Some cell :: code_groups p ++ Some "" :: code_groups q ++ [Some tail].
Proof.
  intros Hc Ht. unfold re_split.
  by rewrite re_split_cell, re_split_token, re_split_corner_free.
Qed.

(** ** The IO loop body on well-formed names *)

Lemma speed_of_code (p : corner_code) :
  speed_class (replace "_" "" (code_str p)) = code_speed p.
Proof. by destruct p. Qed.

(** A name with one process token passes the cross-corner gate. *)
Lemma io_fields_single (f cell : string) (p : corner_code) (tail : string) :
  contains "nointpwr" f = false ->
  replace ".lib" "" f = cell +:+ "_" +:+ code_str p +:+ tail ->
  corner_free cell = true -> corner_free tail = true ->
  io_corner_fields f = corner_of_tokens cell (code_speed p) (drop 1 (split "_" tail)).
Proof.
  intros Hn Hf Hc Ht. unfold io_corner_fields. rewrite Hn, Hf.
  rewrite re_split_single by done.
  destruct p; reflexivity.
Qed.

(** A name with two process tokens passes the gate exactly when the two
    agree. *)
Lemma io_fields_double (f cell : string) (p q : corner_code) (tail : string) :
  contains "nointpwr" f = false ->
  replace ".lib" "" f = cell +:+ "_" +:+ code_str p +:+ "_" +:+ code_str q +:+ tail ->
  corner_free cell = true -> corner_free tail = true ->
  io_corner_fields f =
    if decide (p = q)
    then corner_of_tokens cell (code_speed p) (drop 1 (split "_" tail))
    else Ok None.
Proof.
  intros Hn Hf Hc Ht. unfold io_corner_fields. rewrite Hn, Hf.
  rewrite re_split_double by done.
  destruct p, q; reflexivity.
Qed.

Lemma io_fields_process (f cell : string) (p : corner_code) (doubled : bool) (tail : string) :
  contains "nointpwr" f = false ->
  replace ".lib" "" f = cell +:+ process_text p doubled +:+ tail ->
  corner_free cell = true -> corner_free tail = true ->
  io_corner_fields f = corner_of_tokens cell (code_speed p) (drop 1 (split "_" tail)).
Proof.
  intros Hn Hf Hc Ht. destruct doubled; unfold process_text in Hf;
    rewrite !append_assoc in Hf.
  - rewrite (io_fields_double f cell p p tail) by done. by rewrite decide_True.
  - by rewrite (io_fields_single f cell p tail).
Qed.

(** A name without any process token stops the loop. *)
Lemma io_fields_no_token (f : string) :
  contains "nointpwr" f = false ->
  corner_free (replace ".lib" "" f) = true ->
  io_corner_fields f = Raise StopIteration.
Proof.
  intros Hn Hfree. unfold io_corner_fields. rewrite Hn.
  unfold re_split. rewrite re_split_corner_free by done. reflexivity.
Qed.

(** The voltage filter on the tokens. *)
Lemma corner_of_tokens_filter (cell speed : string) (temp_volt : list string) :
  3 <= length temp_volt ->
  corner_of_tokens cell speed temp_volt =
    if secondary_starts_with_1 temp_volt then Ok None
    else Ok (Some {| cf_cell_name := cell; cf_speed := speed;
                     cf_temp := parse_temp (default "" (temp_volt !! 0));
                     cf_vdd := join "." (split "v" (default "" (temp_volt !! 1))) +:+ " V" |}).
Proof.
  intros Hlen. destruct temp_volt as [|t [|v [|v2 more]]]; simpl in Hlen; try lia.
  unfold corner_of_tokens, secondary_starts_with_1. cbn -[parse_temp join split startswith].
  destruct (startswith v2 "1"); [done |].
  cbn -[parse_temp join split startswith].
  by destruct (bool_decide _ && _).
Qed.

Lemma corner_of_tokens_short (cell speed : string) (temp_volt : list string) :
  length temp_volt < 3 -> corner_of_tokens cell speed temp_volt = Raise IndexError.
Proof.
  intros Hlen. destruct temp_volt as [|t [|v [|v2 more]]]; simpl in Hlen; try lia; done.
Qed.

Lemma io_corner_process (SKYWATER_LIBS library f cell : string) (p : corner_code)
    (doubled : bool) (tail : string) :
  contains "nointpwr" f = false ->
  replace ".lib" "" f = cell +:+ process_text p doubled +:+ tail ->
  corner_free cell = true -> corner_free tail = true ->
  3 <= length (drop 1 (split "_" tail)) ->
  io_corner SKYWATER_LIBS library f =
    if secondary_starts_with_1 (drop 1 (split "_" tail)) then Ok None
    else Ok (Some (io_library SKYWATER_LIBS library f
           {| cf_cell_name := cell; cf_speed := code_speed p;
              cf_temp := parse_temp (default "" (drop 1 (split "_" tail) !! 0));
              cf_vdd := join "." (split "v" (default "" (drop 1 (split "_" tail) !! 1))) +:+ " V" |})).
Proof.
  intros Hn Hf Hc Ht Hlen. unfold io_corner.
  rewrite (io_fields_process f cell p doubled tail) by done.
  rewrite corner_of_tokens_filter by done.
  by destruct (secondary_starts_with_1 _).
Qed.

(** ** C1: secondary-voltage filtering *)

Lemma io_corner_nointpwr (SKYWATER_LIBS library f : string) :
  contains "nointpwr" f = true -> io_corner SKYWATER_LIBS library f = Ok None.
Proof. intros H. unfold io_corner, io_corner_fields. by rewrite H. Qed.

(** C1 (as amended). For every IO corner file name made of a cell name, the
    process token (once, or twice with the same code) and at least three
    temperature and voltage tokens, the loop body skips the file if and only
    if the name holds [nointpwr] or a secondary voltage token (the third
    token, or the fourth when there are exactly four) starts with [1]; a
    name without [nointpwr] whose secondary tokens do not start with [1] is
    kept and yields a library entry for that file. *)
Theorem C1_secondary_voltage_filter (SKYWATER_LIBS library f cell : string)
    (p : corner_code) (doubled : bool) (tail : string) :
  replace ".lib" "" f = cell +:+ process_text p doubled +:+ tail ->
  corner_free cell = true -> corner_free tail = true ->
  3 <= length (drop 1 (split "_" tail)) ->
  (io_corner SKYWATER_LIBS library f = Ok None
     <-> contains "nointpwr" f = true
         \/ secondary_starts_with_1 (drop 1 (split "_" tail)) = true)
  /\ (contains "nointpwr" f = false ->
      secondary_starts_with_1 (drop 1 (split "_" tail)) = false ->
      exists lib, io_corner SKYWATER_LIBS library f = Ok (Some lib)
        /\ nldm_liberty_file lib = Some (path_join SKYWATER_LIBS ["lib"; f])
        /\ provides lib = [ {| lib_type := cell; vt := Some "RVT" |} ]).
Proof.
  intros Hf Hc Ht Hlen.
  destruct (contains "nointpwr" f) eqn:Hn.
  { rewrite io_corner_nointpwr by done. split; [| done]. split; [by left | done]. }
  rewrite (io_corner_process _ _ f cell p doubled tail) by done.
  destruct (secondary_starts_with_1 _); split; try done.
  - split; [by right | done].
  - split; [done | by intros [? | ?]].
  - intros _ _. eexists. split; [done |].
    unfold io_library. cbn [cf_cell_name].
    repeat case_match; simplify_eq; done.
Qed.

Lemma C1_secondary_voltage_filter_witness :
  let SKYWATER_LIBS := "$SKY130A/libs.ref/sky130_fd_io" in
  let f := "sky130_fd_io__top_gpiov2_tt_tt_025C_1v80_3v30.lib" in
  (io_corner SKYWATER_LIBS "sky130_fd_io" f = Ok None
     <-> contains "nointpwr" f = true
         \/ secondary_starts_with_1 ["025C"; "1v80"; "3v30"] = true)
  /\ (contains "nointpwr" f = false ->
      secondary_starts_with_1 ["025C"; "1v80"; "3v30"] = false ->
      exists lib, io_corner SKYWATER_LIBS "sky130_fd_io" f = Ok (Some lib)
        /\ nldm_liberty_file lib = Some (path_join SKYWATER_LIBS ["lib"; f])
        /\ provides lib = [ {| lib_type := "sky130_fd_io__top_gpiov2"; vt := Some "RVT" |} ]).
Proof.
  apply (C1_secondary_voltage_filter "$SKY130A/libs.ref/sky130_fd_io" "sky130_fd_io"
           "sky130_fd_io__top_gpiov2_tt_tt_025C_1v80_3v30.lib"
           "sky130_fd_io__top_gpiov2" TT true "_025C_1v80_3v30");
    vm_compute; (reflexivity || lia).
Defined.

(** C1 as stated fails: a name whose secondary token [3v30] does not start
    with [1] is kept, and a name whose secondary token [1v65] starts with
    [1] is skipped. *)
Lemma C1_counterexample :
  drop 1 (split "_" "_025C_1v80_3v30") !! 2 = Some "3v30"
  /\ startswith "3v30" "1" = false
  /\ io_corner "$SKY130A/libs.ref/sky130_fd_io" "sky130_fd_io"
       "sky130_fd_io__top_gpiov2_tt_tt_025C_1v80_3v30.lib" <> Ok None
  /\ drop 1 (split "_" "_n40C_1v95_1v65") !! 2 = Some "1v65"
  /\ startswith "1v65" "1" = true
  /\ io_corner "$SKY130A/libs.ref/sky130_fd_io" "sky130_fd_io"
       "sky130_fd_io__top_gpiov2_ff_ff_n40C_1v95_1v65.lib" = Ok None.
Proof. repeat split; try reflexivity. vm_compute. discriminate. Qed.

(** ** C6: cross-corner filtering *)

Lemma io_corner_double (SKYWATER_LIBS library f cell : string) (p q : corner_code)
    (tail : string) :
  contains "nointpwr" f = false ->
  replace ".lib" "" f = cell +:+ "_" +:+ code_str p +:+ "_" +:+ code_str q +:+ tail ->
  corner_free cell = true -> corner_free tail = true ->
  io_corner SKYWATER_LIBS library f =
    if decide (p = q)
    then f' ← corner_of_tokens cell (code_speed p) (drop 1 (split "_" tail));
         Ok (io_library SKYWATER_LIBS library f <$> (f' : option CornerFields))
    else Ok None.
Proof.
  intros Hn Hf Hc Ht. unfold io_corner.
  rewrite (io_fields_double f cell p q tail) by done.
  by destruct (decide (p = q)).
Qed.

(** C6 (as amended). For every IO corner file name in which the process
    token appears twice, a name whose two tokens differ is skipped without a
    record; a record is produced if and only if the name does not hold
    [nointpwr], the two tokens are the same, the name carries at least three
    temperature and voltage tokens, and no secondary voltage token starts
    with [1]. *)
Theorem C6_cross_corner_filter (SKYWATER_LIBS library f cell : string) (p q : corner_code)
    (tail : string) :
  replace ".lib" "" f = cell +:+ "_" +:+ code_str p +:+ "_" +:+ code_str q +:+ tail ->
  corner_free cell = true -> corner_free tail = true ->
  (p <> q -> io_corner SKYWATER_LIBS library f = Ok None)
  /\ ((exists lib, io_corner SKYWATER_LIBS library f = Ok (Some lib))
      <-> contains "nointpwr" f = false
          /\ p = q
          /\ 3 <= length (drop 1 (split "_" tail))
          /\ secondary_starts_with_1 (drop 1 (split "_" tail)) = false).
Proof.
  intros Hf Hc Ht.
  destruct (contains "nointpwr" f) eqn:Hn.
  { rewrite io_corner_nointpwr by done. split; [done |].
    split; [intros [lib ?]; done | intros (? & _); done]. }
  rewrite (io_corner_double _ _ f cell p q tail) by done.
  destruct (decide (p = q)) as [-> | Hne].
  - split; [done |].
    destruct (decide (3 <= length (drop 1 (split "_" tail)))) as [Hlen | Hlen].
    + rewrite corner_of_tokens_filter by done.
      destruct (secondary_starts_with_1 _); cbn.
      * split; [intros [lib ?]; done | intros (_ & _ & _ & ?); done].
      * split; [done | intros _; by eexists].
    + rewrite corner_of_tokens_short by lia. cbn.
      split; [intros [lib ?]; done | intros (_ & _ & ? & _); lia].
  - split; [done |]. split; [intros [lib ?]; done | intros (_ & ? & _); done].
Qed.

Lemma C6_cross_corner_filter_witness :
  (FF <> FF ->
   io_corner "$SKY130A/libs.ref/sky130_fd_io" "sky130_fd_io" "cellname_ff_ff_n40C_1v95_5v50.lib"
   = Ok None)
  /\ ((exists lib,
         io_corner "$SKY130A/libs.ref/sky130_fd_io" "sky130_fd_io"
           "cellname_ff_ff_n40C_1v95_5v50.lib" = Ok (Some lib))
      <-> contains "nointpwr" "cellname_ff_ff_n40C_1v95_5v50.lib" = false
          /\ FF = FF
          /\ 3 <= length (drop 1 (split "_" "_n40C_1v95_5v50"))
          /\ secondary_starts_with_1 (drop 1 (split "_" "_n40C_1v95_5v50")) = false).
Proof.
  apply (C6_cross_corner_filter "$SKY130A/libs.ref/sky130_fd_io" "sky130_fd_io"
           "cellname_ff_ff_n40C_1v95_5v50.lib" "cellname" FF FF "_n40C_1v95_5v50");
    vm_compute; reflexivity.
Defined.

(** C6 as stated fails at its own example: in [cellname_ff_ff_n40C_1v95] both
    tokens are the same, yet no record is produced (the third token the
    voltage filter indexes is missing); and with a secondary token that
    starts with [1] a name with two equal tokens is skipped. *)
Lemma C6_counterexample :
  replace ".lib" "" "cellname_ff_ff_n40C_1v95"
    = "cellname" +:+ "_" +:+ code_str FF +:+ "_" +:+ code_str FF +:+ "_n40C_1v95"
  /\ io_corner "$SKY130A/libs.ref/sky130_fd_io" "sky130_fd_io" "cellname_ff_ff_n40C_1v95"
     = Raise IndexError
  /\ io_corner "$SKY130A/libs.ref/sky130_fd_io" "sky130_fd_io" "cellname_ff_ff_n40C_1v95.lib"
     = Raise IndexError
  /\ io_corner "$SKY130A/libs.ref/sky130_fd_io" "sky130_fd_io" "cellname_ff_ff_n40C_1v95_1v65.lib"
     = Ok None.
Proof. repeat split; reflexivity. Qed.

(** ** C4: the speed-class mapping *)

Lemma speed_class_other (c : string) :
  c <> "ff" -> c <> "tt" -> c <> "ss" -> speed_class c = c.
Proof.
  intros H1 H2 H3. unfold speed_class.
  rewrite (bool_decide_eq_false_2 _ H1). rewrite (bool_decide_eq_false_2 _ H2).
  by rewrite (bool_decide_eq_false_2 _ H3).
Qed.

Lemma hd_corner_speed (SKYWATER_LIBS library : string) (lib_corner_files : list string)
    (f : string) (l : Library) :
  hd_corner SKYWATER_LIBS library lib_corner_files f = Ok (Some l) ->
  exists c, hd_code f = Some c /\ corner_speeds l = Some (speed_class c, speed_class c).
Proof.
  unfold hd_corner, hd_code, py_index.
  destruct (negb _); [done |]. destruct (contains "ccsnoise" f); [done |].
  destruct (split "__" (replace ".lib" "" f) !! 1) as [cornername|]; [| done].
  cbn -[split replace speed_class parse_temp path_join].
  destruct (split "_" cornername) as [|c rest]; [done |].
  cbn -[split replace speed_class parse_temp path_join].
  destruct (rest !! 0) as [temp|]; [| done].
  cbn -[split replace speed_class parse_temp path_join].
  destruct (rest !! 1) as [vdd|]; [| done].
  cbn -[split replace speed_class parse_temp path_join].
  destruct (split "v" vdd !! 0); [| done].
  cbn -[split replace speed_class parse_temp path_join].
  destruct (split "v" vdd !! 1); [| done].
  cbn -[split replace speed_class parse_temp path_join].
  intros [= <-]. by exists c.
Qed.

Lemma scl_hardcoded_speed (c : string) : (scl_hardcoded c).1.1 = speed_class c.
Proof.
  unfold scl_hardcoded, speed_class.
  destruct (decide (c = "ff")) as [-> | H1]; [done |].
  rewrite (bool_decide_eq_false_2 _ H1).
  destruct (decide (c = "tt")) as [-> | H2]; [done |].
  rewrite (bool_decide_eq_false_2 _ H2).
  destruct (decide (c = "ss")) as [-> | H3]; [done |].
  by rewrite (bool_decide_eq_false_2 _ H3).
Qed.

Lemma scl_corner_speed (SKY130_CDS SKY130_CDS_LIB library : string)
    (lib_corner_files : list string) (f : string) (l : Library) :
  scl_corner SKY130_CDS SKY130_CDS_LIB library lib_corner_files f = Ok (Some l) ->
  exists c, scl_code f = Some c /\ corner_speeds l = Some (speed_class c, speed_class c).
Proof.
  unfold scl_corner, scl_code, py_index.
  destruct (negb _); [done |]. destruct (contains "ccsnoise" f); [done |].
  destruct (split "_" _) as [|c rest]; [done |].
  cbn -[split replace speed_class scl_hardcoded path_join].
  pose proof (scl_hardcoded_speed c) as Hs.
  destruct (scl_hardcoded c) as [[speed vdd] temp]. cbn in Hs. subst speed.
  intros [= <-]. by exists c.
Qed.

(** C4 (as amended). The speed class is [ff→fast], [tt→typical], [ss→slow]
    in all three loops. In the IO loop a name that holds [nointpwr] is
    skipped whatever else it holds; of the other names, one made of a cell
    name, the process token (once, or twice with the same code) and a tail
    gets the class of its process token when it yields a record, and one
    without any process token stops the loop with [StopIteration]. In the
    two standard-cell loops the class is [speed_class] of the first corner
    part, which maps the three codes and leaves every other code as it is:
    such a code becomes the speed class of the record. *)
Theorem C4_speed_class_mapping :
  (forall p, speed_class (code_str p) = code_speed p)
  /\ (forall c, c <> "ff" -> c <> "tt" -> c <> "ss" -> speed_class c = c)
  /\ (forall SKYWATER_LIBS library f,
        contains "nointpwr" f = true -> io_corner SKYWATER_LIBS library f = Ok None)
  /\ (forall SKYWATER_LIBS library f cell p doubled tail lib,
        replace ".lib" "" f = cell +:+ process_text p doubled +:+ tail ->
        corner_free cell = true -> corner_free tail = true ->
        io_corner SKYWATER_LIBS library f = Ok (Some lib) ->
        corner_speeds lib = Some (code_speed p, code_speed p))
  /\ (forall SKYWATER_LIBS library f,
        contains "nointpwr" f = false ->
        corner_free (replace ".lib" "" f) = true ->
        io_corner SKYWATER_LIBS library f = Raise StopIteration)
  /\ (forall SKYWATER_LIBS library lib_corner_files f lib,
        hd_corner SKYWATER_LIBS library lib_corner_files f = Ok (Some lib) ->
        exists c, hd_code f = Some c
          /\ corner_speeds lib = Some (speed_class c, speed_class c))
  /\ (forall SKY130_CDS SKY130_CDS_LIB library lib_corner_files f lib,
        scl_corner SKY130_CDS SKY130_CDS_LIB library lib_corner_files f = Ok (Some lib) ->
        exists c, scl_code f = Some c
          /\ corner_speeds lib = Some (speed_class c, speed_class c)).
Proof.
  split; [by intros []|]. split; [apply speed_class_other |].
  split; [apply io_corner_nointpwr |].
  split; [| split; [| split; [apply hd_corner_speed | apply scl_corner_speed]]].
  - intros SK library f cell p doubled tail lib Hf Hc Ht.
    destruct (contains "nointpwr" f) eqn:Hn.
    { by rewrite io_corner_nointpwr. }
    unfold io_corner. rewrite (io_fields_process f cell p doubled tail) by done.
    unfold corner_of_tokens, py_index.
    repeat (case_match; cbn -[parse_temp join split startswith]; try done).
    intros [= <-]. unfold corner_speeds, io_library. cbn [cf_cell_name].
    destruct (bool_decide (cell = _)); [| destruct (contains _ cell)]; reflexivity.
  - intros SK library f Hn Hfree. unfold io_corner.
    by rewrite io_fields_no_token.
Qed.

Lemma C4_speed_class_mapping_witness :
  corner_speeds
    (io_library "$SKY130A/libs.ref/sky130_fd_io" "sky130_fd_io"
       "sky130_fd_io__top_gpiov2_ss_ss_100C_1v60_3v00.lib"
       {| cf_cell_name := "sky130_fd_io__top_gpiov2"; cf_speed := "slow";
          cf_temp := "100 C"; cf_vdd := "1.60 V" |})
  = Some ("slow", "slow")
  /\ (exists c, hd_code "sky130_fd_sc_hd__tt_025C_1v80.lib" = Some c
        /\ corner_speeds
             (default mkLibrary
                (match hd_corner "$SKY130A/libs.ref/sky130_fd_sc_hd" "sky130_fd_sc_hd" []
                         "sky130_fd_sc_hd__tt_025C_1v80.lib" with
                 | Ok o => o
                 | Raise _ => None
                 end))
           = Some (speed_class c, speed_class c)).
Proof.
  destruct C4_speed_class_mapping as (_ & _ & _ & Hio & _ & Hhd & _).
  split.
  - apply (Hio "$SKY130A/libs.ref/sky130_fd_io" "sky130_fd_io"
             "sky130_fd_io__top_gpiov2_ss_ss_100C_1v60_3v00.lib"
             "sky130_fd_io__top_gpiov2" SS true "_100C_1v60_3v00"); reflexivity.
  - apply (Hhd "$SKY130A/libs.ref/sky130_fd_sc_hd" "sky130_fd_sc_hd" []
             "sky130_fd_sc_hd__tt_025C_1v80.lib"). reflexivity.
Defined.

(** C4 as stated fails in the standard-cell loop: the code [sf] is none of
    the three, yet the file is neither skipped nor fatal, and [sf] itself
    becomes the speed class of the record. *)
Lemma C4_counterexample :
  hd_code "sky130_fd_sc_hd__sf_025C_1v80.lib" = Some "sf"
  /\ exists lib,
       hd_corner "$SKY130A/libs.ref/sky130_fd_sc_hd" "sky130_fd_sc_hd" []
         "sky130_fd_sc_hd__sf_025C_1v80.lib" = Ok (Some lib)
       /\ corner_speeds lib = Some ("sf", "sf").
Proof. split; [reflexivity |]. eexists. split; reflexivity. Qed.

(** ** C10: hooks of an unknown tool *)

Lemma dict_get_calibre_pegasus (calibre_hooks pegasus_hooks : list HammerToolHookAction)
    (tool_name : string) :
  tool_name <> "calibre" -> tool_name <> "pegasus" ->
  dict_get (<["calibre" := calibre_hooks]> (<["pegasus" := pegasus_hooks]> ∅)) tool_name = [].
Proof.
  intros H1 H2. unfold dict_get.
  rewrite lookup_insert_ne by done. rewrite lookup_insert_ne by done.
  by rewrite lookup_empty.
Qed.

(** C10 (as amended). For a tool name that is not a key of the dictionary
    a hook query builds, the query returns the empty list:
    [get_tech_par_hooks] for every name but [innovus]; [get_tech_drc_hooks]
    and [get_tech_lvs_hooks] for every name but [calibre] and [pegasus], in
    a technology object whose database holds the black-box toggle the query
    reads and, for LVS, whose [use_sram22] attribute is set. The state is
    left as it was. *)
Theorem C10_hooks_unknown_tool (st : state) (tool_name : string) :
  (tool_name <> "innovus" -> get_tech_par_hooks tool_name st = (st, Ok []))
  /\ (tool_name <> "calibre" -> tool_name <> "pegasus" ->
      is_Some (db st !! "technology.sky130.drc_blackbox_srams") ->
      get_tech_drc_hooks tool_name st = (st, Ok []))
  /\ (tool_name <> "calibre" -> tool_name <> "pegasus" ->
      is_Some (db st !! "technology.sky130.lvs_blackbox_srams") ->
      is_Some (use_sram22 st) ->
      get_tech_lvs_hooks tool_name st = (st, Ok [])).
Proof.
  split; [| split].
  - intros Hne. unfold get_tech_par_hooks, dict_get.
    rewrite lookup_singleton_ne by done. reflexivity.
  - intros H1 H2 [v Hv]. unfold get_tech_drc_hooks, mbind, tech_bind, get_setting.
    rewrite Hv. destruct (truthy v); cbn; (rewrite dict_get_calibre_pegasus by done);
      reflexivity.
  - intros H1 H2 [v Hv] [b Hb].
    unfold get_tech_lvs_hooks, mbind, tech_bind, get_use_sram22, get_setting.
    rewrite Hb, Hv. destruct b, (truthy v); cbn; (rewrite dict_get_calibre_pegasus by done);
      reflexivity.
Qed.

Lemma C10_hooks_unknown_tool_witness :
  get_tech_par_hooks "openroad" hooks_state = (hooks_state, Ok [])
  /\ get_tech_drc_hooks "magic" hooks_state = (hooks_state, Ok [])
  /\ get_tech_lvs_hooks "netgen" hooks_state = (hooks_state, Ok []).
Proof.
  split; [| split].
  - destruct (C10_hooks_unknown_tool hooks_state "openroad") as (H & _ & _).
    apply H. intros E; discriminate E.
  - destruct (C10_hooks_unknown_tool hooks_state "magic") as (_ & H & _).
    apply H; [intros E; discriminate E | intros E; discriminate E |].
    vm_compute. eexists. reflexivity.
  - destruct (C10_hooks_unknown_tool hooks_state "netgen") as (_ & _ & H).
    apply H; [intros E; discriminate E | intros E; discriminate E | |].
    + vm_compute. eexists. reflexivity.
    + vm_compute. eexists. reflexivity.
Defined.

(** C10 as stated fails for the LVS query on a technology object on which
    [post_install_script] has not run: [use_sram22] is not set, and the
    query raises [AttributeError] before it looks at the tool name, also for
    a name that is no key. *)
Lemma C10_counterexample :
  "netgen" <> "calibre" /\ "netgen" <> "pegasus"
  /\ use_sram22 patch_state = None
  /\ get_tech_lvs_hooks "netgen" patch_state = (patch_state, Raise AttributeError).
Proof. repeat split; try reflexivity; intros E; discriminate E. Qed.

(** ** Running a technology method step by step *)

Lemma run_bind {A B} (m : tech A) (f : A -> tech B) (st : state) :
  (m ≫= f) st =
    match m st with
    | (st', Ok a) => f a st'
    | (st', Raise e) => (st', Raise e)
    end.
Proof. reflexivity. Qed.

Lemma run_get_setting {B} (key : string) (f : setting -> tech B) (st : state) :
  (get_setting key ≫= f) st =
    match db st !! key with
    | Some v => f v st
    | None => (st, Raise (KeyError key))
    end.
Proof. rewrite run_bind. unfold get_setting. by destruct (db st !! key). Qed.

Lemma run_lift {A B} (r : result A) (f : A -> tech B) (st : state) :
  (lift r ≫= f) st =
    match r with
    | Ok a => f a st
    | Raise e => (st, Raise e)
    end.
Proof. rewrite run_bind. unfold lift. by destruct r. Qed.

Lemma run_ret {A B} (a : A) (f : A -> tech B) (st : state) : (mret a ≫= f) st = f a st.
Proof. reflexivity. Qed.

Lemma run_raise {A B} (e : exn) (f : A -> tech B) (st : state) :
  (raise e ≫= f) st = (st, Raise e).
Proof. reflexivity. Qed.

Lemma run_listdir {B} (path : string) (f : list string -> tech B) (st : state) :
  (listdir path ≫= f) st =
    match dirs st !! path with
    | Some l => f l st
    | None => (st, Raise (FileNotFoundError path))
    end.
Proof. rewrite run_bind. unfold listdir. by destruct (dirs st !! path). Qed.

Lemma run_get_metals {B} (path : string) (f : list Metal -> tech B) (st : state) :
  (get_metals path ≫= f) st =
    match tlefs st !! path with
    | Some l => f l st
    | None => (st, Raise (FileNotFoundError path))
    end.
Proof. rewrite run_bind. unfold get_metals. by destruct (tlefs st !! path). Qed.

Lemma run_set_setting {B} (key : string) (v : setting) (f : unit -> tech B) (st : state) :
  (set_setting key v ≫= f) st = f tt (with_db (insert key v) st).
Proof. reflexivity. Qed.

Ltac run_step H :=
  first
    [ rewrite run_get_setting in H
    | rewrite run_lift in H
    | rewrite run_listdir in H
    | rewrite run_get_metals in H
    | rewrite run_set_setting in H
    | rewrite run_ret in H
    | rewrite run_raise in H ];
  cbv beta in H.

Ltac run_case H :=
  match type of H with
  | context [match db ?st !! ?k with _ => _ end] => destruct (db st !! k) eqn:?
  | context [match dirs ?st !! ?k with _ => _ end] => destruct (dirs st !! k) eqn:?
  | context [match tlefs ?st !! ?k with _ => _ end] => destruct (tlefs st !! k) eqn:?
  | context [match as_str ?v with _ => _ end] => destruct (as_str v) eqn:?
  | context [match corner_loop ?b ?l with _ => _ end] => destruct (corner_loop b l) eqn:?
  | context [if bool_decide ?P then _ else _] => destruct (bool_decide_reflect P)
  end.

Ltac run_tech H := repeat (first [run_step H | run_case H]).

(** What [gen_config] does to the technology object: the settings database
    is left alone or gets the one write, [config] may be set, nothing else
    changes. *)
Lemma gen_config_run (st st' : state) (r : result unit) :
  gen_config st = (st', r) ->
  (db st' = db st \/
   (db st !! "technology.sky130.stdcell_library" = Some (SStr "sky130_scl")
    /\ db st' = <[clock_gating_key := SStr ""]> (db st)))
  /\ (r = Ok tt ->
      db st !! "technology.sky130.stdcell_library" = Some (SStr "sky130_scl") ->
      db st' = <[clock_gating_key := SStr ""]> (db st))
  /\ (db st !! "technology.sky130.stdcell_library" = Some (SStr "sky130_fd_sc_hd") ->
      db st' = db st)
  /\ files st' = files st /\ dirs st' = dirs st /\ tlefs st' = tlefs st
  /\ library_name st' = library_name st /\ use_sram22 st' = use_sram22 st
  /\ cache_dir st' = cache_dir st.
Proof.
  intros Hrun. unfold gen_config in Hrun. cbv zeta in Hrun.
  run_tech Hrun.
  all: unfold set_config, raise in Hrun; injection Hrun as <- <-.
  all: cbn [db files dirs tlefs library_name use_sram22 cache_dir with_db with_config].
  all: subst.
  all: (split; [| split; [| split; [| by repeat split]]]).
  all: try (by left).
  all: try (intros; congruence).
  all: try (right; by split).
  all: intros; reflexivity.
Qed.

(** C9. When the configured family is [sky130_scl] and descriptor generation
    completes, it has written [synthesis.clock_gating_mode := ""] into the
    settings database; when the family is [sky130_fd_sc_hd] the database is
    left as it was. In every run all other keys keep their values, and apart
    from [config] no other part of the technology object or of the file
    system changes. *)
Theorem C9_clock_gating_write (st : state) :
  (db st !! "technology.sky130.stdcell_library" = Some (SStr "sky130_scl") ->
   (gen_config st).2 = Ok tt ->
   db (gen_config st).1 = <[clock_gating_key := SStr ""]> (db st))
  /\ (db st !! "technology.sky130.stdcell_library" = Some (SStr "sky130_fd_sc_hd") ->
      db (gen_config st).1 = db st)
  /\ (forall key, key <> clock_gating_key -> db (gen_config st).1 !! key = db st !! key)
  /\ files (gen_config st).1 = files st
  /\ dirs (gen_config st).1 = dirs st
  /\ tlefs (gen_config st).1 = tlefs st
  /\ library_name (gen_config st).1 = library_name st
  /\ use_sram22 (gen_config st).1 = use_sram22 st
  /\ cache_dir (gen_config st).1 = cache_dir st.
Proof.
  destruct (gen_config st) as [st' r] eqn:Hrun. cbn [fst snd].
  destruct (gen_config_run st st' r Hrun) as (Hdb & Hscl & Hhd & Hframe).
  split; [auto |]. split; [auto |]. split; [| done].
  intros key Hkey. destruct Hdb as [-> | [_ ->]]; [done |].
  by rewrite lookup_insert_ne.
Qed.

Lemma C9_clock_gating_write_witness :
  db (gen_config scl_state).1 = <[clock_gating_key := SStr ""]> (db scl_state)
  /\ db (gen_config hd_state).1 = db hd_state.
Proof.
  split.
  - apply (C9_clock_gating_write scl_state); vm_compute; reflexivity.
  - apply (C9_clock_gating_write hd_state); vm_compute; reflexivity.
Defined.


(** ** [str.replace] *)

Lemma startswith_length (s p : string) :
  startswith s p = true -> String.length p <= String.length s.
Proof.
  revert s. induction p as [|b p IH]; intros [|a s]; simpl; try done; try lia.
  destruct (Ascii.eqb a b); [| done]. intros H. apply IH in H. lia.
Qed.

(** Passing over [skip] characters is dropping them. *)
Lemma replace_from_skip (old new s : string) (skip : nat) :
  replace_from old new s skip = replace_from old new (sdrop skip s) 0.
Proof.
  revert skip. induction s as [|a s IH]; intros [|k]; try done.
  simpl. apply IH.
Qed.

Lemma find_from_ge (sub s : string) (i n : nat) : find_from sub s i = Some n -> i <= n.
Proof.
  revert i. induction s as [|a s IH]; intros i; cbn [find_from].
  - destruct sub; simpl; [intros [= <-]; lia | done].
  - destruct (startswith (String a s) sub); [intros [= <-]; lia |].
    intros H. apply IH in H. lia.
Qed.

Lemma find_from_shift (sub s : string) (i n : nat) :
  find_from sub s (S i) = Some (S n) -> find_from sub s i = Some n.
Proof.
  revert i. induction s as [|a s IH]; intros i; cbn [find_from].
  - destruct sub; simpl; [intros [= <-]; done | done].
  - destruct (startswith (String a s) sub); [intros [= <-]; done |]. apply IH.
Qed.

(** The first occurrence of [old] is replaced, whatever stands before and
    after it, and the text after it is treated in the same way. *)
Lemma replace_at_first (old new s : string) (n : nat) :
  old <> "" ->
  find old s = Some n ->
  replace old new s
  = stake n s +:+ new +:+ replace old new (sdrop (n + String.length old) s).
Proof.
  intros Hold. unfold find, replace.
  destruct old as [|o old]; [done |]. clear Hold.
  revert n. induction s as [|a s IH]; intros n; [done |].
  cbn [find_from replace_from].
  destruct (startswith (String a s) (String o old)) eqn:Hst.
  - intros [= <-]. rewrite replace_from_skip. simpl. by rewrite Nat.sub_0_r.
  - intros Hfind. destruct n as [|n]; [apply find_from_ge in Hfind; lia |].
    apply find_from_shift in Hfind. rewrite (IH n Hfind). reflexivity.
Qed.

(** Text without an occurrence of [old] is left as it is. *)
Lemma replace_absent (old new s : string) :
  old <> "" -> contains old s = false -> replace old new s = s.
Proof.
  intros Hold. unfold replace. destruct old as [|o old]; [done |]. clear Hold.
  induction s as [|a s IH]; [done |].
  intros Hc. cbn [replace_from]. rewrite (contains_head _ _ Hc).
  by rewrite IH by eauto using contains_tail.
Qed.

(** ** C3: device renaming in the CDL netlist *)

(** C3 (as amended). The renaming is a plain text replacement: in every line
    the first occurrence of [nfet_01v8] (in a line free of [pfet_01v8_hvt])
    and the first occurrence of [pfet_01v8_hvt] are rewritten wherever they
    stand, whether as a whole token or inside a longer identifier, and the
    text after the occurrence is rewritten in the same way. *)
Theorem C3_cdl_substring_rename (pmos nmos line : string) (n : nat) :
  (contains "pfet_01v8_hvt" line = false ->
   find "nfet_01v8" line = Some n ->
   cdl_line pmos nmos line
   = stake n line +:+ nmos +:+ replace "nfet_01v8" nmos (sdrop (n + 9) line))
  /\ (find "pfet_01v8_hvt" line = Some n ->
      cdl_line pmos nmos line
      = replace "nfet_01v8" nmos
          (stake n line +:+ pmos +:+ replace "pfet_01v8_hvt" pmos (sdrop (n + 13) line))).
Proof.
  unfold cdl_line. split.
  - intros Hp Hn. rewrite (replace_absent "pfet_01v8_hvt") by done.
    by rewrite (replace_at_first "nfet_01v8" nmos line n).
  - intros Hp. by rewrite (replace_at_first "pfet_01v8_hvt" pmos line n).
Qed.

Lemma C3_cdl_substring_rename_witness :
  cdl_line "phighvt" "nshort" "XM0 Y A VGND VNB nfet_01v8_lvt w=650000u l=150000u"
  = "XM0 Y A VGND VNB " +:+ "nshort" +:+ replace "nfet_01v8" "nshort" "_lvt w=650000u l=150000u".
Proof.
  destruct (C3_cdl_substring_rename "phighvt" "nshort"
              "XM0 Y A VGND VNB nfet_01v8_lvt w=650000u l=150000u" 17) as [H _].
  apply H; reflexivity.
Defined.

(** C3 as stated fails: [nfet_01v8] inside the longer device name
    [nfet_01v8_lvt] is rewritten (Calibre names), and so is the one inside an
    already prefixed [sky130_fd_pr__nfet_01v8] (Netgen names). *)
Lemma C3_counterexample :
  cdl_line "phighvt" "nshort" "XM0 Y A VGND VNB nfet_01v8_lvt w=650000u l=150000u"
  = "XM0 Y A VGND VNB nshort_lvt w=650000u l=150000u"
  /\ cdl_line "sky130_fd_pr__pfet_01v8_hvt" "sky130_fd_pr__nfet_01v8"
       "XM1 Y A VGND VNB sky130_fd_pr__nfet_01v8 w=650000u l=150000u"
     = "XM1 Y A VGND VNB sky130_fd_pr__sky130_fd_pr__nfet_01v8 w=650000u l=150000u".
Proof. split; reflexivity. Qed.

(** ** C2: the specify excision when the malformed expression is absent *)

Lemma range_where_none (P : string -> bool) (sl : list string) (lo hi : nat) :
  P "" = false ->
  (forall line, line ∈ sl -> P line = false) ->
  range_where P sl lo hi = [].
Proof.
  intros Hempty Hall. unfold range_where.
  destruct (filter _ _) as [|idx r] eqn:Hf; [done |].
  assert (idx ∈ filter (fun idx => P (default "" (sl !! idx)) = true) (seq lo (hi - lo))) as Hin
    by (rewrite Hf; left).
  apply list_elem_of_filter in Hin as [HP _].
  destruct (sl !! idx) as [line|] eqn:Hl; simpl in HP.
  - rewrite (Hall line) in HP; [done |]. by eapply list_elem_of_lookup_2.
  - congruence.
Qed.

(** C2 (what the code does; the claim asks for a skipped excision instead).
    For every file that has the sentinel directive and no line with the
    malformed timing-arc expression, [hack_specify] raises [IndexError]: the
    first-match indexing of the empty search result fails before the
    comparison that would skip the excision is reached. *)
Theorem C2_absent_expression_raises (sl : list string) :
  enum_where (contains "`ifndef SKY130_FD_SC_HD__LPFLOW_BLEEDER_1_TIMING_V") sl <> [] ->
  (forall line, line ∈ sl -> contains broken_substr line = false) ->
  hack_specify sl = Raise IndexError.
Proof.
  intros Hsent Habsent. unfold hack_specify.
  destruct (enum_where _ sl) as [|start_idx rest]; [done |].
  cbn [py_index lookup list_lookup mbind result_bind].
  by rewrite (range_where_none (contains broken_substr)).
Qed.

Lemma C2_absent_expression_raises_witness :
  hack_specify (readlines verilog_fixed) = Raise IndexError.
Proof.
  apply (C2_absent_expression_raises (readlines verilog_fixed)).
  - vm_compute. discriminate.
  - intros line Hin. vm_compute in Hin.
    repeat (apply elem_of_cons in Hin as [-> | Hin]; [reflexivity |]).
    by apply elem_of_nil in Hin.
Defined.

(** The whole method on that file: the first pass has written the
    destination, then the method stops with [IndexError] and neither the
    harmonisation nor [primitives.v] is reached. *)
Lemma C2_setup_verilog_fixed_source :
  (setup_verilog verilog_fixed_state).2 = Raise IndexError
  /\ files (setup_verilog verilog_fixed_state).1
       !! "/build/tech-sky130-cache/sky130_fd_sc_hd.v" = Some verilog_fixed
  /\ files (setup_verilog verilog_fixed_state).1 !! "/build/tech-sky130-cache/primitives.v" = None.
Proof. split; [| split]; vm_compute; reflexivity. Qed.

(** ** The matcher against the declarative reading of a pattern *)

Lemma star_greedy_sound {R} (c : cclass) (k : nat -> string -> option R)
    (pos : nat) (rest : string) (x : R) :
  star_greedy c k pos rest = Some x ->
  exists n, n <= String.length rest /\ all_class c (stake n rest) = true
    /\ k (pos + n) (sdrop n rest) = Some x.
Proof.
  revert pos. induction rest as [|a rest IH]; intros pos; cbn [star_greedy].
  - intros H. exists 0. rewrite Nat.add_0_r. repeat split; [simpl; lia | done].
  - destruct (cmatch c a) eqn:Hc.
    + destruct (star_greedy c k (S pos) rest) as [y|] eqn:Hs.
      * intros [= ->]. destruct (IH _ Hs) as (n & Hn & Hall & Hk).
        exists (S n). simpl. rewrite Hc, Hall. repeat split; [lia |].
        by rewrite <- Nat.add_succ_comm.
      * intros H. exists 0. rewrite Nat.add_0_r. repeat split; [simpl; lia | done].
    + intros H. exists 0. rewrite Nat.add_0_r. repeat split; [simpl; lia | done].
Qed.

Lemma star_greedy_complete {R} (c : cclass) (k : nat -> string -> option R)
    (pos : nat) (rest : string) (n : nat) :
  n <= String.length rest ->
  all_class c (stake n rest) = true ->
  is_Some (k (pos + n) (sdrop n rest)) ->
  is_Some (star_greedy c k pos rest).
Proof.
  revert pos n. induction rest as [|a rest IH]; intros pos n Hn Hall Hk; cbn [star_greedy].
  - simpl in Hn. assert (n = 0) as -> by lia. by rewrite Nat.add_0_r in Hk.
  - destruct n as [|n].
    + rewrite Nat.add_0_r in Hk. simpl in Hk.
      destruct (cmatch c a); [| done]. by destruct (star_greedy c k (S pos) rest).
    + simpl in Hn, Hall, Hk. apply andb_true_iff in Hall as [-> Hall].
      rewrite <- Nat.add_succ_comm in Hk.
      destruct (IH (S pos) n ltac:(lia) Hall Hk) as [y ->]. done.
Qed.

Lemma star_lazy_sound {R} (c : cclass) (k : nat -> string -> option R)
    (pos : nat) (rest : string) (x : R) :
  star_lazy c k pos rest = Some x ->
  exists n, n <= String.length rest /\ all_class c (stake n rest) = true
    /\ k (pos + n) (sdrop n rest) = Some x.
Proof.
  revert pos. induction rest as [|a rest IH]; intros pos; cbn [star_lazy].
  - destruct (k pos "") as [y|] eqn:Hk; [| done].
    intros [= ->]. exists 0. rewrite Nat.add_0_r. repeat split; [simpl; lia | done].
  - destruct (k pos (String a rest)) as [y|] eqn:Hk.
    + intros [= ->]. exists 0. rewrite Nat.add_0_r. repeat split; [simpl; lia | done].
    + destruct (cmatch c a) eqn:Hc; [| done].
      intros Hs. destruct (IH _ Hs) as (n & Hn & Hall & Hk').
      exists (S n). simpl. rewrite Hc, Hall. repeat split; [lia |].
      by rewrite <- Nat.add_succ_comm.
Qed.

Lemma star_lazy_complete {R} (c : cclass) (k : nat -> string -> option R)
    (pos : nat) (rest : string) (n : nat) :
  n <= String.length rest ->
  all_class c (stake n rest) = true ->
  is_Some (k (pos + n) (sdrop n rest)) ->
  is_Some (star_lazy c k pos rest).
Proof.
  revert pos n. induction rest as [|a rest IH]; intros pos n Hn Hall Hk; cbn [star_lazy].
  - simpl in Hn. assert (n = 0) as -> by lia. rewrite Nat.add_0_r in Hk. simpl in Hk.
    by destruct (k pos "").
  - destruct n as [|n].
    + rewrite Nat.add_0_r in Hk. simpl in Hk. by destruct (k pos (String a rest)).
    + simpl in Hn, Hall, Hk. apply andb_true_iff in Hall as [-> Hall].
      rewrite <- Nat.add_succ_comm in Hk.
      destruct (k pos (String a rest)); [done |].
      apply (IH (S pos) n); [lia | done | done].
Qed.

(** Whatever the matcher returns comes from a way to match the pattern. *)
Lemma rmatch_sound {R} (r : regex) (k : mstate -> option R) (st : mstate) (x : R) :
  rmatch r k st = Some x -> exists st', path r st st' /\ k st' = Some x.
Proof.
  revert k st. induction r as [s | | c g | r1 IH1 r2 IH2 | r1 IH1 r2 IH2 | n r IH];
    intros k st; cbn [rmatch path].
  - destruct (startswith (m_rest st) s); [| done]. intros H. eauto.
  - destruct (Nat.eqb_spec (m_pos st) 0); [| done]. intros H. eauto.
  - destruct g; intros H;
      [apply star_greedy_sound in H | apply star_lazy_sound in H];
      destruct H as (n & Hn & Hall & Hk); eauto 10.
  - intros H. apply IH1 in H as (mid & Hp1 & H). apply IH2 in H as (st' & Hp2 & H).
    eauto.
  - destruct (rmatch r1 k st) as [y|] eqn:H1.
    + intros [= ->]. apply IH1 in H1 as (st' & Hp & H). eauto.
    + intros H. apply IH2 in H as (st' & Hp & H). eauto.
  - intros H. apply IH in H as (st1 & Hp & H). eauto.
Qed.

(** If the pattern can be matched in a way the continuation accepts, the
    matcher returns a match. *)
Lemma rmatch_complete {R} (r : regex) (k : mstate -> option R) (st st' : mstate) :
  path r st st' -> is_Some (k st') -> is_Some (rmatch r k st).
Proof.
  revert k st st'. induction r as [s | | c g | r1 IH1 r2 IH2 | r1 IH1 r2 IH2 | n r IH];
    intros k st st'; cbn [rmatch path].
  - intros [-> ->] Hk. done.
  - intros [-> ->] Hk. done.
  - intros (n & Hn & Hall & ->) Hk.
    destruct g; [eapply star_greedy_complete | eapply star_lazy_complete]; eauto.
  - intros (mid & Hp1 & Hp2) Hk. eapply IH1; [done |]. eapply IH2; eauto.
  - intros [Hp | Hp] Hk.
    + destruct (IH1 k st st' Hp Hk) as [y ->]. done.
    + destruct (rmatch r1 k st); [done |]. eauto.
  - intros (st1 & Hp & ->) Hk. eapply IH; eauto.
Qed.

Lemma sdrop_sdrop (n m : nat) (s : string) : sdrop n (sdrop m s) = sdrop (m + n) s.
Proof.
  revert s. induction m as [|m IH]; intros s; [done |].
  destruct s as [|a s]; simpl; [by destruct n | apply IH].
Qed.

Lemma startswith_split (s a b : string) :
  startswith s (a +:+ b) = true ->
  startswith s a = true /\ startswith (sdrop (String.length a) s) b = true.
Proof.
  revert s. induction a as [|x a IH]; intros s.
  { rewrite append_nil_l. intros H. split; [apply startswith_nil | done]. }
  rewrite append_cons. destruct s as [|y s]; simpl; [done |].
  destruct (Ascii.eqb y x); [apply IH | done].
Qed.

Lemma startswith_nonempty (s p : string) :
  startswith s p = true -> p <> "" -> s <> "".
Proof. by destruct p, s. Qed.

(** ** A declaration line always yields the name it declares *)

(** A match of the capture pattern consumes at least the thirteen literal
    characters of [SLEEP], [B] and [delayed]. *)
Lemma capture_path_length (st st' : mstate) :
  path capture_pattern st st' -> m_pos st + 13 <= m_pos st'.
Proof.
  unfold capture_pattern. cbn [path].
  intros (st1 & (n0 & _ & _ & ->) & st2 & (st3 & Hg & ->) & n4 & _ & _ & ->).
  destruct Hg as (st4 & [_ ->] & st5 & (n2 & _ & _ & ->) & st6 & [_ ->]
                    & st7 & (n3 & _ & _ & ->) & _ & ->).
  cbn. lia.
Qed.

Lemma match_at_capture (pos : nat) (t : string) (st' : mstate) :
  path capture_pattern (MState pos t [None]) st' ->
  is_Some (match_at capture_pattern 1 pos t).
Proof.
  intros Hp. unfold match_at. cbn [replicate].
  destruct (rmatch_complete capture_pattern
              (fun st => Some (m_pos st - pos, m_caps st)) _ _ Hp) as [[len caps] Hm]; [done |].
  rewrite Hm.
  apply rmatch_sound in Hm as (st1 & Hp1 & [= <- <-]).
  apply capture_path_length in Hp1. cbn in Hp1.
  destruct (m_pos st1 - pos) eqn:E; [lia | done].
Qed.

(** The line pattern only matches at the start of the text. *)
Lemma match_at_pattern_later (pos : nat) (s : string) :
  match_at pattern 0 (S pos) s = None.
Proof. reflexivity. Qed.

Lemma search_pattern_start (s : string) :
  re_search pattern 0 s = true -> is_Some (match_at pattern 0 0 s).
Proof.
  unfold re_search. destruct s as [|a s]; cbn [search_from].
  - by destruct (match_at pattern 0 0 "").
  - destruct (match_at pattern 0 0 (String a s)); [done |].
    assert (forall pos t, search_from pattern 0 (S pos) t = false) as Hlater.
    { intros pos t. revert pos. induction t as [|b t IH]; intros pos; cbn [search_from];
        rewrite match_at_pattern_later; [done | apply IH]. }
    by rewrite Hlater.
Qed.

Ltac by_sdrop H :=
  repeat rewrite sdrop_sdrop in H; repeat rewrite sdrop_sdrop;
  match type of H with
  | context [sdrop ?a _] =>
      match goal with
      | |- context [sdrop ?b _] => replace b with a by lia
      end
  end;
  exact H.

(** Where the line pattern matches, the capture pattern matches from the
    [SLEEP] of the declaration on. *)
Lemma pattern_gives_capture (s : string) :
  is_Some (match_at pattern 0 0 s) ->
  exists p, sdrop p s <> "" /\ is_Some (match_at capture_pattern 1 p (sdrop p s)).
Proof.
  unfold match_at at 1. cbn [replicate].
  destruct (rmatch pattern _ _) as [x|] eqn:Hm; [| by intros [? ?]].
  intros _. apply rmatch_sound in Hm as (st' & Hp & _).
  unfold pattern in Hp. cbn [path] in Hp.
  destruct Hp as (st1 & [_ ->] & st2 & (n1 & _ & _ & ->) & st3 & [Hwire ->]
                    & st4 & (n2 & Hn2 & Hx & ->) & st5 & [HB ->]
                    & st6 & (n3 & Hn3 & Hy & ->) & Hdel & _).
  cbn [m_pos m_rest m_caps String.length] in *.
  change "wire SLEEP" with ("wire " +:+ "SLEEP") in Hwire.
  apply startswith_split in Hwire as [_ Hsleep]. cbn [String.length] in Hsleep.
  change "delayed;" with ("delayed" +:+ ";") in Hdel.
  apply startswith_split in Hdel as [Hdel _].
  exists (n1 + 5). split.
  { eapply startswith_nonempty; [by_sdrop Hsleep | done]. }
  eapply match_at_capture. unfold capture_pattern. cbn [path].
  eexists. split; [exists 0; repeat split; simpl; lia |].
  eexists. split.
  - eexists. split; [| reflexivity].
    eexists. split; [split; [| reflexivity] |]; cbn [m_rest m_pos m_caps sdrop].
    { by_sdrop Hsleep. }
    eexists. split; [exists n2; split; [| split; [| reflexivity]] |];
      cbn [m_rest m_pos m_caps String.length].
    { by_sdrop Hn2. }
    { by_sdrop Hx. }
    eexists. split; [split; [| reflexivity] |];
      cbn [m_rest m_pos m_caps String.length].
    { by_sdrop HB. }
    eexists. split; [exists n3; split; [| split; [| reflexivity]] |];
      cbn [m_rest m_pos m_caps String.length].
    { by_sdrop Hn3. }
    { by_sdrop Hy. }
    split; [| reflexivity]. by_sdrop Hdel.
  - exists 0. repeat split; simpl; lia.
Qed.

Lemma findall_nonempty (r : regex) (s : string) (pos p : nat) :
  sdrop p s <> "" ->
  is_Some (match_at r 1 (pos + p) (sdrop p s)) ->
  findall_from r pos s 0 <> [].
Proof.
  revert s pos. induction p as [|p IH]; intros s pos Hne Hm.
  - rewrite Nat.add_0_r in Hm. simpl in Hne, Hm. destruct s as [|a s]; [done |].
    cbn [findall_from]. destruct Hm as [[len caps] ->]. done.
  - destruct s as [|a s]; [done |]. simpl in Hne, Hm.
    cbn [findall_from]. destruct (match_at r 1 pos (String a s)) as [[len caps]|]; [done |].
    apply (IH s (S pos)); [done |]. by rewrite Nat.add_succ_comm.
Qed.

Lemma declaration_has_name (line : string) :
  is_declaration line = true ->
  py_index (re_findall capture_pattern line) 0 = Ok (declared_name line).
Proof.
  intros Hd. apply search_pattern_start in Hd.
  apply pattern_gives_capture in Hd as (p & Hne & Hm).
  pose proof (findall_nonempty capture_pattern line 0 p Hne Hm) as Hf.
  unfold declared_name, re_findall, py_index.
  by destruct (findall_from capture_pattern 0 line 0).
Qed.

(** Collecting the declarations never fails. *)
Lemma declarations_from_total (sl : list string) (i : nat) :
  declarations_from sl i = Ok (declarations sl i).
Proof.
  revert i. induction sl as [|line sl IH]; intros i; [done |].
  cbn [declarations_from declarations]. unfold is_declaration.
  destruct (re_search pattern 0 line) eqn:Hd; [| apply IH].
  rewrite declaration_has_name by done. cbn. by rewrite IH.
Qed.

(** ** The harmonisation loops against the single pass *)

Lemma fix_range_empty (c : string) (lo hi : nat) (sl : list string) :
  hi <= lo -> fix_range c lo hi sl = sl.
Proof. intros H. unfold fix_range. by replace (hi - lo) with 0 by lia. Qed.

Lemma fix_range_step (c : string) (hi : nat) (pre : list string) (line : string)
    (rest : list string) :
  length pre < hi ->
  fix_range c (length pre) hi (pre ++ line :: rest)
  = fix_range c (S (length pre)) hi (pre ++ fix_reference c line :: rest).
Proof.
  intros H. unfold fix_range.
  replace (hi - length pre) with (S (hi - S (length pre))) by lia.
  cbn [seq foldl]. rewrite list_lookup_middle by done. cbn [default].
  replace (length pre) with (length pre + 0) at 1 by lia.
  by rewrite insert_app_r.
Qed.

Lemma declarations_head_ge (sl : list string) (i j : nat) (c : string)
    (T : list (nat * string)) :
  declarations sl i = (j, c) :: T -> i <= j.
Proof.
  revert i. induction sl as [|line sl IH]; intros i; cbn [declarations]; [done |].
  destruct (is_declaration line).
  - intros [= <- _ _]. lia.
  - intros H. apply IH in H. lia.
Qed.

(** With the range of the declaration of [c] advanced to the end of [pre]. *)
Lemma harmonize_loop_pending (rest pre : list string) (c : string) :
  harmonize_loop (declarations rest (length pre))
    (fix_range c (length pre)
       (match declarations rest (length pre) with
        | next :: _ => fst next
        | [] => length (pre ++ rest)
        end)
       (pre ++ rest))
  = pre ++ harmonize_pass (Some c) rest.
Proof.
  revert pre c. induction rest as [|line rest IH]; intros pre c.
  - cbn [declarations harmonize_loop harmonize_pass].
    rewrite fix_range_empty; [done |]. rewrite length_app. simpl. lia.
  - cbn [declarations harmonize_pass]. destruct (is_declaration line) eqn:Hd.
    + cbn [fst]. rewrite fix_range_empty by lia.
      cbn [harmonize_loop fst snd].
      replace (length pre + 1) with (length (pre ++ [line]))
        by (rewrite length_app; simpl; lia).
      replace (S (length pre)) with (length (pre ++ [line]))
        by (rewrite length_app; simpl; lia).
      rewrite (cons_middle line pre rest), app_assoc.
      rewrite (IH (pre ++ [line]) (declared_name line)).
      by rewrite <- app_assoc.
    + assert (length pre <
              match declarations rest (S (length pre)) with
              | next :: _ => fst next
              | [] => length (pre ++ line :: rest)
              end) as Hlt.
      { destruct (declarations rest (S (length pre))) as [|[j c'] T] eqn:HT.
        - rewrite length_app. simpl. lia.
        - apply declarations_head_ge in HT. simpl. lia. }
      rewrite fix_range_step by done.
      replace (length (pre ++ line :: rest))
        with (length ((pre ++ [fix_reference c line]) ++ rest))
        by (rewrite !length_app; simpl; lia).
      replace (S (length pre)) with (length (pre ++ [fix_reference c line]))
        by (rewrite length_app; simpl; lia).
      rewrite (cons_middle (fix_reference c line) pre rest), app_assoc.
      rewrite (IH (pre ++ [fix_reference c line]) c).
      by rewrite <- app_assoc.
Qed.

Lemma harmonize_loop_pass (rest pre : list string) :
  harmonize_loop (declarations rest (length pre)) (pre ++ rest)
  = pre ++ harmonize_pass None rest.
Proof.
  revert pre. induction rest as [|line rest IH]; intros pre.
  - done.
  - cbn [declarations harmonize_pass]. destruct (is_declaration line) eqn:Hd.
    + cbn [harmonize_loop fst snd].
      replace (length (pre ++ line :: rest)) with (length ((pre ++ [line]) ++ rest))
        by (rewrite !length_app; simpl; lia).
      replace (length pre + 1) with (length (pre ++ [line]))
        by (rewrite length_app; simpl; lia).
      replace (S (length pre)) with (length (pre ++ [line]))
        by (rewrite length_app; simpl; lia).
      rewrite (cons_middle line pre rest), app_assoc.
      rewrite (harmonize_loop_pending rest (pre ++ [line]) (declared_name line)).
      by rewrite <- app_assoc.
    + replace (S (length pre)) with (length (pre ++ [line]))
        by (rewrite length_app; simpl; lia).
      rewrite (cons_middle line pre rest), app_assoc.
      rewrite (IH (pre ++ [line])). by rewrite <- app_assoc.
Qed.

(** The harmonisation always completes and is the single pass. *)
Lemma harmonize_is_pass (sl : list string) :
  harmonize sl = Ok (harmonize_pass None sl).
Proof.
  unfold harmonize. rewrite declarations_from_total.
  pose proof (harmonize_loop_pass sl []) as H. simpl in H. cbn. by rewrite H.
Qed.

(** ** Running the patch jobs *)

Lemma run_exists_path {B} (path : string) (f : bool -> tech B) (st : state) :
  (exists_path path ≫= f) st
  = f (bool_decide (is_Some (files st !! path)) || bool_decide (is_Some (dirs st !! path))) st.
Proof. reflexivity. Qed.

Lemma run_open_w {B} (path : string) (f : unit -> tech B) (st : state) :
  (open_w path ≫= f) st = f tt (with_files (insert path "") st).
Proof. reflexivity. Qed.

Lemma run_read {B} (path : string) (f : string -> tech B) (st : state) :
  (read path ≫= f) st =
    match files st !! path with
    | Some text => f (universal_newlines text) st
    | None => (st, Raise (FileNotFoundError path))
    end.
Proof. rewrite run_bind. unfold read. by destruct (files st !! path). Qed.

Lemma run_write {B} (path text : string) (f : unit -> tech B) (st : state) :
  (write path text ≫= f) st
  = f tt (with_files (fun fs => <[path := default "" (fs !! path) +:+ text]> fs) st).
Proof. reflexivity. Qed.

Lemma with_files_files (f : gmap string string -> gmap string string) (st : state) :
  files (with_files f st) = f (files st).
Proof. done. Qed.

Lemma with_files_compose (f g : gmap string string -> gmap string string) (st : state) :
  with_files g (with_files f st) = with_files (fun fs => g (f fs)) st.
Proof. done. Qed.

Lemma run_get_library_name {B} (f : string -> tech B) (st : state) :
  (get_library_name ≫= f) st = f (library_name st) st.
Proof. reflexivity. Qed.

Lemma run_get_cache_dir {B} (f : string -> tech B) (st : state) :
  (get_cache_dir ≫= f) st = f (cache_dir st) st.
Proof. reflexivity. Qed.

(** ** Rules of regeneration *)

Section Regen.

Variable D : list string.
Variable e : state.

Lemma related_weaken (W1 W : list string) (st st' s1 s2 : state) :
  related D e (W1 ++ W) st st' s1 s2 -> related D e W st st' s1 s2.
Proof.
  intros (H1 & H2 & HW & Hall).
  split; [done | split; [done | split; [| done]]].
  intros p Hp. apply HW. apply elem_of_app. by right.
Qed.

(** A step that leaves the state alone and returns the same in both runs. *)
Lemma regen_pure {A} (W : list string) (m : tech A) :
  (forall s, (m s).1 = s) ->
  (forall s1 s2, same_env s1 e -> same_env s2 e -> (m s1).2 = (m s2).2) ->
  regen D e W m [].
Proof.
  intros Hst Hres st st' s1 s2 Hrel. rewrite !Hst.
  pose proof Hrel as (H1 & H2 & HW & Hall).
  split; [by apply Hres |]. split; [done |]. split; [| done].
  intros a _. exact Hrel.
Qed.

Lemma regen_ret {A} (W : list string) (a : A) : regen D e W (mret a) [].
Proof. by apply regen_pure. Qed.

Lemma regen_raise {A} (W W' : list string) (x : exn) : regen D e W (raise x : tech A) W'.
Proof.
  intros st st' s1 s2 Hrel. cbn.
  split; [done |]. split; [done |]. split; [| done]. intros a Ha. discriminate Ha.
Qed.

Lemma regen_lift {A} (W : list string) (r : result A) : regen D e W (lift r) [].
Proof. by apply regen_pure. Qed.

Lemma regen_bind {A B} (W W1 W2 : list string) (m : tech A) (f : A -> tech B) :
  regen D e W m W1 ->
  (forall a, regen D e (W1 ++ W) (f a) W2) ->
  regen D e W (m ≫= f) (W2 ++ W1).
Proof.
  intros Hm Hf st st' s1 s2 Hrel. rewrite !run_bind.
  destruct (Hm st st' s1 s2 Hrel) as (Hr & Hrel1 & Hok & Hframe).
  destruct (m s1) as [t1 [a|x]], (m s2) as [t2 [a2|x2]]; cbn [fst snd] in *;
    cbv beta iota; try discriminate Hr.
  - injection Hr as <-.
    destruct (Hf a st st' t1 t2 (Hok a eq_refl)) as (Hr' & Hrel2 & Hok' & Hframe').
    split; [done |]. split; [by eapply related_weaken |].
    split; [| intros p Hp; rewrite Hframe' by done; by apply Hframe].
    intros b Hb. rewrite <- app_assoc. apply (Hok' b Hb).
  - injection Hr as <-.
    split; [done |]. split; [done |]. split; [| done]. intros a Ha. discriminate Ha.
Qed.

Lemma regen_if {A} (W W' : list string) (b : bool) (m1 m2 : tech A) :
  regen D e W m1 W' -> regen D e W m2 W' -> regen D e W (if b then m1 else m2) W'.
Proof. by destruct b. Qed.

Lemma regen_get_setting {B} (W W' : list string) (key : string) (f : setting -> tech B) :
  (forall v, db e !! key = Some v -> regen D e W (f v) W') ->
  regen D e W (get_setting key ≫= f) W'.
Proof.
  intros Hf st st' s1 s2 Hrel. rewrite !run_get_setting.
  pose proof Hrel as ((-> & _) & (-> & _) & _).
  destruct (db e !! key) as [v|] eqn:Hv; [by apply Hf |].
  by apply (regen_raise W W' (KeyError key) st st').
Qed.

Lemma regen_lift_bind {A B} (W W' : list string) (r : result A) (f : A -> tech B) :
  (forall a, r = Ok a -> regen D e W (f a) W') ->
  regen D e W (lift r ≫= f) W'.
Proof.
  intros Hf st st' s1 s2 Hrel. rewrite !run_lift.
  destruct r as [a|x]; [by apply Hf |].
  by apply (regen_raise W W' x st st').
Qed.

Lemma regen_get_library_name {B} (W W' : list string) (f : string -> tech B) :
  regen D e W (f (library_name e)) W' ->
  regen D e W (get_library_name ≫= f) W'.
Proof.
  intros Hf st st' s1 s2 Hrel. rewrite !run_get_library_name.
  pose proof Hrel as ((_ & _ & _ & _ & -> & _) & (_ & _ & _ & _ & -> & _) & _).
  by apply Hf.
Qed.

Lemma regen_get_cache_dir {B} (W W' : list string) (f : string -> tech B) :
  regen D e W (f (cache_dir e)) W' ->
  regen D e W (get_cache_dir ≫= f) W'.
Proof.
  intros Hf st st' s1 s2 Hrel. rewrite !run_get_cache_dir.
  pose proof Hrel as ((_ & _ & _ & _ & _ & _ & ->) & (_ & _ & _ & _ & _ & _ & ->) & _).
  by apply Hf.
Qed.

(** A path that has been opened, or that is no destination, reads the same
    in both runs. *)
Lemma related_agree (W : list string) (st st' s1 s2 : state) (p : string) :
  related D e W st st' s1 s2 -> p ∈ W \/ p ∉ D -> files s1 !! p = files s2 !! p.
Proof.
  intros (_ & _ & HW & Hall) [Hp | Hp]; [by apply HW |].
  destruct (Hall p) as [H | (Hin & _)]; done.
Qed.

Lemma regen_exists_path {B} (W W' : list string) (p : string) (f : bool -> tech B) :
  p ∈ W \/ p ∉ D ->
  (forall found, regen D e W (f found) W') ->
  regen D e W (exists_path p ≫= f) W'.
Proof.
  intros Hp Hf st st' s1 s2 Hrel. rewrite !run_exists_path.
  rewrite (related_agree W st st' s1 s2 p Hrel Hp).
  pose proof Hrel as ((_ & -> & _) & (_ & -> & _) & _).
  by apply Hf.
Qed.

Lemma regen_read {B} (W W' : list string) (p : string) (f : string -> tech B) :
  p ∈ W \/ p ∉ D ->
  (forall text, regen D e W (f text) W') ->
  regen D e W (read p ≫= f) W'.
Proof.
  intros Hp Hf st st' s1 s2 Hrel. rewrite !run_read.
  rewrite (related_agree W st st' s1 s2 p Hrel Hp).
  destruct (files s2 !! p) as [text|]; [by apply Hf |].
  by apply (regen_raise W W' (FileNotFoundError p) st st').
Qed.

Lemma related_open_w (W : list string) (st st' s1 s2 : state) (p : string) :
  related D e W st st' s1 s2 ->
  related D e (p :: W) st st'
    (with_files (insert p "") s1) (with_files (insert p "") s2).
Proof.
  intros (H1 & H2 & HW & Hall).
  split; [done |]. split; [done |]. cbn [files with_files]. split.
  - intros q Hq. destruct (decide (p = q)) as [-> | Hne].
    + by rewrite !lookup_insert_eq.
    + rewrite !lookup_insert_ne by done. apply HW.
      apply elem_of_cons in Hq as [-> | Hq]; done.
  - intros q. destruct (decide (p = q)) as [-> | Hne].
    + left. by rewrite !lookup_insert_eq.
    + rewrite !lookup_insert_ne by done. apply Hall.
Qed.

Lemma regen_open_w {B} (W W' : list string) (p : string) (f : unit -> tech B) :
  p ∈ D ->
  regen D e (p :: W) (f tt) W' ->
  regen D e W (open_w p ≫= f) (W' ++ [p]).
Proof.
  intros Hp Hf st st' s1 s2 Hrel. rewrite !run_open_w.
  destruct (Hf st st' _ _ (related_open_w W st st' s1 s2 p Hrel))
    as (Hr & Hrel1 & Hok & Hframe).
  split; [done |]. split; [by apply (related_weaken [p]) |].
  split.
  - intros a Ha. rewrite <- app_assoc. apply (Hok a Ha).
  - intros q Hq. rewrite Hframe by done. cbn [files with_files].
    apply lookup_insert_ne. by intros ->.
Qed.

Lemma related_write (W : list string) (st st' s1 s2 : state) (p text : string) :
  p ∈ W ->
  related D e W st st' s1 s2 ->
  related D e W st st'
    (with_files (fun fs => <[p := default "" (fs !! p) +:+ text]> fs) s1)
    (with_files (fun fs => <[p := default "" (fs !! p) +:+ text]> fs) s2).
Proof.
  intros Hp (H1 & H2 & HW & Hall).
  split; [done |]. split; [done |]. cbn [files with_files].
  rewrite (HW p Hp). split.
  - intros q Hq. destruct (decide (p = q)) as [-> | Hne].
    + by rewrite !lookup_insert_eq.
    + rewrite !lookup_insert_ne by done. by apply HW.
  - intros q. destruct (decide (p = q)) as [-> | Hne].
    + left. by rewrite !lookup_insert_eq.
    + rewrite !lookup_insert_ne by done. apply Hall.
Qed.

Lemma regen_write {B} (W W' : list string) (p text : string) (f : unit -> tech B) :
  p ∈ W -> p ∈ D ->
  regen D e W (f tt) W' ->
  regen D e W (write p text ≫= f) W'.
Proof.
  intros Hp HpD Hf st st' s1 s2 Hrel. rewrite !run_write.
  destruct (Hf st st' _ _ (related_write W st st' s1 s2 p text Hp Hrel))
    as (Hr & Hrel1 & Hok & Hframe).
  split; [done |]. split; [done |]. split; [done |].
  intros q Hq. rewrite Hframe by done. cbn [files with_files].
  apply lookup_insert_ne. by intros ->.
Qed.

Lemma regen_write_end (W : list string) (p text : string) :
  p ∈ W -> p ∈ D -> regen D e W (write p text) [].
Proof.
  intros Hp HpD st st' s1 s2 Hrel. unfold write. cbn [fst snd].
  pose proof (related_write W st st' s1 s2 p text Hp Hrel) as Hrel1.
  split; [done |]. split; [done |]. split; [done |].
  intros q Hq. cbn [files with_files]. apply lookup_insert_ne. by intros ->.
Qed.

(** Two runs of a job that regenerates its destinations, the second started
    where the first ended: the second changes nothing and ends the same. *)
Lemma regen_idempotent (W' : list string) (m : tech unit) :
  regen D e [] m W' -> m (m e).1 = ((m e).1, (m e).2).
Proof.
  intros Hm.
  assert (same_env e e) as Henv by done.
  assert (related D e [] e e e e) as Hrel0.
  { split; [done |]. split; [done |]. split; [by intros p Hp; apply elem_of_nil in Hp |].
    intros p. by left. }
  destruct (Hm e e e e Hrel0) as (_ & (Henv1 & _) & _ & Hframe).
  assert (related D e [] e (m e).1 e (m e).1) as Hrel.
  { split; [done |]. split; [done |]. split; [by intros p Hp; apply elem_of_nil in Hp |].
    intros p. destruct (decide (p ∈ D)) as [Hin | Hout]; [by right |].
    left. symmetry. by apply Hframe. }
  destruct (Hm e (m e).1 e (m e).1 Hrel) as (Hr & (_ & Henv2 & _ & Hall) & _ & _).
  destruct (m e) as [t1 r1] eqn:H1. cbn [fst snd] in *.
  destruct (m t1) as [t2 r2] eqn:H2. cbn [fst snd] in *. subst r2.
  f_equal.
  assert (files t2 = files t1) as Hfiles.
  { apply map_eq. intros p. destruct (Hall p) as [H | (_ & _ & H)]; done. }
  destruct Henv1 as (? & ? & ? & ? & ? & ? & ?), Henv2 as (? & ? & ? & ? & ? & ? & ?).
  destruct t1, t2. cbn in *. congruence.
Qed.

(** What a completed job leaves in a destination it opened does not depend
    on what the destinations held before. *)
Lemma regen_overwrite (W' : list string) (m : tech unit) (old : gmap string string) :
  regen D e [] m W' ->
  (forall p, p ∉ D -> old !! p = files e !! p) ->
  (m (with_files (fun _ => old) e)).2 = (m e).2
  /\ ((m e).2 = Ok tt ->
      forall p, p ∈ W' ->
        files (m (with_files (fun _ => old) e)).1 !! p = files (m e).1 !! p).
Proof.
  intros Hm Hold.
  assert (related D e [] e (with_files (fun _ => old) e) e (with_files (fun _ => old) e))
    as Hrel.
  { split; [done |]. split; [done |]. split; [by intros p Hp; apply elem_of_nil in Hp |].
    intros p. cbn [files with_files].
    destruct (decide (p ∈ D)) as [Hin | Hout]; [by right |].
    left. symmetry. by apply Hold. }
  destruct (Hm _ _ _ _ Hrel) as (Hr & _ & Hok & _).
  split; [done |]. intros HOk p Hp.
  destruct (Hok tt HOk) as (_ & _ & HW & _). symmetry. apply HW.
  apply elem_of_app. by left.
Qed.

End Regen.

(** ** The patch jobs regenerate their destinations *)

Ltac in_list :=
  rewrite ?elem_of_app, ?elem_of_cons, ?elem_of_nil; intuition congruence.

Lemma cdl_device_names_regen (D : list string) (e : state) (W : list string) :
  regen D e W cdl_device_names [].
Proof.
  unfold cdl_device_names.
  apply regen_get_setting. intros tool _.
  apply regen_if; [apply regen_ret |].
  apply regen_get_setting. intros tool' _.
  apply regen_if; apply regen_ret.
Qed.

Lemma setup_cdl_regen (D : list string) (e : state) (W : list string) :
  cdl_dest e ∈ D -> cdl_source e ∉ D ->
  regen D e W setup_cdl [cdl_dest e].
Proof.
  intros Hd Hs. unfold cdl_source, cdl_dest, sky130A in *. unfold setup_cdl.
  apply regen_get_setting. intros v Hv. rewrite Hv in Hs.
  apply regen_lift_bind. intros a Ha. destruct v as [a'|]; [| done].
  injection Ha as ->.
  apply regen_get_library_name.
  apply regen_exists_path; [by right |].
  intros found. apply regen_if; [apply regen_raise |].
  apply regen_get_cache_dir.
  eapply (regen_bind _ _ _ [] [_]); [apply cdl_device_names_regen |].
  intros [pmos nmos].
  apply (regen_open_w _ _ _ []); [done |].
  apply regen_read; [by right |].
  intros sf.
  apply regen_write; [in_list | done |].
  apply regen_write_end; [in_list | done].
Qed.

Lemma setup_verilog_regen (D : list string) (e : state) (W : list string) :
  verilog_dest e ∈ D -> primitives_dest e ∈ D ->
  verilog_source e ∉ D -> primitives_source e ∉ D ->
  exists W', regen D e W setup_verilog W'
    /\ verilog_dest e ∈ W' /\ primitives_dest e ∈ W'.
Proof.
  intros Hd1 Hd2 Hv Hp.
  unfold verilog_source, primitives_source, verilog_dest, primitives_dest, sky130A in *.
  eexists. split; [| shelve].
  unfold setup_verilog.
  apply regen_get_setting. intros v Hdb. rewrite Hdb in Hv, Hp.
  apply regen_lift_bind. intros a Ha. destruct v as [a'|]; [| done].
  injection Ha as ->.
  apply regen_get_library_name.
  apply regen_exists_path; [by right |].
  intros found. apply regen_if; [apply regen_raise |].
  apply regen_get_cache_dir.
  eapply regen_open_w; [done |].
  apply regen_read; [by right |]. intros sf.
  apply regen_write; [in_list | done |].
  apply regen_read; [left; in_list |]. intros sf'.
  apply regen_lift_bind. intros sl _.
  apply regen_lift_bind. intros sl' _.
  eapply regen_open_w; [done |].
  apply regen_write; [in_list | done |].
  apply regen_exists_path; [by right |].
  intros found'. apply regen_if; [apply regen_raise |].
  eapply regen_open_w; [done |].
  apply regen_read; [by right |]. intros sf2.
  apply regen_write_end; [in_list | done].
  Unshelve. in_list.
Qed.

Lemma setup_techlef_regen (D : list string) (e : state) (W : list string) :
  techlef_dest e ∈ D -> techlef_source e ∉ D ->
  regen D e W setup_techlef [techlef_dest e].
Proof.
  intros Hd Hs. unfold techlef_source, techlef_dest, sky130A in *. unfold setup_techlef.
  apply regen_get_setting. intros v Hv. rewrite Hv in Hs.
  apply regen_lift_bind. intros a Ha. destruct v as [a'|]; [| done].
  injection Ha as ->.
  apply regen_get_library_name.
  apply regen_exists_path; [by right |].
  intros found. apply regen_if; [apply regen_raise |].
  apply regen_get_cache_dir.
  apply (regen_open_w _ _ _ []); [done |].
  apply regen_read; [by right |].
  intros sf.
  apply regen_write_end; [in_list | done].
Qed.

Lemma setup_io_lefs_regen (D : list string) (e : state) (W : list string) :
  io_lef_dest e ∈ D -> io_lef_source e ∉ D ->
  regen D e W setup_io_lefs [io_lef_dest e].
Proof.
  intros Hd Hs. unfold io_lef_source, io_lef_dest, sky130A in *. unfold setup_io_lefs.
  apply regen_get_setting. intros v Hv. rewrite Hv in Hs.
  apply regen_lift_bind. intros a Ha. destruct v as [a'|]; [| done].
  injection Ha as ->.
  apply regen_exists_path; [by right |].
  intros found. apply regen_if; [apply regen_raise |].
  apply regen_get_cache_dir.
  apply (regen_open_w _ _ _ []); [done |].
  apply regen_read; [by right |].
  intros sf.
  apply regen_lift_bind. intros sl _.
  apply regen_write_end; [in_list | done].
Qed.

(** ** C7: idempotence of the patch engine *)

Lemma regen_regenerates (D : list string) (W' : list string) (m : tech unit)
    (dest : string) (st : state) :
  regen D st [] m W' -> dest ∈ D -> dest ∈ W' -> regenerates m dest st.
Proof.
  intros Hm HD HW old.
  destruct (regen_overwrite D st W' m (<[dest := old]> (files st)) Hm) as [Hr Hfiles].
  { intros p Hp. apply lookup_insert_ne. by intros ->. }
  split; [exact Hr |]. intros HOk. by apply Hfiles.
Qed.

Lemma not_in_singleton (a b : string) : a <> b -> a ∉ [b].
Proof. intros H Hin. apply elem_of_cons in Hin as [-> | Hin]; [done | by apply elem_of_nil in Hin]. Qed.

Lemma setup_cdl_idempotent (st : state) :
  cdl_source st <> cdl_dest st ->
  idempotent_job setup_cdl st /\ regenerates setup_cdl (cdl_dest st) st.
Proof.
  intros Hne.
  assert (regen [cdl_dest st] st [] setup_cdl [cdl_dest st]) as Hm.
  { apply setup_cdl_regen; [left | by apply not_in_singleton]. }
  split; [by eapply regen_idempotent | eapply regen_regenerates; [done | left | left]].
Qed.

Lemma setup_verilog_idempotent (st : state) :
  verilog_source st ∉ [verilog_dest st; primitives_dest st] ->
  primitives_source st ∉ [verilog_dest st; primitives_dest st] ->
  idempotent_job setup_verilog st
  /\ regenerates setup_verilog (verilog_dest st) st
  /\ regenerates setup_verilog (primitives_dest st) st.
Proof.
  intros Hv Hp.
  destruct (setup_verilog_regen [verilog_dest st; primitives_dest st] st [])
    as (W' & Hm & H1 & H2); [in_list | in_list | done | done |].
  split; [by eapply regen_idempotent |].
  split; (eapply regen_regenerates; [done | in_list | done]).
Qed.

Lemma setup_techlef_idempotent (st : state) :
  techlef_source st <> techlef_dest st ->
  idempotent_job setup_techlef st /\ regenerates setup_techlef (techlef_dest st) st.
Proof.
  intros Hne.
  assert (regen [techlef_dest st] st [] setup_techlef [techlef_dest st]) as Hm.
  { apply setup_techlef_regen; [left | by apply not_in_singleton]. }
  split; [by eapply regen_idempotent | eapply regen_regenerates; [done | left | left]].
Qed.

Lemma setup_io_lefs_idempotent (st : state) :
  io_lef_source st <> io_lef_dest st ->
  idempotent_job setup_io_lefs st /\ regenerates setup_io_lefs (io_lef_dest st) st.
Proof.
  intros Hne.
  assert (regen [io_lef_dest st] st [] setup_io_lefs [io_lef_dest st]) as Hm.
  { apply setup_io_lefs_regen; [left | by apply not_in_singleton]. }
  split; [by eapply regen_idempotent | eapply regen_regenerates; [done | left | left]].
Qed.

Lemma regen_forget {A} (D : list string) (e : state) (W W' : list string) (m : tech A) :
  regen D e W m W' -> regen D e W m [].
Proof.
  intros Hm st st' s1 s2 Hrel.
  destruct (Hm st st' s1 s2 Hrel) as (Hr & Hrel1 & _ & Hframe).
  split; [done |]. split; [done |]. split; [| done]. intros a _. exact Hrel1.
Qed.

Lemma run_patch_jobs_regen (e : state) (D : list string) :
  cdl_dest e ∈ D -> verilog_dest e ∈ D -> primitives_dest e ∈ D ->
  techlef_dest e ∈ D -> io_lef_dest e ∈ D ->
  cdl_source e ∉ D -> verilog_source e ∉ D -> primitives_source e ∉ D ->
  techlef_source e ∉ D -> io_lef_source e ∉ D ->
  exists W', regen D e [] run_patch_jobs W'.
Proof.
  intros Hd1 Hd2 Hd3 Hd4 Hd5 Hs1 Hs2 Hs3 Hs4 Hs5.
  destruct (setup_verilog_regen D e ([cdl_dest e] ++ [])) as (Wv & Hv & _); try done.
  eexists. unfold run_patch_jobs.
  apply regen_get_setting. intros slib _.
  eapply regen_bind.
  - apply regen_if; [| apply regen_ret].
    eapply regen_forget. eapply regen_bind; [by apply setup_cdl_regen |].
    intros _. eapply regen_bind; [exact Hv |].
    intros _. by apply setup_techlef_regen.
  - intros _. by apply setup_io_lefs_regen.
Qed.

Lemma post_install_script_run (st : state) :
  post_install_script st =
    match db st !! "technology.sky130.sram22_sky130_macros" with
    | Some (SStr a) =>
        run_patch_jobs
          (with_use_sram22
             (bool_decide (is_Some (files st !! a)) || bool_decide (is_Some (dirs st !! a)))
             (installed st))
    | Some (SBool _) => (installed st, Raise (ValueError "expected str"))
    | None => (installed st, Raise (KeyError "technology.sky130.sram22_sky130_macros"))
    end.
Proof.
  unfold post_install_script, mbind, tech_bind, get_setting, lift, exists_path.
  cbn [db with_library_name files dirs].
  by destruct (db st !! "technology.sky130.sram22_sky130_macros") as [[a|b]|].
Qed.

Lemma post_install_script_idempotent (st : state) :
  (forall s, s ∈ all_sources st -> s ∉ all_dests st) ->
  sram22_macros st ∉ all_dests st ->
  idempotent_job post_install_script st.
Proof.
  intros Hsrc Hmac. unfold idempotent_job, sram22_macros in *.
  rewrite (post_install_script_run st).
  destruct (db st !! "technology.sky130.sram22_sky130_macros") as [[a|b]|] eqn:Hv.
  2,3: cbn [fst snd]; rewrite post_install_script_run;
       change (db (installed st)) with (db st); by rewrite Hv.
  set (found := bool_decide (is_Some (files st !! a)) || bool_decide (is_Some (dirs st !! a))).
  set (e := with_use_sram22 found (installed st)).
  destruct (run_patch_jobs_regen e (all_dests st)) as [W' Hjobs];
    try (unfold all_dests; in_list);
    try (apply Hsrc; unfold all_sources; in_list).
  pose proof (regen_idempotent (all_dests st) e W' run_patch_jobs Hjobs) as Hidem.
  assert (related (all_dests st) e [] e e e e) as Hrel0.
  { split; [done |]. split; [done |]. split; [by intros p Hp; apply elem_of_nil in Hp |].
    intros p. by left. }
  destruct (Hjobs e e e e Hrel0) as (_ & (Henv & _) & _ & Hframe).
  destruct (run_patch_jobs e) as [t1 r1] eqn:Hrun. cbn [fst snd] in *.
  (* the second run starts by setting the same attributes again *)
  destruct Henv as (Hdb & Hdirs & Htlefs & Hcfg & Hname & Hsram & Hcache).
  rewrite post_install_script_run. rewrite Hdb. change (db e) with (db st). rewrite Hv.
  rewrite Hframe by done. rewrite Hdirs.
  change (files e) with (files st). change (dirs e) with (dirs st). fold found.
  assert (with_use_sram22 found (installed t1) = t1) as ->; [| exact Hidem].
  destruct t1. cbn in *. subst. reflexivity.
Qed.

(** C7. Each patch job, run a second time on the file system the first run
    left, changes nothing and ends with the same outcome, provided its
    pristine source is not one of its own destinations (so the first run
    left the source unmodified); and what a completed job leaves in a
    destination does not depend on what the destination held before: the
    destination is regenerated from the source, not edited in place. The same
    holds for the whole of [post_install_script], the five jobs in sequence. *)
Theorem C7_patch_engine_idempotent (st : state) :
  (cdl_source st <> cdl_dest st ->
   idempotent_job setup_cdl st /\ regenerates setup_cdl (cdl_dest st) st)
  /\ (verilog_source st ∉ [verilog_dest st; primitives_dest st] ->
      primitives_source st ∉ [verilog_dest st; primitives_dest st] ->
      idempotent_job setup_verilog st
      /\ regenerates setup_verilog (verilog_dest st) st
      /\ regenerates setup_verilog (primitives_dest st) st)
  /\ (techlef_source st <> techlef_dest st ->
      idempotent_job setup_techlef st /\ regenerates setup_techlef (techlef_dest st) st)
  /\ (io_lef_source st <> io_lef_dest st ->
      idempotent_job setup_io_lefs st /\ regenerates setup_io_lefs (io_lef_dest st) st)
  /\ ((forall s, s ∈ all_sources st -> s ∉ all_dests st) ->
      sram22_macros st ∉ all_dests st ->
      idempotent_job post_install_script st).
Proof.
  split; [apply setup_cdl_idempotent |].
  split; [apply setup_verilog_idempotent |].
  split; [apply setup_techlef_idempotent |].
  split; [apply setup_io_lefs_idempotent |].
  apply post_install_script_idempotent.
Qed.

Lemma C7_patch_engine_idempotent_witness :
  idempotent_job setup_cdl patch_state
  /\ idempotent_job setup_verilog patch_state
  /\ idempotent_job setup_techlef patch_state
  /\ idempotent_job setup_io_lefs patch_state
  /\ idempotent_job post_install_script patch_state.
Proof.
  destruct (C7_patch_engine_idempotent patch_state) as (Hcdl & Hv & Ht & Hio & Hall).
  split; [apply Hcdl; vm_compute; intros E; discriminate E |].
  split; [apply Hv; rewrite !elem_of_cons, elem_of_nil; vm_compute;
          intros [E | [E | []]]; discriminate E |].
  split; [apply Ht; vm_compute; intros E; discriminate E |].
  split; [apply Hio; vm_compute; intros E; discriminate E |].
  apply Hall.
  - intros s Hs. unfold all_sources, all_dests in *.
    rewrite !elem_of_cons, elem_of_nil in Hs.
    rewrite !elem_of_cons, elem_of_nil.
    destruct Hs as [-> | [-> | [-> | [-> | [-> | []]]]]]; vm_compute;
      intros [E | [E | [E | [E | [E | []]]]]]; discriminate E.
  - unfold all_dests. rewrite !elem_of_cons, elem_of_nil. vm_compute.
    intros [E | [E | [E | [E | [E | []]]]]]; discriminate E.
Defined.

(** The two runs on the sample PDK, evaluated. *)
Example post_install_script_twice :
  (post_install_script patch_state).2 = Ok tt
  /\ map_to_list (files (post_install_script (post_install_script patch_state).1).1)
     = map_to_list (files (post_install_script patch_state).1)
  /\ files (post_install_script patch_state).1 !! "/build/tech-sky130-cache/sky130_fd_sc_hd.cdl"
     = Some ("*.SCALE MICRON" +:+ nl +:+ replace "pfet_01v8_hvt" "phighvt"
               (replace "nfet_01v8" "nshort" sample_cdl)).
Proof. split; [| split]; vm_compute; reflexivity. Qed.

(** ** Replacement, occurrence by occurrence *)

Lemma startswith_eq (s p : string) :
  startswith s p = true -> s = p +:+ sdrop (String.length p) s.
Proof.
  revert s. induction p as [|b p IH]; intros [|a s]; simpl; try done.
  destruct (Ascii.eqb_spec a b) as [-> |]; [| done].
  intros H. rewrite append_cons. f_equal. by apply IH.
Qed.

Lemma length_sdrop (n : nat) (s : string) :
  String.length (sdrop n s) = String.length s - n.
Proof.
  revert s. induction n as [|n IH]; intros [|a s]; simpl; try done; try lia.
Qed.

Lemma sdrop_app_length (a b : string) : sdrop (String.length a) (a +:+ b) = b.
Proof. induction a as [|x a IH]; [done | by rewrite append_cons]. Qed.

Lemma replace_occurrence (old new s : string) :
  old <> "" -> replace old new (old +:+ s) = new +:+ replace old new s.
Proof.
  intros Hold. unfold replace. destruct old as [|o old]; [done |].
  pose proof (startswith_app (String o old) s) as Hs.
  rewrite append_cons in *. cbn [replace_from]. rewrite Hs.
  rewrite (replace_from_skip _ _ (old +:+ s)).
  cbn [String.length]. rewrite Nat.sub_succ, Nat.sub_0_r.
  by rewrite sdrop_app_length.
Qed.

Lemma replace_other (old new : string) (a : ascii) (s : string) :
  old <> "" -> startswith (String a s) old = false ->
  replace old new (String a s) = String a (replace old new s).
Proof.
  intros Hold Hs. unfold replace. destruct old as [|o old]; [done |].
  cbn [replace_from]. by rewrite Hs.
Qed.

(** Induction along the way [replace] walks through a text. *)
Lemma replace_ind (old : string) (P : string -> Prop) :
  old <> "" ->
  P "" ->
  (forall t, P t -> P (old +:+ t)) ->
  (forall a s, startswith (String a s) old = false -> P s -> P (String a s)) ->
  forall s, P s.
Proof.
  intros Hold Hnil Hocc Hother s.
  remember (String.length s) as n eqn:Hn.
  revert s Hn. induction n as [n IH] using lt_wf_ind. intros s ->.
  destruct s as [|a s]; [done |].
  destruct (startswith (String a s) old) eqn:Hs.
  - rewrite (startswith_eq _ _ Hs). apply Hocc.
    apply (IH (String.length (sdrop (String.length old) (String a s)))); [| done].
    rewrite length_sdrop. destruct old; [done |]. simpl. lia.
  - apply Hother; [done |]. apply (IH (String.length s)); [simpl; lia | done].
Qed.

(** A prefix test that meets neither the first character of [old] nor the
    first character of [new] cannot tell the replaced text from the
    original. *)
Lemma startswith_replace (o n : ascii) (old new q s : string) :
  has_char o q = false -> has_char n q = false ->
  startswith (replace (String o old) (String n new) s) q = startswith s q.
Proof.
  intros Ho Hn. revert s. induction q as [|b q IH]; intros s.
  { by rewrite !startswith_nil. }
  simpl in Ho, Hn. apply orb_false_iff in Ho as [Hbo Ho], Hn as [Hbn Hn].
  destruct s as [|a s]; [done |].
  destruct (startswith (String a s) (String o old)) eqn:Hs.
  - pose proof Hs as Hs'. simpl in Hs'.
    destruct (Ascii.eqb_spec a o) as [-> |]; [| done].
    rewrite (startswith_eq _ _ Hs), replace_occurrence by done.
    rewrite !append_cons. simpl.
    rewrite Ascii.eqb_sym in Hbo, Hbn. by rewrite Hbo, Hbn.
  - rewrite replace_other by done. cbn [startswith]. by rewrite IH.
Qed.

(** ** What the inserted text can and cannot disturb *)

Lemma insert_class_core_occurrence (t : string) :
  insert_class_core ("PORT" +:+ t) = class_core +:+ insert_class_core t.
Proof. unfold insert_class_core. by rewrite replace_occurrence. Qed.

Lemma insert_class_core_other (a : ascii) (s : string) :
  startswith (String a s) "PORT" = false ->
  insert_class_core (String a s) = String a (insert_class_core s).
Proof. intros H. unfold insert_class_core. by rewrite replace_other. Qed.

Lemma startswith_insert_class_core (q s : string) :
  has_char "P" q = false ->
  startswith (insert_class_core s) q = startswith s q.
Proof.
  intros Hq. unfold insert_class_core.
  exact (startswith_replace "P" "P" "ORT" ("ORT" +:+ nl +:+ "      CLASS CORE ;") q s Hq Hq).
Qed.

(** A pattern that starts with some character followed by text without a
    [P], and that cannot begin inside [PORT] or inside the replacement text,
    occurs in the repaired line exactly when it occurs in the original. *)
Lemma contains_insert_class_core (c : ascii) (q s : string) :
  has_char "P" q = false ->
  (forall t, contains (String c q) ("PORT" +:+ t) = contains (String c q) t) ->
  (forall t, contains (String c q) (class_core +:+ t) = contains (String c q) t) ->
  contains (String c q) (insert_class_core s) = contains (String c q) s.
Proof.
  intros Hq Hport Hcore. revert s. apply (replace_ind "PORT"); [done | done | |].
  - intros t IH. by rewrite insert_class_core_occurrence, Hport, Hcore.
  - intros a s Hs IH. rewrite insert_class_core_other by done.
    cbn [contains startswith]. by rewrite IH, startswith_insert_class_core.
Qed.

Lemma contains_pin_vssd1_stable (s : string) :
  contains "PIN VSSD1" (insert_class_core s) = contains "PIN VSSD1" s.
Proof. apply contains_insert_class_core; [reflexivity | intros t; reflexivity ..]. Qed.

Lemma contains_end_vssd1_stable (s : string) :
  contains "END VSSD1" (insert_class_core s) = contains "END VSSD1" s.
Proof. apply contains_insert_class_core; [reflexivity | intros t; reflexivity ..]. Qed.

(** The repair of a line neither adds nor removes an occurrence of [PORT]. *)
Lemma count_insert_class_core (s : string) :
  count_at "PORT" (insert_class_core s) = count_at "PORT" s.
Proof.
  revert s. apply (replace_ind "PORT"); [done | done | |].
  - intros t IH. rewrite insert_class_core_occurrence.
    transitivity (S (count_at "PORT" (insert_class_core t))); [reflexivity |].
    rewrite IH, !append_cons, append_nil_l.
    cbn [count_at startswith Ascii.eqb Bool.eqb andb]. by rewrite startswith_nil.
  - intros a s Hs IH. rewrite insert_class_core_other by done.
    cbn [count_at]. rewrite IH. f_equal.
    cbn [startswith]. by rewrite startswith_insert_class_core.
Qed.

Lemma count_replace_areaio (s : string) :
  count_at "PORT" (replace "AREAIO" "SPACER" s) = count_at "PORT" s.
Proof.
  revert s. apply (replace_ind "AREAIO"); [done | done | |].
  - intros t IH. rewrite replace_occurrence by done.
    transitivity (count_at "PORT" (replace "AREAIO" "SPACER" t)); [reflexivity |].
    rewrite IH. reflexivity.
  - intros a s Hs IH. rewrite replace_other by done.
    cbn [count_at]. rewrite IH. f_equal.
    cbn [startswith].
    by rewrite (startswith_replace "A" "S" "REAIO" "PACER" "ORT" s).
Qed.

(** ** The index loops of the IO LEF repair, line by line *)

Lemma where_from_elem (P : string -> bool) (sl : list string) (k i : nat) :
  i ∈ where_from P sl k <->
  k <= i /\ exists line, sl !! (i - k) = Some line /\ P line = true.
Proof.
  revert k. induction sl as [| x sl IH]; intros k; cbn [where_from].
  - rewrite elem_of_nil. split; [done |]. by intros (_ & line & H & _).
  - assert (i ∈ where_from P sl (S k) <->
            S k <= i /\ exists line, (x :: sl) !! (i - k) = Some line /\ P line = true) as IH'.
    { rewrite IH. split.
      - intros (Hle & line & Hl & HP). split; [done |]. exists line. split; [| done].
        replace (i - k) with (S (i - S k)) by lia. exact Hl.
      - intros (Hle & line & Hl & HP). split; [done |]. exists line. split; [| done].
        replace (i - k) with (S (i - S k)) in Hl by lia. exact Hl. }
    destruct (P x) eqn:HPx.
    + rewrite elem_of_cons, IH'. split.
      * intros [-> | (Hle & line & Hl & HP)].
        -- split; [lia |]. exists x. rewrite Nat.sub_diag. by split.
        -- split; [lia |]. by exists line.
      * intros (Hle & line & Hl & HP).
        destruct (decide (i = k)) as [-> | Hne]; [by left |].
        right. split; [lia |]. by exists line.
    + rewrite IH'. split.
      * intros (Hle & line & Hl & HP). split; [lia |]. by exists line.
      * intros (Hle & line & Hl & HP).
        destruct (decide (i = k)) as [-> | Hne].
        -- rewrite Nat.sub_diag in Hl. cbn in Hl. congruence.
        -- split; [lia |]. by exists line.
Qed.

Lemma where_from_NoDup (P : string -> bool) (sl : list string) (k : nat) :
  NoDup (where_from P sl k).
Proof.
  revert k. induction sl as [| x sl IH]; intros k; cbn [where_from]; [constructor |].
  destruct (P x); [| apply IH].
  constructor; [| apply IH]. rewrite where_from_elem. lia.
Qed.

Lemma where_from_ext (P : string -> bool) (sl1 sl2 : list string) (k : nat) :
  Forall2 (fun x y => P x = P y) sl1 sl2 -> where_from P sl1 k = where_from P sl2 k.
Proof.
  intros H. revert k. induction H as [| x y sl1 sl2 Hxy _ IH]; intros k; [done |].
  cbn [where_from]. by rewrite Hxy, !IH.
Qed.

(** A loop that rewrites the lines at pairwise different indices. *)
Lemma rewrite_loop_lookup (g : string -> string) (s : nat) (l : list nat)
    (sl : list string) (j : nat) :
  NoDup l ->
  foldl (fun sl idx => <[s + idx := g (default "" (sl !! (s + idx)))]> sl) sl l !! j
  = if bool_decide (j ∈ Nat.add s <$> l) then g <$> sl !! j else sl !! j.
Proof.
  intros Hnd. revert sl. induction Hnd as [| idx l Hnotin Hnd IH]; intros sl.
  - cbn [foldl]. rewrite bool_decide_eq_false_2; [done |].
    cbn. apply not_elem_of_nil.
  - cbn [foldl]. rewrite IH.
    destruct (decide (j = s + idx)) as [-> | Hne].
    + rewrite bool_decide_eq_false_2.
      2:{ intros (idx' & Heq & Hin)%list_elem_of_fmap.
          assert (idx' = idx) as -> by lia. done. }
      rewrite bool_decide_eq_true_2 by (rewrite fmap_cons; left).
      destruct (sl !! (s + idx)) as [x |] eqn:Hx.
      * cbn. apply list_lookup_insert_eq. by eapply lookup_lt_Some.
      * cbn. rewrite list_insert_ge; [done |]. by apply lookup_ge_None.
    + rewrite list_lookup_insert_ne by done.
      apply (f_equal (fun b : bool => if b then g <$> sl !! j else sl !! j)).
      apply bool_decide_ext. rewrite fmap_cons, elem_of_cons. tauto.
Qed.

(** One pin block: the lines from its [PIN] line up to, not including, its
    [END] line get the repair; a line without [PORT] is left as it is by it. *)
Lemma patch_interval_lookup (sl : list string) (intv : nat * nat) (j : nat) :
  patch_interval sl intv !! j
  = (if in_interval j intv then insert_class_core else id) <$> sl !! j.
Proof.
  destruct intv as [s e]. unfold patch_interval, in_interval. cbn [fst snd].
  rewrite (rewrite_loop_lookup insert_class_core) by apply where_from_NoDup.
  destruct (sl !! j) as [line |] eqn:Hj; cbn [fmap option_fmap option_map].
  2:{ by destruct (bool_decide _), ((s <=? j) && (j <? e)). }
  destruct ((s <=? j) && (j <? e)) eqn:Hin.
  - apply andb_true_iff in Hin as [Hs He].
    apply Nat.leb_le in Hs. apply Nat.ltb_lt in He.
    destruct (contains "PORT" line) eqn:Hport.
    + rewrite bool_decide_eq_true_2; [done |].
      apply list_elem_of_fmap. exists (j - s). split; [lia |]. unfold enum_where.
      apply where_from_elem. split; [lia |]. exists line. split; [| done].
      rewrite Nat.sub_0_r, lookup_take_lt by lia. rewrite lookup_drop.
      by replace (s + (j - s)) with j by lia.
    + destruct (bool_decide _); [done |].
      unfold insert_class_core. by rewrite replace_absent.
  - rewrite bool_decide_eq_false_2; [done |].
    intros (idx & -> & Hidx)%list_elem_of_fmap.
    unfold enum_where in Hidx. apply where_from_elem in Hidx as (_ & l' & Hl & _).
    rewrite Nat.sub_0_r in Hl. apply lookup_lt_Some in Hl.
    rewrite length_take in Hl.
    apply andb_false_iff in Hin as [Hin | Hin];
      [apply Nat.leb_gt in Hin | apply Nat.ltb_ge in Hin]; lia.
Qed.

Lemma covering_cons (intv : nat * nat) (blocks : list (nat * nat)) (i : nat) :
  covering (intv :: blocks) i = (if in_interval i intv then 1 else 0) + covering blocks i.
Proof.
  unfold covering. rewrite filter_cons.
  destruct (decide (in_interval i intv = true)) as [-> | Hn]; [done |].
  by apply not_true_is_false in Hn as ->.
Qed.

Lemma covering_app (a b : list (nat * nat)) (i : nat) :
  covering (a ++ b) i = covering a i + covering b i.
Proof. unfold covering. by rewrite filter_app, length_app. Qed.

Lemma patch_intervals_lookup (blocks : list (nat * nat)) (sl : list string) (j : nat) :
  foldl patch_interval sl blocks !! j
  = Nat.iter (covering blocks j) insert_class_core <$> sl !! j.
Proof.
  revert sl. induction blocks as [| intv blocks IH]; intros sl; cbn [foldl].
  - by destruct (sl !! j).
  - rewrite IH, patch_interval_lookup, covering_cons.
    destruct (sl !! j) as [line |]; [| done]. cbn [fmap option_fmap option_map]. f_equal.
    destruct (in_interval j intv); [| done].
    cbn [Nat.add]. by rewrite Nat.iter_succ_r.
Qed.

Lemma patch_net_lookup (sl : list string) (net : string) (j : nat) :
  patch_net sl net !! j
  = Nat.iter (covering (pin_blocks sl net) j) insert_class_core <$> sl !! j.
Proof. unfold patch_net. apply patch_intervals_lookup. Qed.

Lemma iter_stable {A} (P : string -> A) (n : nat) (line : string) :
  (forall s, P (insert_class_core s) = P s) ->
  P (Nat.iter n insert_class_core line) = P line.
Proof. intros H. induction n as [| n IH]; [done |]. cbn [Nat.iter nat_rect]. by rewrite H. Qed.

Lemma patch_net_Forall2 {A} (P : string -> A) (sl : list string) (net : string) :
  (forall s, P (insert_class_core s) = P s) ->
  Forall2 (fun x y => P x = P y) (patch_net sl net) sl.
Proof.
  intros H. apply Forall2_lookup. intros j. rewrite patch_net_lookup.
  destruct (sl !! j) as [line |]; cbn; constructor. by apply iter_stable.
Qed.

(** The blocks of [VSSD1] are the same before and after the repair of
    [VCCD1]: the inserted text contains neither pattern. *)
Lemma pin_blocks_vssd1_stable (sl : list string) :
  pin_blocks (patch_net sl "VCCD1") "VSSD1" = pin_blocks sl "VSSD1".
Proof.
  unfold pin_blocks, enum_where. f_equal.
  - apply where_from_ext, patch_net_Forall2. exact contains_pin_vssd1_stable.
  - apply where_from_ext, patch_net_Forall2. exact contains_end_vssd1_stable.
Qed.

Lemma patch_nets_lookup (sl : list string) (j : nat) :
  patch_nets sl !! j
  = Nat.iter (covering (pin_blocks sl "VCCD1" ++ pin_blocks sl "VSSD1") j)
      insert_class_core <$> sl !! j.
Proof.
  unfold patch_nets. cbn [foldl].
  rewrite patch_net_lookup, pin_blocks_vssd1_stable, patch_net_lookup, covering_app.
  destruct (sl !! j) as [line |]; [| done]. cbn [fmap option_fmap option_map]. f_equal.
  rewrite (Nat.add_comm (covering _ _)). symmetry. apply Nat.iter_add.
Qed.

(** ** Lines and files *)

Lemma writelines_readlines (text : string) : writelines (readlines text) = text.
Proof.
  induction text as [| a text IH]; [done |]. cbn [readlines].
  destruct (Ascii.eqb_spec a LF) as [-> | _].
  - unfold writelines in *. cbn [foldr]. unfold nl. by rewrite append_cons, append_nil_l, IH.
  - unfold writelines in *. destruct (readlines text) as [| h t]; cbn [cons_line foldr] in *.
    + by rewrite <- IH.
    + by rewrite append_cons, IH.
Qed.

Lemma ends_lf_cons (a : ascii) (line : string) : ends_lf line -> ends_lf (String a line).
Proof. intros [body ->]. exists (String a body). by rewrite append_cons. Qed.

Lemma lines_ok_readlines (text : string) : lines_ok (readlines text).
Proof.
  induction text as [| a text IH]; [done |]. cbn [readlines].
  destruct (Ascii.eqb a LF).
  - cbn [lines_ok]. destruct (readlines text); [done |]. split; [by exists "" | done].
  - destruct (readlines text) as [| h t]; [done |]. cbn [cons_line].
    cbn [lines_ok] in *. destruct t; [done |]. destruct IH as [Hh Ht].
    split; [by apply ends_lf_cons | done].
Qed.

(** A pattern without a line feed cannot reach over the end of a line. *)
Lemma startswith_lf (pat s b : string) :
  has_char LF pat = false -> startswith (s +:+ String LF b) pat = startswith s pat.
Proof.
  revert s. induction pat as [| c q IH]; intros s Hq.
  - by rewrite !startswith_nil.
  - cbn [has_char] in Hq. apply orb_false_iff in Hq as [Hc Hq].
    destruct s as [| a s].
    + rewrite append_nil_l. cbn [startswith].
      rewrite Ascii.eqb_sym in Hc. by rewrite Hc.
    + rewrite append_cons. cbn [startswith]. by rewrite IH.
Qed.

Lemma count_port_lf (s b : string) :
  count_at "PORT" (s +:+ String LF b) = count_at "PORT" s + count_at "PORT" b.
Proof.
  induction s as [| a s IH].
  - by rewrite append_nil_l.
  - rewrite append_cons. cbn [count_at]. rewrite IH.
    rewrite <- (append_cons a s), startswith_lf by done. lia.
Qed.

Lemma count_port_line (line rest : string) :
  ends_lf line ->
  count_at "PORT" (line +:+ rest) = count_at "PORT" line + count_at "PORT" rest.
Proof.
  intros [body ->]. unfold nl. rewrite append_assoc, append_cons, append_nil_l.
  rewrite !count_port_lf. cbn [count_at]. lia.
Qed.

(** [replace] keeps the line feed that ends a line. *)
Lemma replace_ends_lf (old new line : string) :
  old <> "" -> has_char LF old = false ->
  ends_lf line -> ends_lf (replace old new line).
Proof.
  intros Hold Hlf [body ->]. exists (replace old new body).
  revert body. apply (replace_ind old); [done | | |].
  - rewrite append_nil_l. destruct old as [| c q]; [done |].
    cbn [has_char] in Hlf. apply orb_false_iff in Hlf as [Hc _].
    unfold nl. rewrite replace_other; [done | done |].
    cbn [startswith]. rewrite Ascii.eqb_sym in Hc. by rewrite Hc.
  - intros t IH. rewrite append_assoc, !replace_occurrence by done.
    by rewrite IH, append_assoc.
  - intros a s Hs IH. rewrite append_cons, !replace_other, IH, ?append_cons; try done.
    rewrite <- append_cons. unfold nl. by rewrite startswith_lf.
Qed.

Lemma keeps_ports_refl (x : string) : keeps_ports x x.
Proof. by split. Qed.

Lemma keeps_ports_trans (x y z : string) :
  keeps_ports x y -> keeps_ports y z -> keeps_ports x z.
Proof. intros [H1 H2] [H3 H4]. split; [congruence | auto]. Qed.

Lemma keeps_ports_insert_class_core (x : string) : keeps_ports x (insert_class_core x).
Proof.
  split; [apply count_insert_class_core |]. by apply replace_ends_lf.
Qed.

Lemma keeps_ports_iter (n : nat) (x : string) :
  keeps_ports x (Nat.iter n insert_class_core x).
Proof.
  induction n as [| n IH]; [apply keeps_ports_refl |]. cbn [Nat.iter nat_rect].
  eapply keeps_ports_trans; [exact IH | apply keeps_ports_insert_class_core].
Qed.

Lemma keeps_ports_spacer (x : string) : keeps_ports x (replace "AREAIO" "SPACER" x).
Proof. split; [apply count_replace_areaio |]. by apply replace_ends_lf. Qed.

Lemma Forall2_keeps_ports_refl (sl : list string) : Forall2 keeps_ports sl sl.
Proof. induction sl; constructor; [apply keeps_ports_refl | done]. Qed.

Lemma Forall2_keeps_ports_trans (a b c : list string) :
  Forall2 keeps_ports a b -> Forall2 keeps_ports b c -> Forall2 keeps_ports a c.
Proof.
  intros Hab. revert c. induction Hab as [| x y a b Hxy _ IH]; intros c Hbc.
  - by inversion Hbc.
  - inversion Hbc as [| y' z b' c' Hyz Hbc']; subst. constructor.
    + by eapply keeps_ports_trans.
    + by apply IH.
Qed.

Lemma patch_nets_keeps_ports (sl : list string) : Forall2 keeps_ports sl (patch_nets sl).
Proof.
  apply Forall2_lookup. intros j. rewrite patch_nets_lookup.
  destruct (sl !! j); cbn; constructor. apply keeps_ports_iter.
Qed.

Lemma patch_cell_keeps_ports (sl sl' : list string) (cell : string) :
  patch_cell sl cell = Ok sl' -> Forall2 keeps_ports sl sl'.
Proof.
  unfold patch_cell, py_index. intros H.
  destruct (enum_where _ sl !! 0) as [start0 |]; [| discriminate H]. cbn in H.
  destruct (sl !! (start0 + 1)) as [line |] eqn:Hline; [| discriminate H]. cbn in H.
  injection H as <-.
  rewrite <- (list_insert_id sl (start0 + 1) line) at 1 by done.
  apply Forall2_insert; [apply Forall2_keeps_ports_refl | apply keeps_ports_spacer].
Qed.

Lemma patch_cells_keeps_ports (cells : list string) (sl sl' : list string) :
  patch_cells sl cells = Ok sl' -> Forall2 keeps_ports sl sl'.
Proof.
  revert sl. induction cells as [| cell cells IH]; intros sl H; cbn [patch_cells] in H.
  - injection H as <-. apply Forall2_keeps_ports_refl.
  - destruct (patch_cell sl cell) as [sl1 |] eqn:H1; [| discriminate H]. cbn in H.
    eapply Forall2_keeps_ports_trans; [by eapply patch_cell_keeps_ports | by apply IH].
Qed.

Lemma io_lef_lines_keeps_ports (sl sl' : list string) :
  io_lef_lines sl = Ok sl' -> Forall2 keeps_ports sl sl'.
Proof.
  unfold io_lef_lines. intros H.
  destruct (patch_cells (patch_nets sl) spacer_cells) as [sl1 |] eqn:H1; [| discriminate H].
  cbn in H. injection H as <-.
  eapply Forall2_keeps_ports_trans; [apply patch_nets_keeps_ports |].
  by eapply patch_cells_keeps_ports.
Qed.

Lemma keeps_ports_writelines (sl sl' : list string) :
  Forall2 keeps_ports sl sl' -> lines_ok sl ->
  lines_ok sl' /\ count_at "PORT" (writelines sl') = count_at "PORT" (writelines sl).
Proof.
  unfold writelines.
  induction 1 as [| x y sl sl' [Hc He] Hrest IH]; intros Hok; [done |].
  destruct Hrest as [| x2 y2 sl sl' Hxy2 Hrest].
  - cbn [foldr lines_ok]. by rewrite !append_nil_r.
  - destruct Hok as [Hx Hok]. destruct (IH Hok) as [Hok' Hcount].
    split; [split; [by apply He | done] |].
    cbn [foldr] in Hcount |- *.
    rewrite (count_port_line y), (count_port_line x) by auto. by rewrite Hc, Hcount.
Qed.

(** ** Reading with universal newlines *)

Lemma startswith_other (x c : ascii) (t p : string) :
  Ascii.eqb x c = false -> startswith (String x t) (String c p) = false.
Proof. intros H. cbn [startswith]. by rewrite H. Qed.

Lemma startswith_universal_newlines (p s : string) :
  has_char CR p = false -> has_char LF p = false ->
  startswith (universal_newlines s) p = startswith s p.
Proof.
  revert s. induction p as [| c p IH]; intros s Hcr Hlf.
  { by rewrite !startswith_nil. }
  cbn [has_char] in Hcr, Hlf.
  apply orb_false_iff in Hcr as [Hcr Hcr'], Hlf as [Hlf Hlf'].
  destruct s as [| a s]; [done |]. cbn [universal_newlines].
  destruct (Ascii.eqb a CR) eqn:Ha.
  - apply Ascii.eqb_eq in Ha as ->.
    rewrite (startswith_other CR c) by (by rewrite Ascii.eqb_sym).
    destruct s as [| b s]; [| destruct (Ascii.eqb b LF)];
      by rewrite (startswith_other LF c) by (by rewrite Ascii.eqb_sym).
  - cbn [startswith]. by rewrite IH.
Qed.

(** Universal newlines neither add nor remove an occurrence of a text
    without line ends. *)
Lemma count_universal_newlines (c : ascii) (p s : string) :
  has_char CR (String c p) = false -> has_char LF (String c p) = false ->
  count_at (String c p) (universal_newlines s) = count_at (String c p) s.
Proof.
  intros Hcr Hlf.
  assert (Ascii.eqb CR c = false /\ Ascii.eqb LF c = false) as [Hc Hl].
  { cbn [has_char] in Hcr, Hlf.
    apply orb_false_iff in Hcr as [Hcr _], Hlf as [Hlf _].
    by rewrite (Ascii.eqb_sym CR), (Ascii.eqb_sym LF). }
  assert (forall n s, String.length s <= n ->
            count_at (String c p) (universal_newlines s) = count_at (String c p) s) as H;
    [| by apply (H (String.length s))].
  clear s. induction n as [| n IH]; intros s Hn.
  { destruct s; [done | cbn [String.length] in Hn; lia]. }
  destruct s as [| a s]; [done |]. cbn [String.length] in Hn.
  cbn [universal_newlines]. destruct (Ascii.eqb a CR) eqn:Ha.
  - apply Ascii.eqb_eq in Ha as ->.
    destruct s as [| b s].
    + cbn [count_at]. by rewrite !startswith_other.
    + cbn [String.length] in Hn. destruct (Ascii.eqb b LF) eqn:Hb.
      * apply Ascii.eqb_eq in Hb as ->. cbn [count_at].
        rewrite !startswith_other by done. rewrite IH by lia. done.
      * change (count_at (String c p) (String LF (universal_newlines (String b s))))
          with ((if startswith (String LF (universal_newlines (String b s))) (String c p)
                 then 1 else 0)
                + count_at (String c p) (universal_newlines (String b s))).
        rewrite startswith_other by done. rewrite IH by (cbn [String.length]; lia).
        change (count_at (String c p) (String CR (String b s)))
          with ((if startswith (String CR (String b s)) (String c p) then 1 else 0)
                + count_at (String c p) (String b s)).
        by rewrite startswith_other.
  - cbn [count_at startswith]. rewrite IH by lia.
    rewrite startswith_universal_newlines; [done | |].
    + cbn [has_char] in Hcr. by apply orb_false_iff in Hcr as [_ ?].
    + cbn [has_char] in Hlf. by apply orb_false_iff in Hlf as [_ ?].
Qed.

(** The number of [PORT]s of the written text is that of the source. *)
Lemma io_lef_lines_count (text : string) (sl' : list string) :
  io_lef_lines (readlines (universal_newlines text)) = Ok sl' ->
  count_at "PORT" (writelines sl') = count_at "PORT" text.
Proof.
  intros H. apply io_lef_lines_keeps_ports in H.
  apply keeps_ports_writelines in H as [_ ->]; [| apply lines_ok_readlines].
  rewrite writelines_readlines. by apply count_universal_newlines.
Qed.

(** ** The IO LEF repair, from the source file to the destination file *)

Lemma setup_io_lefs_run (st st' : state) (text : string) :
  files st !! io_lef_source st = Some text ->
  io_lef_source st <> io_lef_dest st ->
  setup_io_lefs st = (st', Ok tt) ->
  exists sl',
    io_lef_lines (readlines (universal_newlines text)) = Ok sl'
    /\ files st' = <[io_lef_dest st := writelines sl']> (files st).
Proof.
  intros Hsrc Hne Hrun. unfold setup_io_lefs in Hrun.
  unfold io_lef_source, io_lef_dest, sky130A in *.
  rewrite run_get_setting in Hrun.
  destruct (db st !! "technology.sky130.sky130A") as [[p | b] |];
    [| discriminate Hrun ..].
  rewrite run_lift in Hrun. cbn [as_str] in Hrun.
  rewrite run_exists_path in Hrun. rewrite Hsrc in Hrun.
  rewrite bool_decide_eq_true_2 in Hrun by (by eexists).
  cbn [orb negb] in Hrun.
  rewrite run_get_cache_dir, run_open_w, run_read in Hrun.
  destruct st as [d fs ds tl cf ln us cd].
  cbn [files with_files cache_dir db] in *.
  rewrite lookup_insert_ne in Hrun by done. rewrite Hsrc in Hrun.
  rewrite run_lift in Hrun.
  destruct (io_lef_lines (readlines (universal_newlines text))) as [sl' |];
    [| discriminate Hrun].
  exists sl'. split; [done |].
  unfold write in Hrun. cbn [files with_files] in Hrun.
  injection Hrun as <-. unfold with_files. cbn [files db dirs tlefs].
  rewrite lookup_insert_eq. cbn [default]. by rewrite append_nil_l, insert_insert_eq.
Qed.

(** ** The PIN blocks of a plain text are the intervals the repair forms *)

Lemma lstrip_suffix (s : string) : exists w, s = w +:+ lstrip s.
Proof.
  induction s as [| a s [w IH]]; [by exists "" |]. cbn [lstrip].
  destruct (is_space a).
  - exists (String a w). by rewrite append_cons, <- IH.
  - by exists "".
Qed.

Lemma rstrip_prefix (s : string) : exists w, s = rstrip s +:+ w.
Proof.
  induction s as [| a s [w IH]]; [by exists "" |]. cbn [rstrip].
  destruct (rstrip s) as [| b r] eqn:Hr.
  - destruct (is_space a).
    + exists (String a s). by rewrite append_nil_l.
    + exists s. by rewrite append_cons, append_nil_l.
  - exists w. by rewrite append_cons, <- IH.
Qed.

Lemma strip_contains (x s : string) : strip s = x -> contains x s = true.
Proof.
  unfold strip. intros <-.
  destruct (lstrip_suffix s) as [w1 H1]. destruct (rstrip_prefix (lstrip s)) as [w2 H2].
  rewrite H1 at 2. rewrite H2 at 2. apply contains_middle.
Qed.

Lemma pin_line_contains (net line : string) :
  contains ("PIN " +:+ net) line = false -> pin_line net line = false.
Proof.
  intros H. unfold pin_line. apply bool_decide_eq_false_2. intros Hs.
  apply strip_contains in Hs. congruence.
Qed.

Lemma end_line_contains (net line : string) :
  contains ("END " +:+ net) line = false -> end_line net line = false.
Proof.
  intros H. unfold end_line. apply bool_decide_eq_false_2. intros Hs.
  apply strip_contains in Hs. congruence.
Qed.

Ltac order_cases :=
  repeat match goal with
         | |- context [?a <=? ?b] => destruct (Nat.leb_spec a b)
         | |- context [?a <? ?b] => destruct (Nat.ltb_spec a b)
         end;
  cbn [andb orb]; try lia; try done.

Lemma lookup_shift {A} (x : A) (l : list A) (i j : nat) :
  i < j -> (x :: l) !! (j - i) = l !! (j - S i).
Proof. intros H. by replace (j - i) with (S (j - S i)) by lia. Qed.

(** In a plain text the intervals the repair forms, with a block open
    since line [s] or with none open, cover a line once if it lies in a
    block and not at all otherwise. *)
Lemma pin_intervals_plain (net : string) (sl : list string) (i j s : nat) :
  (plain_pins net false sl = true ->
   covering (zip (where_from (contains ("PIN " +:+ net)) sl i)
                 (where_from (contains ("END " +:+ net)) sl i)) j
   = if (i <=? j) && default false (pin_block_lines net false sl !! (j - i)) then 1 else 0)
  /\ (plain_pins net true sl = true -> s < i ->
      covering (zip (s :: where_from (contains ("PIN " +:+ net)) sl i)
                    (where_from (contains ("END " +:+ net)) sl i)) j
      = if ((s <=? j) && (j <? i))
           || ((i <=? j) && default false (pin_block_lines net true sl !! (j - i)))
        then 1 else 0).
Proof.
  revert i s. induction sl as [| line sl IH]; intros i s.
  { split; [intros _ | intros [=]]. cbn. by rewrite andb_false_r. }
  destruct (IH (S i) i) as [IHout _]. destruct (IH (S i) s) as [_ IHin].
  cbn [plain_pins where_from pin_block_lines]. split.
  - intros Hp. apply andb_true_iff in Hp as [He Hp]. apply negb_true_iff in He.
    rewrite He. destruct (contains ("PIN " +:+ net) line) eqn:Hpin.
    + apply andb_true_iff in Hp as [Hline Hp]. rewrite Hline.
      destruct (IH (S i) i) as [_ IHopen]. rewrite IHopen by (done || lia).
      destruct (decide (j = i)) as [-> | Hne].
      * replace (i - i) with 0 by lia. cbn [lookup list_lookup default]. order_cases.
      * destruct (decide (i < j)) as [Hlt | Hge].
        -- rewrite lookup_shift by done. order_cases.
        -- order_cases.
    + rewrite (pin_line_contains _ _ Hpin). rewrite IHout by done.
      destruct (decide (j = i)) as [-> | Hne].
      * replace (i - i) with 0 by lia. cbn [lookup list_lookup default]. order_cases.
      * destruct (decide (i < j)) as [Hlt | Hge].
        -- rewrite lookup_shift by done. order_cases.
        -- order_cases.
  - intros Hp Hs. apply andb_true_iff in Hp as [Hpin Hp]. apply negb_true_iff in Hpin.
    rewrite Hpin. destruct (contains ("END " +:+ net) line) eqn:Hend.
    + apply andb_true_iff in Hp as [Hline Hp]. rewrite Hline.
      cbn [zip_with]. rewrite covering_cons, IHout by done.
      unfold in_interval. cbn [fst snd].
      destruct (decide (j = i)) as [-> | Hne].
      * replace (i - i) with 0 by lia. cbn [lookup list_lookup default]. order_cases.
      * destruct (decide (i < j)) as [Hlt | Hge].
        -- rewrite lookup_shift by done. order_cases.
        -- order_cases.
    + rewrite (end_line_contains _ _ Hend). rewrite IHin by (done || lia).
      destruct (decide (j = i)) as [-> | Hne].
      * replace (i - i) with 0 by lia. cbn [lookup list_lookup default]. order_cases.
      * destruct (decide (i < j)) as [Hlt | Hge].
        -- rewrite lookup_shift by done. order_cases.
        -- order_cases.
Qed.

Lemma pin_blocks_plain (net : string) (sl : list string) (j : nat) :
  plain_pins net false sl = true ->
  covering (pin_blocks sl net) j = if in_pin_block net sl j then 1 else 0.
Proof.
  intros Hp. unfold pin_blocks, enum_where, in_pin_block.
  destruct (pin_intervals_plain net sl 0 j 0) as [H _]. rewrite H by done.
  by rewrite Nat.sub_0_r.
Qed.

(** C8 (as amended). The IO LEF repair on a run that completes, for a
    source in which, for each of the nets [VCCD1] and [VSSD1], the words
    [PIN net] and [END net] occur only in the lines that open and close the
    PIN blocks of the net. With [sl] the lines of the source as read: a
    line of a PIN block of one of the two nets (from the line [PIN net] up to
    the line before [END net]) has the text

      PORT
            CLASS CORE ;

    in place of each [PORT] in it (the line [CLASS CORE ;] right after every
    occurrence), twice over if it lies in a block of each net, and a line of
    no block is unchanged. The spacer loop then runs on these lines and its
    result is what the destination file holds; the number of [PORT]s in the
    destination file is that of the source file. *)
Theorem C8_io_lef_class_core (st st' : state) (text : string) :
  files st !! io_lef_source st = Some text ->
  io_lef_source st <> io_lef_dest st ->
  setup_io_lefs st = (st', Ok tt) ->
  let sl := readlines (universal_newlines text) in
  plain_pins "VCCD1" false sl = true ->
  plain_pins "VSSD1" false sl = true ->
  exists sl',
    patch_cells (patch_nets sl) spacer_cells = Ok sl'
    /\ files st' !! io_lef_dest st = Some (writelines sl')
    /\ (forall i line, sl !! i = Some line ->
          patch_nets sl !! i
          = Some (match in_pin_block "VCCD1" sl i, in_pin_block "VSSD1" sl i with
                  | false, false => line
                  | true, true => insert_class_core (insert_class_core line)
                  | _, _ => insert_class_core line
                  end))
    /\ insert_class_core "" = ""
    /\ (forall t, insert_class_core ("PORT" +:+ t)
                  = "PORT" +:+ nl +:+ "      CLASS CORE ;" +:+ insert_class_core t)
    /\ (forall a s, startswith (String a s) "PORT" = false ->
          insert_class_core (String a s) = String a (insert_class_core s))
    /\ count_at "PORT" (writelines sl') = count_at "PORT" text.
Proof.
  intros Hsrc Hne Hrun sl Hvccd Hvssd.
  destruct (setup_io_lefs_run st st' text Hsrc Hne Hrun) as (sl' & Hlines & Hfiles).
  exists sl'. split.
  { unfold io_lef_lines in Hlines. fold sl in Hlines.
    destruct (patch_cells (patch_nets sl) spacer_cells) as [sl1 |]; [| discriminate Hlines].
    cbn in Hlines. by injection Hlines as ->. }
  split; [by rewrite Hfiles, lookup_insert_eq |].
  split.
  { intros i line Hi. rewrite patch_nets_lookup, Hi, covering_app.
    rewrite !pin_blocks_plain by done.
    by destruct (in_pin_block "VCCD1" sl i), (in_pin_block "VSSD1" sl i). }
  split; [reflexivity |].
  split.
  { intros t. rewrite insert_class_core_occurrence. unfold class_core.
    by rewrite !append_assoc. }
  split; [exact insert_class_core_other |].
  by apply io_lef_lines_count.
Qed.

Lemma C8_io_lef_class_core_witness :
  exists sl',
    files (setup_io_lefs patch_state).1 !! io_lef_dest patch_state = Some (writelines sl')
    /\ in_pin_block "VCCD1" (readlines (universal_newlines sample_io_lef)) 4 = true
    /\ patch_nets (readlines (universal_newlines sample_io_lef)) !! 4
       = Some ("    PORT" +:+ nl +:+ "      CLASS CORE ;" +:+ nl)
    /\ count_at "PORT" (writelines sl') = 3.
Proof.
  destruct (C8_io_lef_class_core patch_state (setup_io_lefs patch_state).1 sample_io_lef)
    as (sl' & _ & Hdest & Hline & _ & _ & _ & Hcount).
  - vm_compute. reflexivity.
  - vm_compute. intros E. discriminate E.
  - assert ((setup_io_lefs patch_state).2 = Ok tt) as H by (vm_compute; reflexivity).
    destruct (setup_io_lefs patch_state) as [s r]. cbn [fst snd] in *. by rewrite H.
  - vm_compute. reflexivity.
  - vm_compute. reflexivity.
  - exists sl'. split; [exact Hdest |]. split; [vm_compute; reflexivity |].
    split; [| exact Hcount].
    rewrite (Hline 4 ("    PORT" +:+ nl)); [| vm_compute; reflexivity].
    vm_compute. reflexivity.
Defined.

(** C8 as stated fails for a PIN block the repair does not pair: under a
    comment line that holds the words [END VCCD1], the line [PORT] of the
    block [PIN VCCD1] lies in a PIN block of the net, the repair completes,
    and the line is written as it was read, without [CLASS CORE ;] after its
    [PORT]; the destination holds no [CLASS CORE] at all. *)
Lemma C8_counterexample :
  readlines (universal_newlines commented_io_lef) !! 3 = Some ("  PIN VCCD1" +:+ nl)
  /\ readlines (universal_newlines commented_io_lef) !! 5 = Some ("    PORT" +:+ nl)
  /\ in_pin_block "VCCD1" (readlines (universal_newlines commented_io_lef)) 5 = true
  /\ (setup_io_lefs commented_state).2 = Ok tt
  /\ exists dest,
       files (setup_io_lefs commented_state).1 !! io_lef_dest commented_state = Some dest
       /\ readlines dest !! 5 = Some ("    PORT" +:+ nl)
       /\ readlines dest !! 6 = Some ("      LAYER met3 ;" +:+ nl)
       /\ contains "CLASS CORE" dest = false.
Proof.
  repeat split; try (vm_compute; reflexivity).
  eexists. split; [vm_compute; reflexivity |].
  repeat split; vm_compute; reflexivity.
Qed.

(** The repair of the sample IO LEF, evaluated: the [PORT] lines of the
    [VCCD1] and [VSSD1] blocks get the class line, the one of [VDDIO] does
    not, and the three spacers change class. *)
Example setup_io_lefs_sample :
  (setup_io_lefs patch_state).2 = Ok tt
  /\ files (setup_io_lefs patch_state).1 !! io_lef_dest patch_state = Some
"MACRO sky130_ef_io__vccd_lvc_clamped_pad
  CLASS PAD POWER ;
  PIN VCCD1
    USE POWER ;
    PORT
      CLASS CORE ;
      LAYER met3 ;
    END
  END VCCD1
  PIN VSSD1
    PORT
      CLASS CORE ;
      LAYER met3 ;
    END
  END VSSD1
  PIN VDDIO
    PORT
      LAYER met3 ;
    END
  END VDDIO
END sky130_ef_io__vccd_lvc_clamped_pad
MACRO sky130_ef_io__connect_vcchib_vccd_and_vswitch_vddio_slice_20um
  CLASS PAD SPACER ;
END sky130_ef_io__connect_vcchib_vccd_and_vswitch_vddio_slice_20um
MACRO sky130_ef_io__disconnect_vccd_slice_5um
  CLASS PAD SPACER ;
END sky130_ef_io__disconnect_vccd_slice_5um
MACRO sky130_ef_io__disconnect_vdda_slice_5um
  CLASS PAD SPACER ;
END sky130_ef_io__disconnect_vdda_slice_5um
".
Proof. split; vm_compute; reflexivity. Qed.

(** A source file with the pin block alone, without the three spacer
    macros: the spacer loop raises [IndexError] and the destination file,
    already opened for writing, is left empty. *)
Example setup_io_lefs_without_spacers :
  io_lef_lines (readlines
"  PIN VCCD1
    PORT
      LAYER met3 ;
    END
  END VCCD1
") = Raise IndexError.
Proof. vm_compute. reflexivity. Qed.

(** * Further properties of the patch jobs *)

(** ** Texts and their lines *)

Lemma has_char_app (c : ascii) (s t : string) :
  has_char c (s +:+ t) = has_char c s || has_char c t.
Proof.
  induction s as [| a s IH]; [by rewrite append_nil_l |].
  rewrite append_cons. cbn [has_char]. by rewrite IH, orb_assoc.
Qed.

(** ** Texts without carriage return *)

Lemma universal_newlines_id (s : string) :
  has_char CR s = false -> universal_newlines s = s.
Proof.
  induction s as [| a s IH]; [done |]. cbn [has_char universal_newlines].
  intros H. apply orb_false_iff in H as [Ha Hs]. rewrite Ha. by rewrite IH.
Qed.

Lemma universal_newlines_no_cr (s : string) : has_char CR (universal_newlines s) = false.
Proof.
  assert (forall n s, String.length s <= n -> has_char CR (universal_newlines s) = false)
    as H; [| by apply (H (String.length s))].
  clear s. induction n as [| n IH]; intros s Hn.
  { destruct s; [done | cbn [String.length] in Hn; lia]. }
  destruct s as [| a s]; [done |]. cbn [String.length] in Hn.
  cbn [universal_newlines]. destruct (Ascii.eqb a CR) eqn:Ha.
  - destruct s as [| b s]; [done |]. cbn [String.length] in Hn.
    destruct (Ascii.eqb b LF).
    + cbn [has_char]. rewrite IH by lia. done.
    + change (has_char CR (String LF (universal_newlines (String b s))))
        with (Ascii.eqb LF CR || has_char CR (universal_newlines (String b s))).
      rewrite IH by (cbn [String.length]; lia). done.
  - cbn [has_char]. rewrite Ha, IH by lia. done.
Qed.

Lemma has_char_replace (c : ascii) (old new s : string) :
  old <> "" -> has_char c new = false -> has_char c s = false ->
  has_char c (replace old new s) = false.
Proof.
  intros Hold Hnew. revert s.
  apply (replace_ind old (fun s => has_char c s = false
                                   -> has_char c (replace old new s) = false)); [done | | |].
  - intros _. destruct old; [done | reflexivity].
  - intros t IH. rewrite has_char_app. intros H. apply orb_false_iff in H as [_ Ht].
    rewrite replace_occurrence by done. rewrite has_char_app, Hnew. by apply IH.
  - intros a s Hs IH. cbn [has_char]. intros H. apply orb_false_iff in H as [Ha Hs'].
    rewrite replace_other by done. cbn [has_char]. rewrite Ha. by apply IH.
Qed.

(** A text has no line feed, or a first one. *)
Lemma first_line (text : string) :
  has_char LF text = false
  \/ exists s b, text = s +:+ String LF b /\ has_char LF s = false.
Proof.
  induction text as [| a text IH]; [by left |].
  cbn [has_char]. destruct (Ascii.eqb_spec a LF) as [-> | Ha].
  - right. exists "", text. by rewrite append_nil_l.
  - destruct IH as [IH | (s & b & -> & Hs)].
    + left. by rewrite IH.
    + right. exists (String a s), b. rewrite append_cons. split; [done |].
      cbn [has_char]. rewrite Hs. by destruct (Ascii.eqb_spec a LF).
Qed.

Lemma readlines_no_lf (a : ascii) (s : string) :
  has_char LF (String a s) = false -> readlines (String a s) = [String a s].
Proof.
  revert a. induction s as [| b s IH]; intros a H.
  - cbn [has_char] in H. apply orb_false_iff in H as [H _]. cbn [readlines]. by rewrite H.
  - cbn [has_char] in H. apply orb_false_iff in H as [Ha H].
    change (readlines (String a (String b s)))
      with (if Ascii.eqb a LF then nl :: readlines (String b s)
            else cons_line a (readlines (String b s))).
    rewrite Ha, IH; [done |]. exact H.
Qed.

Lemma readlines_line (s b : string) :
  has_char LF s = false ->
  readlines (s +:+ String LF b) = (s +:+ nl) :: readlines b.
Proof.
  induction s as [| a s IH]; intros H.
  - rewrite !append_nil_l. cbn [readlines]. by rewrite Ascii.eqb_refl.
  - cbn [has_char] in H. apply orb_false_iff in H as [Ha H].
    rewrite !append_cons. cbn [readlines]. by rewrite Ha, IH.
Qed.

(** Induction over a text, one line at a time. *)
Lemma lines_ind (P : string -> Prop) :
  P "" ->
  (forall a s, has_char LF (String a s) = false -> P (String a s)) ->
  (forall s b, has_char LF s = false -> P b -> P (s +:+ String LF b)) ->
  forall text, P text.
Proof.
  intros Hnil Hlast Hline text.
  remember (String.length text) as n eqn:Hn.
  revert text Hn. induction n as [n IH] using lt_wf_ind. intros text ->.
  destruct (first_line text) as [H | (s & b & -> & Hs)].
  - destruct text; [done | by apply Hlast].
  - apply Hline; [done |]. apply (IH (String.length b)); [| done].
    rewrite length_append. cbn [String.length]. lia.
Qed.

Lemma linewise_lines (f : string -> string) (text : string) :
  linewise f -> writelines (map f (readlines text)) = f text.
Proof.
  intros [Hnil Hline]. revert text. apply lines_ind.
  - by rewrite Hnil.
  - intros a s H. rewrite readlines_no_lf by done. unfold writelines.
    cbn [map foldr]. by rewrite append_nil_r.
  - intros s b Hs IH. rewrite readlines_line by done. unfold writelines in *.
    cbn [map foldr]. rewrite IH. unfold nl. by rewrite !Hline, Hnil, append_assoc.
Qed.

Lemma linewise_compose (f g : string -> string) :
  linewise f -> linewise g -> linewise (fun s => g (f s)).
Proof.
  intros [Hf1 Hf2] [Hg1 Hg2]. split; [by rewrite Hf1 | intros s b; by rewrite Hf2, Hg2].
Qed.

(** [str.replace] of a text without a line feed acts on every line by
    itself. *)
Lemma replace_linewise (old new : string) :
  old <> "" -> has_char LF old = false -> linewise (replace old new).
Proof.
  intros Hold Hlf. split; [by destruct old |].
  intros s b. revert s. apply (replace_ind old); [done | | |].
  - rewrite append_nil_l. destruct old as [| c q]; [done |].
    cbn [has_char] in Hlf. apply orb_false_iff in Hlf as [Hc _].
    rewrite replace_other; [by rewrite append_nil_l | done |].
    cbn [startswith]. rewrite Ascii.eqb_sym in Hc. by rewrite Hc.
  - intros t IH. rewrite append_assoc, !replace_occurrence by done.
    by rewrite IH, append_assoc.
  - intros a s Hs IH. rewrite append_cons, !replace_other, IH, ?append_cons; try done.
    rewrite <- append_cons. by rewrite startswith_lf.
Qed.

Lemma replace_same (old s : string) : old <> "" -> replace old old s = s.
Proof.
  intros Hold. revert s. apply (replace_ind old); [done | by destruct old | |].
  - intros t IH. by rewrite replace_occurrence, IH.
  - intros a s Hs IH. by rewrite replace_other, IH.
Qed.

(** ** A patch job whose source is missing *)

Lemma setup_cdl_missing (st : state) (a : string) :
  db st !! "technology.sky130.sky130A" = Some (SStr a) ->
  files st !! cdl_source st = None -> dirs st !! cdl_source st = None ->
  setup_cdl st = (st, Raise (FileNotFoundError ("CDL not found: " +:+ cdl_source st))).
Proof.
  intros Hdb Hf Hd. unfold cdl_source, sky130A in *. rewrite Hdb in Hf, Hd |- *.
  unfold setup_cdl. rewrite run_get_setting, Hdb, run_lift. cbn [as_str].
  rewrite run_get_library_name, run_exists_path, Hf, Hd.
  rewrite !bool_decide_eq_false_2 by (by intros [? ?]). reflexivity.
Qed.

Lemma setup_verilog_missing (st : state) (a : string) :
  db st !! "technology.sky130.sky130A" = Some (SStr a) ->
  files st !! verilog_source st = None -> dirs st !! verilog_source st = None ->
  setup_verilog st
  = (st, Raise (FileNotFoundError ("Verilog not found: " +:+ verilog_source st))).
Proof.
  intros Hdb Hf Hd. unfold verilog_source, sky130A in *. rewrite Hdb in Hf, Hd |- *.
  unfold setup_verilog. rewrite run_get_setting, Hdb, run_lift. cbn [as_str].
  rewrite run_get_library_name, run_exists_path, Hf, Hd.
  rewrite !bool_decide_eq_false_2 by (by intros [? ?]). reflexivity.
Qed.

Lemma setup_techlef_missing (st : state) (a : string) :
  db st !! "technology.sky130.sky130A" = Some (SStr a) ->
  files st !! techlef_source st = None -> dirs st !! techlef_source st = None ->
  setup_techlef st
  = (st, Raise (FileNotFoundError ("Tech-LEF not found: " +:+ techlef_source st))).
Proof.
  intros Hdb Hf Hd. unfold techlef_source, sky130A in *. rewrite Hdb in Hf, Hd |- *.
  unfold setup_techlef. rewrite run_get_setting, Hdb, run_lift. cbn [as_str].
  rewrite run_get_library_name, run_exists_path, Hf, Hd.
  rewrite !bool_decide_eq_false_2 by (by intros [? ?]). reflexivity.
Qed.

Lemma setup_io_lefs_missing (st : state) (a : string) :
  db st !! "technology.sky130.sky130A" = Some (SStr a) ->
  files st !! io_lef_source st = None -> dirs st !! io_lef_source st = None ->
  setup_io_lefs st
  = (st, Raise (FileNotFoundError ("IO LEF not found: " +:+ io_lef_source st))).
Proof.
  intros Hdb Hf Hd. unfold io_lef_source, sky130A in *. rewrite Hdb in Hf, Hd |- *.
  unfold setup_io_lefs. rewrite run_get_setting, Hdb, run_lift. cbn [as_str].
  rewrite run_exists_path, Hf, Hd.
  rewrite !bool_decide_eq_false_2 by (by intros [? ?]). reflexivity.
Qed.


(** ** What the CDL job writes *)

Lemma cdl_device_names_run (st : state) :
  cdl_device_names st =
    match db st !! "vlsi.core.lvs_tool" with
    | Some tool => (st, Ok (device_names tool))
    | None => (st, Raise (KeyError "vlsi.core.lvs_tool"))
    end.
Proof.
  unfold cdl_device_names, device_names. rewrite run_get_setting.
  destruct (db st !! "vlsi.core.lvs_tool") as [tool |] eqn:Htool; [| done].
  destruct (bool_decide (tool = SStr "hammer.lvs.calibre")); [done |].
  rewrite run_get_setting, Htool.
  by destruct (bool_decide (tool = SStr "hammer.lvs.netgen")).
Qed.

Lemma cdl_line_linewise (pmos nmos : string) : linewise (cdl_line pmos nmos).
Proof.
  unfold cdl_line.
  apply (linewise_compose (replace "pfet_01v8_hvt" pmos) (replace "nfet_01v8" nmos));
    by apply replace_linewise.
Qed.

(** X2. When [setup_cdl] completes, the destination holds the line
    [*.SCALE MICRON] followed by the source text, read with universal
    newlines, in which every [pfet_01v8_hvt] and then every [nfet_01v8] is
    replaced by the device name of the LVS tool, and no other file is
    written; with an LVS tool other than Calibre and Netgen the text read
    follows the first line unchanged. *)
Theorem X2_setup_cdl_output (st st' : state) (text : string) :
  files st !! cdl_source st = Some text ->
  cdl_source st <> cdl_dest st ->
  setup_cdl st = (st', Ok tt) ->
  exists tool,
    db st !! "vlsi.core.lvs_tool" = Some tool
    /\ files st'
       = <[cdl_dest st :=
             "*.SCALE MICRON" +:+ nl
             +:+ replace "nfet_01v8" (device_names tool).2
                   (replace "pfet_01v8_hvt" (device_names tool).1
                      (universal_newlines text))]> (files st)
    /\ (tool <> SStr "hammer.lvs.calibre" -> tool <> SStr "hammer.lvs.netgen" ->
        files st' !! cdl_dest st
        = Some ("*.SCALE MICRON" +:+ nl +:+ universal_newlines text)).
Proof.
  intros Hsrc Hne Hrun. unfold setup_cdl in Hrun.
  unfold cdl_source, cdl_dest, sky130A in *.
  rewrite run_get_setting in Hrun.
  destruct (db st !! "technology.sky130.sky130A") as [[p | b] |];
    [| discriminate Hrun ..].
  rewrite run_lift in Hrun. cbn [as_str] in Hrun.
  rewrite run_get_library_name, run_exists_path, Hsrc in Hrun.
  rewrite bool_decide_eq_true_2 in Hrun by (by eexists).
  cbn [orb negb] in Hrun.
  rewrite run_get_cache_dir, run_bind, cdl_device_names_run in Hrun.
  destruct (db st !! "vlsi.core.lvs_tool") as [tool |] eqn:Htool; [| discriminate Hrun].
  exists tool. split; [done |].
  destruct (device_names tool) as [pmos nmos] eqn:Hnames.
  rewrite run_open_w, run_read in Hrun.
  destruct st as [d fs ds tl cf ln us cd].
  cbn [files with_files cache_dir db library_name] in *.
  unfold with_files in Hrun. cbn [files db dirs tlefs] in Hrun.
  rewrite lookup_insert_ne in Hrun by done. rewrite Hsrc in Hrun.
  rewrite run_write in Hrun. unfold write, with_files in Hrun.
  cbn [files db dirs tlefs] in Hrun.
  injection Hrun as <-. cbn [files fst snd].
  rewrite !lookup_insert_eq. cbn [default].
  rewrite !insert_insert_eq, append_nil_l.
  rewrite (linewise_lines _ _ (cdl_line_linewise pmos nmos)).
  unfold cdl_line. rewrite <- append_assoc.
  split; [done |].
  intros Hc Hn. unfold device_names in Hnames.
  rewrite !bool_decide_eq_false_2 in Hnames by done.
  injection Hnames as <- <-. by rewrite !replace_same.
Qed.

Lemma X2_setup_cdl_output_witness :
  files (setup_cdl patch_state).1 !! cdl_dest patch_state = Some
"*.SCALE MICRON
.SUBCKT sky130_fd_sc_hd__inv_1 A VGND VNB VPB VPWR Y
MMIN1 Y A VGND VNB nshort m=1 w=0.65 l=0.15
MMIP1 Y A VPWR VPB phighvt m=1 w=1.0 l=0.15
.ENDS
".
Proof.
  destruct (X2_setup_cdl_output patch_state (setup_cdl patch_state).1 sample_cdl)
    as (tool & Htool & Hfiles & _).
  - vm_compute. reflexivity.
  - vm_compute. intros E. discriminate E.
  - assert ((setup_cdl patch_state).2 = Ok tt) as H by (vm_compute; reflexivity).
    destruct (setup_cdl patch_state) as [s r]. cbn [fst snd] in *. by rewrite H.
  - rewrite Hfiles, lookup_insert_eq.
    assert (tool = SStr "hammer.lvs.calibre") as ->.
    { vm_compute in Htool. by injection Htool as <-. }
    vm_compute. reflexivity.
Defined.

(** ** What the Verilog job writes *)

Lemma verilog_line_linewise : linewise verilog_line.
Proof.
  unfold verilog_line.
  apply (linewise_compose (replace "wire 1" "// wire 1")
           (replace "`endif SKY130_FD_SC_HD__LPFLOW_BLEEDER_FUNCTIONAL_V"
                    "`endif // SKY130_FD_SC_HD__LPFLOW_BLEEDER_FUNCTIONAL_V"));
    by apply replace_linewise.
Qed.

Lemma verilog_line_read (text : string) :
  universal_newlines (verilog_line (universal_newlines text))
  = verilog_line (universal_newlines text).
Proof.
  apply universal_newlines_id. unfold verilog_line.
  apply has_char_replace; [done | done |].
  apply has_char_replace; [done | done |]. apply universal_newlines_no_cr.
Qed.

(** X3. When [setup_verilog] completes, exactly two files are written. The
    library Verilog destination holds the lines that the excision of the
    specify block and the harmonisation leave of the first-pass text, which
    is the source text, read with universal newlines, with [wire 1]
    commented out and the stray [`endif] label commented out, everywhere;
    reading the first-pass text back changes nothing in it. The destination
    of [primitives.v] holds its source as read with every
    [`default_nettype none] replaced by [`default_nettype wire]. *)
Theorem X3_setup_verilog_output (st st' : state) (vtext ptext : string) :
  files st !! verilog_source st = Some vtext ->
  files st !! primitives_source st = Some ptext ->
  verilog_source st <> verilog_dest st ->
  primitives_source st <> verilog_dest st ->
  primitives_source st <> primitives_dest st ->
  setup_verilog st = (st', Ok tt) ->
  exists sl1 sl2,
    hack_specify (readlines (verilog_line (universal_newlines vtext))) = Ok sl1
    /\ harmonize sl1 = Ok sl2
    /\ files st'
       = <[primitives_dest st :=
             replace "`default_nettype none" "`default_nettype wire"
               (universal_newlines ptext)]>
           (<[verilog_dest st := writelines sl2]> (files st)).
Proof.
  intros Hv Hp Hne1 Hne2 Hne3 Hrun. unfold setup_verilog in Hrun.
  unfold verilog_source, verilog_dest, primitives_source, primitives_dest, sky130A in *.
  rewrite run_get_setting in Hrun.
  destruct (db st !! "technology.sky130.sky130A") as [[p | b] |];
    [| discriminate Hrun ..].
  rewrite run_lift in Hrun. cbn [as_str] in Hrun.
  rewrite run_get_library_name, run_exists_path, Hv in Hrun.
  rewrite bool_decide_eq_true_2 in Hrun by (by eexists).
  cbn [orb negb] in Hrun.
  rewrite run_get_cache_dir, run_open_w, run_read in Hrun.
  destruct st as [d fs ds tl cf ln us cd].
  unfold with_files in Hrun.
  cbn [files cache_dir db library_name dirs tlefs config use_sram22] in *.
  rewrite lookup_insert_ne in Hrun by done. rewrite Hv in Hrun.
  rewrite run_write, run_read in Hrun. unfold with_files in Hrun.
  cbn [files cache_dir db library_name dirs tlefs config use_sram22] in Hrun.
  rewrite !lookup_insert_eq in Hrun. cbn [default] in Hrun.
  rewrite append_nil_l, (linewise_lines _ _ verilog_line_linewise) in Hrun.
  rewrite verilog_line_read, run_lift in Hrun.
  destruct (hack_specify (readlines (verilog_line (universal_newlines vtext))))
    as [sl1 |] eqn:Hsl1; [| discriminate Hrun].
  rewrite run_lift in Hrun.
  destruct (harmonize sl1) as [sl2 |] eqn:Hsl2; [| discriminate Hrun].
  exists sl1, sl2. split; [done |]. split; [done |].
  rewrite run_open_w, run_write, run_exists_path in Hrun. unfold with_files in Hrun.
  cbn [files cache_dir db library_name dirs tlefs config use_sram22] in Hrun.
  rewrite !insert_insert_eq, lookup_insert_eq in Hrun. cbn [default id] in Hrun.
  rewrite ?insert_insert_eq, ?append_nil_l in Hrun.
  rewrite lookup_insert_ne, Hp in Hrun by done.
  rewrite bool_decide_eq_true_2 in Hrun by (by eexists).
  cbn [orb negb] in Hrun.
  rewrite run_open_w, run_read in Hrun. unfold with_files in Hrun.
  cbn [files cache_dir db library_name dirs tlefs config use_sram22] in Hrun.
  rewrite lookup_insert_ne in Hrun by done.
  rewrite lookup_insert_ne, Hp in Hrun by done.
  unfold write, with_files in Hrun. cbn [files cache_dir db library_name dirs tlefs config use_sram22] in Hrun.
  injection Hrun as <-. cbn [files].
  rewrite lookup_insert_eq. cbn [default].
  rewrite insert_insert_eq, append_nil_l.
  by rewrite linewise_lines by (by apply replace_linewise).
Qed.

Lemma X3_setup_verilog_output_witness :
  files (setup_verilog patch_state).1 !! primitives_dest patch_state = Some
"`default_nettype wire
primitive sky130_fd_sc_hd__udp_mux_2to1 (X, A0, A1, S);
endprimitive
".
Proof.
  destruct (X3_setup_verilog_output patch_state (setup_verilog patch_state).1
              sample_verilog sample_primitives)
    as (sl1 & sl2 & _ & _ & Hfiles).
  - vm_compute. reflexivity.
  - vm_compute. reflexivity.
  - vm_compute. intros E. discriminate E.
  - vm_compute. intros E. discriminate E.
  - vm_compute. intros E. discriminate E.
  - assert ((setup_verilog patch_state).2 = Ok tt) as H by (vm_compute; reflexivity).
    destruct (setup_verilog patch_state) as [s r]. cbn [fst snd] in *. by rewrite H.
  - rewrite Hfiles, lookup_insert_eq. vm_compute. reflexivity.
Defined.

(** ** A source that does not exist *)

Lemma setup_verilog_primitives_missing (st : state) (a vtext : string) (sl1 : list string) :
  db st !! "technology.sky130.sky130A" = Some (SStr a) ->
  files st !! verilog_source st = Some vtext ->
  verilog_source st <> verilog_dest st ->
  primitives_source st <> verilog_dest st ->
  hack_specify (readlines (verilog_line (universal_newlines vtext))) = Ok sl1 ->
  files st !! primitives_source st = None -> dirs st !! primitives_source st = None ->
  setup_verilog st
  = (with_files (insert (verilog_dest st) (writelines (harmonize_pass None sl1))) st,
     Raise (FileNotFoundError ("Verilog not found: " +:+ primitives_source st))).
Proof.
  intros Hdb Hv Hne1 Hne2 Hs1 Hpf Hpd. unfold setup_verilog.
  unfold verilog_source, verilog_dest, primitives_source, sky130A in *.
  rewrite Hdb in Hv, Hne1, Hne2, Hpf, Hpd |- *.
  rewrite run_get_setting, Hdb, run_lift. cbn [as_str].
  rewrite run_get_library_name, run_exists_path, Hv.
  rewrite bool_decide_eq_true_2 by (by eexists). cbn [orb negb].
  rewrite run_get_cache_dir, run_open_w, run_read.
  destruct st as [d fs ds tl cf ln us cd]. unfold with_files.
  cbn [files cache_dir db library_name dirs tlefs config use_sram22] in *.
  rewrite lookup_insert_ne by done. rewrite Hv.
  rewrite run_write, run_read. unfold with_files.
  cbn [files cache_dir db library_name dirs tlefs config use_sram22].
  rewrite !lookup_insert_eq. cbn [default].
  rewrite append_nil_l, (linewise_lines _ _ verilog_line_linewise).
  rewrite verilog_line_read, run_lift, Hs1, run_lift, harmonize_is_pass.
  rewrite run_open_w, run_write, run_exists_path. unfold with_files.
  cbn [files cache_dir db library_name dirs tlefs config use_sram22].
  rewrite !insert_insert_eq, lookup_insert_eq. cbn [default id].
  rewrite ?insert_insert_eq, ?append_nil_l.
  rewrite lookup_insert_ne by done. rewrite Hpf, Hpd.
  rewrite !bool_decide_eq_false_2 by (by intros [? ?]). reflexivity.
Qed.

(** X1. A patch job whose source file does not exist raises
    [FileNotFoundError] with the path it looked for, written as [pathlib]
    writes it, before it opens its destination: the technology object and
    the file system are as they were. The Verilog job looks for its second
    source, [primitives.v], only after it has written the library Verilog:
    when that one is missing the same error is raised with its path, and the
    first destination stays written. *)
Theorem X1_missing_source_raises (st : state) (a : string) :
  db st !! "technology.sky130.sky130A" = Some (SStr a) ->
  (files st !! cdl_source st = None -> dirs st !! cdl_source st = None ->
   setup_cdl st = (st, Raise (FileNotFoundError ("CDL not found: " +:+ cdl_source st))))
  /\ (files st !! verilog_source st = None -> dirs st !! verilog_source st = None ->
      setup_verilog st
      = (st, Raise (FileNotFoundError ("Verilog not found: " +:+ verilog_source st))))
  /\ (forall vtext sl1,
        files st !! verilog_source st = Some vtext ->
        verilog_source st <> verilog_dest st ->
        primitives_source st <> verilog_dest st ->
        hack_specify (readlines (verilog_line (universal_newlines vtext))) = Ok sl1 ->
        files st !! primitives_source st = None ->
        dirs st !! primitives_source st = None ->
        setup_verilog st
        = (with_files
             (insert (verilog_dest st) (writelines (harmonize_pass None sl1))) st,
           Raise (FileNotFoundError ("Verilog not found: " +:+ primitives_source st))))
  /\ (files st !! techlef_source st = None -> dirs st !! techlef_source st = None ->
      setup_techlef st
      = (st, Raise (FileNotFoundError ("Tech-LEF not found: " +:+ techlef_source st))))
  /\ (files st !! io_lef_source st = None -> dirs st !! io_lef_source st = None ->
      setup_io_lefs st
      = (st, Raise (FileNotFoundError ("IO LEF not found: " +:+ io_lef_source st)))).
Proof.
  intros Hdb. split; [| split; [| split; [| split]]].
  - by apply setup_cdl_missing with a.
  - by apply setup_verilog_missing with a.
  - intros vtext sl1 Hv Hne1 Hne2 Hs1 Hpf Hpd.
    by apply setup_verilog_primitives_missing with a vtext.
  - by apply setup_techlef_missing with a.
  - by apply setup_io_lefs_missing with a.
Qed.

Lemma X1_missing_source_raises_witness :
  setup_cdl (with_files (fun _ => ∅) unnormalised_state)
  = (with_files (fun _ => ∅) unnormalised_state,
     Raise (FileNotFoundError
       "CDL not found: /pdk/sky130A/libs.ref/sky130_fd_sc_hd/cdl/sky130_fd_sc_hd.cdl"))
  /\ (setup_verilog (with_files (delete (primitives_source patch_state)) patch_state)).2
     = Raise (FileNotFoundError
         "Verilog not found: /pdk/sky130A/libs.ref/sky130_fd_sc_hd/verilog/primitives.v")
  /\ is_Some (files (setup_verilog
                       (with_files (delete (primitives_source patch_state)) patch_state)).1
                !! verilog_dest patch_state).
Proof.
  split.
  - destruct (X1_missing_source_raises (with_files (fun _ => ∅) unnormalised_state)
                "/pdk//sky130A/./")
      as (Hcdl & _); [vm_compute; reflexivity |].
    rewrite Hcdl; [reflexivity | vm_compute; reflexivity ..].
  - destruct (X1_missing_source_raises
                (with_files (delete (primitives_source patch_state)) patch_state)
                "/pdk/sky130A")
      as (_ & _ & Hprim & _); [vm_compute; reflexivity |].
    destruct (hack_specify (readlines (verilog_line (universal_newlines sample_verilog))))
      as [sl1 |] eqn:Hs1; [| vm_compute in Hs1; discriminate Hs1].
    rewrite (Hprim sample_verilog sl1); [| try (vm_compute; reflexivity) ..].
    + split; [reflexivity |]. cbn [fst]. rewrite with_files_files, lookup_insert_eq.
      by eexists.
    + vm_compute. intros E. discriminate E.
    + vm_compute. intros E. discriminate E.
    + exact Hs1.
Defined.

(** ** What the technology LEF job writes *)

Lemma techlef_lines_length (sl : list string) :
  String.length (writelines (map techlef_line sl))
  = String.length (writelines sl)
    + length (filter (fun line => is_end_pwell line = true) sl)
      * String.length _the_tlef_edit.
Proof.
  unfold writelines. induction sl as [| line sl IH]; [done |].
  cbn [map foldr]. rewrite filter_cons, !length_append, IH.
  unfold techlef_line, is_end_pwell.
  destruct (bool_decide_reflect (strip line = "END pwell")) as [Hp | Hp].
  - rewrite decide_True by done. cbn [length]. rewrite length_append. lia.
  - rewrite decide_False by done. lia.
Qed.

Lemma techlef_lines_copy (sl : list string) :
  length (filter (fun line => is_end_pwell line = true) sl) = 0 ->
  map techlef_line sl = sl.
Proof.
  induction sl as [| line sl IH]; [done |]. rewrite filter_cons.
  unfold techlef_line, is_end_pwell in *.
  destruct (bool_decide_reflect (strip line = "END pwell")) as [Hp | Hp].
  - rewrite decide_True by done. discriminate.
  - rewrite decide_False by done. intros H. cbn [map].
    rewrite bool_decide_eq_false_2 by done. by rewrite IH.
Qed.

(** X4. When [setup_techlef] completes, only the destination is written. It
    holds the lines of the source, read with universal newlines, in their
    order, each line that reads [END pwell] (white space at its ends apart)
    followed by the [licon] section: the text read grows by the length of
    that section once per such line, and a text without such a line is
    written as it was read. *)
Theorem X4_setup_techlef_output (st st' : state) (text : string) :
  files st !! techlef_source st = Some text ->
  techlef_source st <> techlef_dest st ->
  setup_techlef st = (st', Ok tt) ->
  let read := universal_newlines text in
  exists text',
    files st' = <[techlef_dest st := text']> (files st)
    /\ text' = writelines (map techlef_line (readlines read))
    /\ String.length text'
       = String.length read + pwell_lines read * String.length _the_tlef_edit
    /\ (pwell_lines read = 0 -> text' = read).
Proof.
  intros Hsrc Hne Hrun. unfold setup_techlef in Hrun.
  unfold techlef_source, techlef_dest, sky130A in *.
  rewrite run_get_setting in Hrun.
  destruct (db st !! "technology.sky130.sky130A") as [[p | b] |];
    [| discriminate Hrun ..].
  rewrite run_lift in Hrun. cbn [as_str] in Hrun.
  rewrite run_get_library_name, run_exists_path, Hsrc in Hrun.
  rewrite bool_decide_eq_true_2 in Hrun by (by eexists).
  cbn [orb negb] in Hrun.
  rewrite run_get_cache_dir, run_open_w, run_read in Hrun.
  destruct st as [d fs ds tl cf ln us cd].
  unfold with_files in Hrun.
  cbn [files cache_dir db library_name dirs tlefs config use_sram22] in *.
  rewrite lookup_insert_ne in Hrun by done. rewrite Hsrc in Hrun.
  unfold write, with_files in Hrun. cbn [files cache_dir db library_name dirs tlefs config use_sram22] in Hrun.
  injection Hrun as <-. cbn [files].
  rewrite lookup_insert_eq. cbn [default]. rewrite insert_insert_eq, append_nil_l.
  eexists. split; [done |]. split; [done |]. unfold pwell_lines. split.
  - by rewrite techlef_lines_length, writelines_readlines.
  - intros H. by rewrite techlef_lines_copy, writelines_readlines.
Qed.

Lemma X4_setup_techlef_output_witness :
  files (setup_techlef patch_state).1 !! techlef_dest patch_state = Some
"LAYER pwell
  TYPE MASTERSLICE ;
END pwell

LAYER licon
  TYPE CUT ;
END licon
LAYER li1
  TYPE ROUTING ;
END li1
".
Proof.
  destruct (X4_setup_techlef_output patch_state (setup_techlef patch_state).1 sample_tlef)
    as (text' & Hfiles & -> & _).
  - vm_compute. reflexivity.
  - vm_compute. intros E. discriminate E.
  - assert ((setup_techlef patch_state).2 = Ok tt) as H by (vm_compute; reflexivity).
    destruct (setup_techlef patch_state) as [s r]. cbn [fst snd] in *. by rewrite H.
  - rewrite Hfiles, lookup_insert_eq. vm_compute. reflexivity.
Defined.

(** ** Replacement away from a pattern *)

Lemma startswith_incompatible (a q x : string) :
  compatible a q = false -> startswith (a +:+ x) q = false.
Proof.
  unfold compatible. revert q. induction a as [| c a IH]; intros q H.
  - apply orb_false_iff in H as [_ H]. by rewrite startswith_nil in H.
  - destruct q as [| d q]; [by rewrite startswith_nil in H |].
    rewrite append_cons. cbn [startswith] in *.
    destruct (Ascii.eqb c d) eqn:Hcd; [| done].
    rewrite Ascii.eqb_sym, Hcd in H. by apply IH.
Qed.

Lemma contains_skip (a pat x : string) :
  forallb (fun a' => negb (compatible a' pat)) (suffixes a) = true ->
  contains pat (a +:+ x) = contains pat x.
Proof.
  induction a as [| c a IH]; intros H; [by rewrite append_nil_l |].
  cbn [suffixes forallb] in H. apply andb_true_iff in H as [Hc H].
  apply negb_true_iff in Hc.
  transitivity (startswith (String c a +:+ x) pat || contains pat (a +:+ x)).
  { rewrite append_cons. reflexivity. }
  by rewrite startswith_incompatible, IH.
Qed.

Lemma startswith_replace_apart (old new q s : string) :
  old <> "" ->
  forallb (fun q' => negb (compatible old q')) (suffixes q) = true ->
  forallb (fun q' => negb (compatible new q')) (suffixes q) = true ->
  startswith (replace old new s) q = startswith s q.
Proof.
  intros Hold. revert s. induction q as [| d q IH]; intros s Ho Hn.
  { by rewrite !startswith_nil. }
  cbn [suffixes forallb] in Ho, Hn.
  apply andb_true_iff in Ho as [Ho1 Ho]. apply andb_true_iff in Hn as [Hn1 Hn].
  apply negb_true_iff in Ho1, Hn1.
  revert s. apply (replace_ind old); [done | by destruct old | |].
  - intros t _. rewrite replace_occurrence by done.
    by rewrite !startswith_incompatible.
  - intros a s Hs _. rewrite replace_other by done.
    cbn [startswith]. by rewrite IH.
Qed.

(** Replacing [old] by [new] neither makes nor removes an occurrence of a
    pattern that can touch neither of them. *)
Lemma contains_replace_apart (old new pat s : string) :
  old <> "" -> no_overlap old pat = true -> no_overlap new pat = true ->
  contains pat (replace old new s) = contains pat s.
Proof.
  intros Hold [Ho1 Ho2]%andb_true_iff [Hn1 Hn2]%andb_true_iff.
  revert s. apply (replace_ind old); [done | by destruct old | |].
  - intros t IH. rewrite replace_occurrence by done.
    by rewrite !contains_skip, IH.
  - intros a s Hs IH.
    pose proof (startswith_replace_apart old new pat (String a s) Hold Ho2 Hn2) as Hsw.
    rewrite replace_other in Hsw |- * by done.
    cbn [contains]. by rewrite Hsw, IH.
Qed.

(** ** The spacer cells of the IO LEF *)

Lemma where_from_insert (P : string -> bool) (sl : list string) (k : nat)
    (x y : string) :
  sl !! k = Some x -> P y = P x ->
  enum_where P (<[k := y]> sl) = enum_where P sl.
Proof.
  intros Hk Hxy. unfold enum_where. apply where_from_ext.
  rewrite <- (list_insert_id sl k x) at 2 by done.
  apply Forall2_insert; [| done].
  clear. induction sl; by constructor.
Qed.

Lemma patch_cell_run (sl : list string) (cell : string) :
  patch_cell sl cell =
    match macro_header sl cell with
    | Some i =>
        match sl !! (i + 1) with
        | Some line => Ok (<[i + 1 := spacer_line line]> sl)
        | None => Raise IndexError
        end
    | None => Raise IndexError
    end.
Proof.
  unfold patch_cell, macro_header, py_index. rewrite <- head_lookup.
  destruct (head _) as [i |]; [| done]. cbn.
  by destruct (sl !! (i + 1)).
Qed.

Lemma spacer_line_header (cell line : string) :
  plain_header cell = true ->
  contains ("MACRO " +:+ cell) (spacer_line line) = contains ("MACRO " +:+ cell) line.
Proof.
  unfold plain_header. rewrite !andb_true_iff. intros [[[H1 H2] _] _].
  by apply contains_replace_apart.
Qed.

Lemma insert_class_core_header (cell line : string) :
  plain_header cell = true ->
  contains ("MACRO " +:+ cell) (insert_class_core line)
  = contains ("MACRO " +:+ cell) line.
Proof.
  unfold plain_header. rewrite !andb_true_iff. intros [[_ H3] H4].
  by apply contains_replace_apart.
Qed.

Lemma occurrences_cons (j k : nat) (l : list nat) :
  occurrences j (k :: l) = (if bool_decide (k = j) then 1 else 0) + occurrences j l.
Proof.
  unfold occurrences. rewrite filter_cons.
  destruct (decide (k = j)) as [-> | Hne].
  - by rewrite bool_decide_eq_true_2.
  - by rewrite bool_decide_eq_false_2.
Qed.

Lemma spacer_targets_cons (sl : list string) (cell : string) (cells : list string) :
  spacer_targets sl (cell :: cells) =
    match macro_header sl cell with
    | Some i => (i + 1) :: spacer_targets sl cells
    | None => spacer_targets sl cells
    end.
Proof. unfold spacer_targets. cbn. by destruct (macro_header sl cell). Qed.

(** The spacer loop on lines that have the macro headers of [sl0]. *)
Lemma patch_cells_run (cells : list string) (sl0 sl : list string) :
  Forall (fun cell => plain_header cell = true) cells ->
  same_headers cells sl0 sl ->
  (Forall (spacer_ok sl0) cells
   /\ exists sl', patch_cells sl cells = Ok sl'
        /\ forall j, sl' !! j
             = Nat.iter (occurrences j (spacer_targets sl0 cells)) spacer_line <$> sl !! j)
  \/ (~ Forall (spacer_ok sl0) cells /\ patch_cells sl cells = Raise IndexError).
Proof.
  revert sl. induction cells as [| cell cells IH]; intros sl Hplain Hsame.
  { left. split; [constructor |]. exists sl. split; [done |].
    intros j. by destruct (sl !! j). }
  apply Forall_cons in Hplain as [Hcell Hplain].
  destruct Hsame as [Hlen Hhead].
  assert (macro_header sl cell = macro_header sl0 cell) as Hm.
  { unfold macro_header. rewrite Hhead; [done | left]. }
  cbn [patch_cells]. rewrite patch_cell_run, Hm.
  destruct (macro_header sl0 cell) as [i |] eqn:Hi.
  2:{ right. split; [| done]. intros Hall. apply Forall_cons in Hall as [(i & Hc & _) _].
      congruence. }
  destruct (sl !! (i + 1)) as [line |] eqn:Hline.
  2:{ right. split; [| done]. intros Hall. apply Forall_cons in Hall as [(i' & Hc & Hlt) _].
      apply lookup_ge_None in Hline. assert (i' = i) by congruence. subst. lia. }
  assert (spacer_ok sl0 cell) as Hok.
  { exists i. split; [done |]. apply lookup_lt_Some in Hline. lia. }
  change (Ok (<[i + 1 := spacer_line line]> sl) ≫= (fun sl => patch_cells sl cells))
    with (patch_cells (<[i + 1 := spacer_line line]> sl) cells).
  destruct (IH (<[i + 1 := spacer_line line]> sl) Hplain) as [[Hall Hrun] | [Hnot Hrun]].
  - split; [by rewrite length_insert |].
    intros c Hc. rewrite <- Hhead by (by right).
    apply where_from_insert with line; [done |].
    apply spacer_line_header.
    by apply (proj1 (Forall_forall _ _) Hplain).
  - left. split; [by constructor |].
    destruct Hrun as (sl' & Hrun & Hlook). exists sl'. split; [by rewrite Hrun |].
    intros j. rewrite Hlook, spacer_targets_cons, Hi, occurrences_cons.
    destruct (bool_decide_reflect (i + 1 = j)) as [<- | Hne].
    + rewrite list_lookup_insert_eq by (by eapply lookup_lt_Some).
      rewrite Hline. cbn [fmap option_fmap option_map Nat.add]. f_equal.
      by rewrite Nat.iter_succ_r.
    + by rewrite list_lookup_insert_ne.
  - right. split; [| by rewrite Hrun].
    intros Hall'. apply Forall_cons in Hall' as [_ Hall']. done.
Qed.

Lemma patch_nets_same_headers (cells sl : list string) :
  Forall (fun cell => plain_header cell = true) cells ->
  same_headers cells sl (patch_nets sl).
Proof.
  intros Hplain.
  assert (forall cell, cell ∈ cells ->
            Forall2 (fun x y => contains ("MACRO " +:+ cell) x = contains ("MACRO " +:+ cell) y)
              (patch_nets sl) sl) as H.
  { intros cell Hc. apply Forall2_lookup. intros j. rewrite patch_nets_lookup.
    destruct (sl !! j) as [line |]; cbn; constructor.
    apply iter_stable. intros s. apply insert_class_core_header.
    by apply (proj1 (Forall_forall _ _) Hplain). }
  split.
  - pose proof (Forall2_length _ _ _ (patch_nets_keeps_ports sl)) as Hlen. by symmetry.
  - intros cell Hc. by apply where_from_ext, H.
Qed.

Lemma spacer_cells_plain : Forall (fun cell => plain_header cell = true) spacer_cells.
Proof. repeat constructor. Qed.

(** The lines the IO LEF job writes, or the exception it raises. *)
Lemma io_lef_lines_run (sl : list string) :
  (Forall (spacer_ok sl) spacer_cells
   /\ exists sl', io_lef_lines sl = Ok sl'
        /\ forall j, sl' !! j
             = Nat.iter (occurrences j (spacer_targets sl spacer_cells)) spacer_line
                 <$> patch_nets sl !! j)
  \/ (~ Forall (spacer_ok sl) spacer_cells /\ io_lef_lines sl = Raise IndexError).
Proof.
  unfold io_lef_lines.
  destruct (patch_cells_run spacer_cells sl (patch_nets sl) spacer_cells_plain
              (patch_nets_same_headers _ _ spacer_cells_plain))
    as [[Hall (sl' & Hrun & Hlook)] | [Hnot Hrun]].
  - left. split; [done |]. exists sl'. split; [by rewrite Hrun | done].
  - right. split; [done | by rewrite Hrun].
Qed.

(** X5. The IO LEF job on the lines of its source, read with universal
    newlines: it completes exactly when each of the three spacer cells has
    a line with [MACRO cell] that is not the last line. It then leaves in
    the destination the lines of the pin repair, the line after the first
    [MACRO cell] line of each spacer cell with every [AREAIO] replaced by
    [SPACER]. Otherwise it raises [IndexError], and the destination, already
    opened for writing, is left empty. *)
Theorem X5_setup_io_lefs_spacers (st : state) (a text : string) :
  db st !! "technology.sky130.sky130A" = Some (SStr a) ->
  files st !! io_lef_source st = Some text ->
  io_lef_source st <> io_lef_dest st ->
  let sl := readlines (universal_newlines text) in
  (Forall (spacer_ok sl) spacer_cells ->
   exists sl',
     setup_io_lefs st
     = (with_files (insert (io_lef_dest st) (writelines sl')) st, Ok tt)
     /\ forall j, sl' !! j
          = Nat.iter (occurrences j (spacer_targets sl spacer_cells)) spacer_line
              <$> patch_nets sl !! j)
  /\ (~ Forall (spacer_ok sl) spacer_cells ->
      setup_io_lefs st = (with_files (insert (io_lef_dest st) "") st, Raise IndexError)).
Proof.
  intros Hdb Hsrc Hne sl.
  assert (forall r : result (list string),
            io_lef_lines sl = r ->
            setup_io_lefs st =
              match r with
              | Ok sl' => (with_files (insert (io_lef_dest st) (writelines sl')) st, Ok tt)
              | Raise e => (with_files (insert (io_lef_dest st) "") st, Raise e)
              end) as Hrun.
  { intros r Hr. subst sl. unfold setup_io_lefs.
    unfold io_lef_source, io_lef_dest, sky130A in *. rewrite Hdb in Hsrc, Hne.
    rewrite run_get_setting, Hdb, run_lift. cbn [as_str].
    rewrite run_exists_path, Hsrc.
    rewrite bool_decide_eq_true_2 by (by eexists). cbn [orb negb].
    rewrite run_get_cache_dir, run_open_w, run_read.
    destruct st as [d fs ds tl cf ln us cd]. unfold with_files.
    cbn [files cache_dir db library_name dirs tlefs config use_sram22] in *.
    rewrite lookup_insert_ne by done. rewrite Hsrc, run_lift, Hr.
    destruct r as [sl' | e]; [| done].
    unfold write, with_files.
    cbn [files cache_dir db library_name dirs tlefs config use_sram22].
    rewrite lookup_insert_eq. cbn [default]. by rewrite insert_insert_eq, append_nil_l. }
  destruct (io_lef_lines_run sl) as [[Hall (sl' & Hlines & Hlook)] | [Hnot Hlines]].
  - split; [| done]. intros _. exists sl'. split; [| done]. by rewrite (Hrun _ Hlines).
  - split; [done |]. intros _. by rewrite (Hrun _ Hlines).
Qed.

Lemma X5_setup_io_lefs_spacers_witness :
  exists sl',
    setup_io_lefs patch_state
    = (with_files (insert (io_lef_dest patch_state) (writelines sl')) patch_state, Ok tt)
    /\ sl' !! 20 = Some ("  CLASS PAD SPACER ;" +:+ nl).
Proof.
  destruct (X5_setup_io_lefs_spacers patch_state "/pdk/sky130A" sample_io_lef)
    as [Hok _].
  - vm_compute. reflexivity.
  - vm_compute. reflexivity.
  - vm_compute. intros E. discriminate E.
  - destruct Hok as (sl' & Hrun & Hlook).
    + repeat constructor; eexists; (split; [vm_compute; reflexivity | vm_compute; lia]).
    + exists sl'. split; [exact Hrun |]. rewrite Hlook. vm_compute. reflexivity.
Defined.

(** ** What the patch jobs leave alone *)

Lemma regen_footprint {A} (D : list string) (e : state) (W' : list string) (m : tech A) :
  regen D e [] m W' ->
  same_env (m e).1 e /\ forall p, p ∉ D -> files (m e).1 !! p = files e !! p.
Proof.
  intros Hm.
  assert (related D e [] e e e e) as Hrel0.
  { split; [done |]. split; [done |]. split; [by intros p Hp; apply elem_of_nil in Hp |].
    intros p. by left. }
  destruct (Hm e e e e Hrel0) as (_ & (Henv1 & _) & _ & Hframe). by split.
Qed.

Lemma same_env_object (s1 s2 : state) : same_env s1 s2 -> same_object s1 s2.
Proof. intros (H1 & H2 & H3 & H4 & H5 & H6 & H7). by repeat split. Qed.

(** X6. A patch job writes to its destination and to no other file: whether
    it completes or raises, the settings, the attributes of the technology
    object and the descriptor are as before, and every path other than its
    destination (for the Verilog job, its two destinations) holds the text
    it held. *)
Theorem X6_patch_jobs_footprint (st : state) :
  (cdl_source st <> cdl_dest st ->
   same_object (setup_cdl st).1 st
   /\ forall p, p <> cdl_dest st -> files (setup_cdl st).1 !! p = files st !! p)
  /\ (verilog_source st ∉ [verilog_dest st; primitives_dest st] ->
      primitives_source st ∉ [verilog_dest st; primitives_dest st] ->
      same_object (setup_verilog st).1 st
      /\ forall p, p ∉ [verilog_dest st; primitives_dest st] ->
           files (setup_verilog st).1 !! p = files st !! p)
  /\ (techlef_source st <> techlef_dest st ->
      same_object (setup_techlef st).1 st
      /\ forall p, p <> techlef_dest st -> files (setup_techlef st).1 !! p = files st !! p)
  /\ (io_lef_source st <> io_lef_dest st ->
      same_object (setup_io_lefs st).1 st
      /\ forall p, p <> io_lef_dest st -> files (setup_io_lefs st).1 !! p = files st !! p).
Proof.
  split; [| split; [| split]].
  - intros Hne.
    destruct (regen_footprint [cdl_dest st] st [cdl_dest st] setup_cdl) as [Henv Hframe].
    { apply setup_cdl_regen; [left | by apply not_in_singleton]. }
    split; [by apply same_env_object |]. intros p Hp. apply Hframe. by apply not_in_singleton.
  - intros Hv Hp.
    destruct (setup_verilog_regen [verilog_dest st; primitives_dest st] st [])
      as (W' & Hm & _); [left | right; left | done | done |].
    apply regen_footprint in Hm as [Henv Hframe]. split; [by apply same_env_object | done].
  - intros Hne.
    destruct (regen_footprint [techlef_dest st] st [techlef_dest st] setup_techlef) as [Henv Hframe].
    { apply setup_techlef_regen; [left | by apply not_in_singleton]. }
    split; [by apply same_env_object |]. intros p Hp. apply Hframe. by apply not_in_singleton.
  - intros Hne.
    destruct (regen_footprint [io_lef_dest st] st [io_lef_dest st] setup_io_lefs) as [Henv Hframe].
    { apply setup_io_lefs_regen; [left | by apply not_in_singleton]. }
    split; [by apply same_env_object |]. intros p Hp. apply Hframe. by apply not_in_singleton.
Qed.

Lemma X6_patch_jobs_footprint_witness :
  same_object (setup_cdl patch_state).1 patch_state
  /\ files (setup_cdl patch_state).1 !! cdl_source patch_state = Some sample_cdl.
Proof.
  destruct (X6_patch_jobs_footprint patch_state) as (Hcdl & _).
  destruct Hcdl as [Henv Hframe]; [vm_compute; intros E; discriminate E |].
  split; [exact Henv |].
  rewrite Hframe; [vm_compute; reflexivity | vm_compute; intros E; discriminate E].
Defined.

(** ** [post_install_script] and the hook queries *)

Lemma run_patch_jobs_other (st : state) (slib : setting) :
  db st !! "technology.sky130.stdcell_library" = Some slib ->
  slib <> SStr "sky130_fd_sc_hd" ->
  run_patch_jobs st = setup_io_lefs st.
Proof.
  intros Hdb Hne. unfold run_patch_jobs. rewrite run_get_setting, Hdb.
  by rewrite bool_decide_eq_false_2.
Qed.

(** X7. [post_install_script] first sets [library_name] to
    [sky130_fd_sc_hd] and [use_sram22] to whether the SRAM22 macro path
    exists. For a standard-cell family other than [sky130_fd_sc_hd] it then
    runs the IO LEF job alone, on the technology object with these two
    attributes set: the CDL, Verilog and technology LEF jobs are skipped. *)
Theorem X7_post_install_script_family (st : state) (a : string) (slib : setting) :
  db st !! "technology.sky130.sram22_sky130_macros" = Some (SStr a) ->
  db st !! "technology.sky130.stdcell_library" = Some slib ->
  slib <> SStr "sky130_fd_sc_hd" ->
  post_install_script st
  = setup_io_lefs
      (with_use_sram22
         (bool_decide (is_Some (files st !! a)) || bool_decide (is_Some (dirs st !! a)))
         (installed st)).
Proof.
  intros Hdb Hslib Hne. rewrite post_install_script_run, Hdb.
  by apply run_patch_jobs_other with slib.
Qed.

Lemma X7_post_install_script_family_witness :
  (post_install_script scl_patch_state).2 = Ok tt
  /\ files (post_install_script scl_patch_state).1 !! cdl_dest (installed scl_patch_state)
     = None
  /\ is_Some (files (post_install_script scl_patch_state).1
                !! io_lef_dest (installed scl_patch_state)).
Proof.
  rewrite (X7_post_install_script_family scl_patch_state "/pdk/sram22" (SStr "sky130_scl")).
  - split; [| split]; vm_compute; [reflexivity | reflexivity | by eexists].
  - vm_compute. reflexivity.
  - vm_compute. reflexivity.
  - intros E. discriminate E.
Defined.

Lemma dict_get_by_tool (tool_name : string) (c p : list HammerToolHookAction) :
  dict_get (<["calibre" := c]> (<["pegasus" := p]> ∅)) tool_name = by_tool tool_name c p.
Proof.
  unfold dict_get, by_tool.
  destruct (bool_decide_reflect (tool_name = "calibre")) as [-> | Hc].
  { by rewrite lookup_insert_eq. }
  rewrite lookup_insert_ne by done.
  destruct (bool_decide_reflect (tool_name = "pegasus")) as [-> | Hp].
  { by rewrite lookup_insert_eq. }
  by rewrite lookup_insert_ne.
Qed.

Lemma get_tech_drc_hooks_run (tool_name : string) (st : state) :
  get_tech_drc_hooks tool_name st =
    match db st !! "technology.sky130.drc_blackbox_srams" with
    | Some v =>
        (st, Ok (if truthy v
                 then by_tool tool_name [drc_calibre_hook] [drc_pegasus_hook]
                 else []))
    | None => (st, Raise (KeyError "technology.sky130.drc_blackbox_srams"))
    end.
Proof.
  unfold get_tech_drc_hooks. rewrite run_get_setting.
  destruct (db st !! "technology.sky130.drc_blackbox_srams") as [v |]; [| done].
  destruct (truthy v); cbn [app]; unfold mret, tech_ret; rewrite dict_get_by_tool; [done |].
  unfold by_tool. by repeat destruct (bool_decide _).
Qed.

Lemma get_tech_lvs_hooks_run (tool_name : string) (st : state) :
  get_tech_lvs_hooks tool_name st =
    match use_sram22 st with
    | None => (st, Raise AttributeError)
    | Some b =>
        match db st !! "technology.sky130.lvs_blackbox_srams" with
        | Some v =>
            (st, Ok (by_tool tool_name
                       (lvs_deck_hook :: (if b then [lvs_sram22_hook] else [])
                          ++ (if truthy v then [lvs_calibre_hook] else []))
                       (if truthy v then [lvs_pegasus_hook] else [])))
        | None => (st, Raise (KeyError "technology.sky130.lvs_blackbox_srams"))
        end
    end.
Proof.
  unfold get_tech_lvs_hooks. rewrite run_bind. unfold get_use_sram22.
  destruct (use_sram22 st) as [b |]; [| done]. rewrite run_get_setting.
  destruct (db st !! "technology.sky130.lvs_blackbox_srams") as [v |]; [| done].
  destruct b, (truthy v); cbn [app]; unfold mret, tech_ret; by rewrite dict_get_by_tool.
Qed.

(** X8. The hook queries for DRC and LVS, on a technology object whose
    database holds the black-box setting the query reads (and, for LVS,
    whose [use_sram22] is set), leave the technology object alone. With the
    DRC setting false no tool gets a DRC hook; with it true Calibre and
    Pegasus get one each. The LVS list of Calibre always starts with the deck
    set-up, followed by the SRAM22 hook when [use_sram22] holds and by the
    black-box hook when the LVS setting is true; Pegasus gets its black-box
    hook under that setting and nothing otherwise; any other tool gets no
    hook. *)
Theorem X8_hook_toggles (st : state) (tool_name : string) :
  (forall v, db st !! "technology.sky130.drc_blackbox_srams" = Some v ->
     get_tech_drc_hooks tool_name st
     = (st, Ok (if truthy v
                then by_tool tool_name [drc_calibre_hook] [drc_pegasus_hook]
                else [])))
  /\ (forall b v, use_sram22 st = Some b ->
        db st !! "technology.sky130.lvs_blackbox_srams" = Some v ->
        get_tech_lvs_hooks tool_name st
        = (st, Ok (by_tool tool_name
                     (lvs_deck_hook :: (if b then [lvs_sram22_hook] else [])
                        ++ (if truthy v then [lvs_calibre_hook] else []))
                     (if truthy v then [lvs_pegasus_hook] else [])))).
Proof.
  split.
  - intros v H. by rewrite get_tech_drc_hooks_run, H.
  - intros b v Hb H. by rewrite get_tech_lvs_hooks_run, Hb, H.
Qed.

Lemma X8_hook_toggles_witness :
  get_tech_drc_hooks "calibre" hooks_state = (hooks_state, Ok [drc_calibre_hook])
  /\ get_tech_lvs_hooks "calibre" hooks_state
     = (hooks_state, Ok [lvs_deck_hook; lvs_sram22_hook; lvs_calibre_hook]).
Proof.
  destruct (X8_hook_toggles hooks_state "calibre") as (Hdrc & Hlvs).
  split.
  - rewrite (Hdrc (SBool true)); [reflexivity | vm_compute; reflexivity].
  - rewrite (Hlvs true (SBool true)); [reflexivity | reflexivity | vm_compute; reflexivity].
Defined.

(** X9. After [post_install_script], whether it completed or a job raised,
    the LVS hook query no longer fails for want of [use_sram22]: for Calibre
    it returns the deck set-up, then the SRAM22 hook exactly when the SRAM22
    macro path existed when the script ran, then the black-box hook when the
    LVS setting is true. *)
Theorem X9_post_install_then_lvs_hooks (st : state) (a : string) (v : setting) :
  db st !! "technology.sky130.sram22_sky130_macros" = Some (SStr a) ->
  db st !! "technology.sky130.lvs_blackbox_srams" = Some v ->
  (forall s, s ∈ all_sources st -> s ∉ all_dests st) ->
  get_tech_lvs_hooks "calibre" (post_install_script st).1
  = ((post_install_script st).1,
     Ok (lvs_deck_hook
           :: (if bool_decide (is_Some (files st !! a)) || bool_decide (is_Some (dirs st !! a))
               then [lvs_sram22_hook] else [])
           ++ (if truthy v then [lvs_calibre_hook] else []))).
Proof.
  intros Hmac Hv Hsrc. rewrite post_install_script_run, Hmac.
  set (found := bool_decide (is_Some (files st !! a)) || bool_decide (is_Some (dirs st !! a))).
  set (e := with_use_sram22 found (installed st)).
  destruct (run_patch_jobs_regen e (all_dests st)) as [W' Hjobs];
    try (unfold all_dests; in_list);
    try (apply Hsrc; unfold all_sources; in_list).
  apply regen_footprint in Hjobs as [(Hdb & _ & _ & _ & _ & Hsram & _) _].
  rewrite get_tech_lvs_hooks_run, Hsram, Hdb.
  change (use_sram22 e) with (Some found). change (db e) with (db st). by rewrite Hv.
Qed.

Lemma X9_post_install_then_lvs_hooks_witness :
  get_tech_lvs_hooks "calibre" (post_install_script lvs_patch_state).1
  = ((post_install_script lvs_patch_state).1, Ok [lvs_deck_hook]).
Proof.
  rewrite (X9_post_install_then_lvs_hooks lvs_patch_state "/pdk/sram22" (SBool false)).
  - f_equal.
  - vm_compute. reflexivity.
  - vm_compute. reflexivity.
  - intros s Hs. unfold all_sources, all_dests in *.
    rewrite !elem_of_cons, elem_of_nil in Hs.
    rewrite !elem_of_cons, elem_of_nil.
    destruct Hs as [-> | [-> | [-> | [-> | [-> | []]]]]]; vm_compute;
      intros [E | [E | [E | [E | [E | []]]]]]; discriminate E.
Defined.

(** * Further properties of descriptor generation *)

(** X10. A standard-cell family other than [sky130_fd_sc_hd] and
    [sky130_scl] is rejected with a [ValueError] that quotes the selection,
    before any directory is listed; the technology object is left as it
    was. *)
Theorem X10_gen_config_incorrect_selection (st : state) (slib a b c : setting) :
  db st !! "technology.sky130.stdcell_library" = Some slib ->
  db st !! "technology.sky130.sky130A" = Some a ->
  db st !! "technology.sky130.sky130_cds" = Some b ->
  db st !! "technology.sky130.sky130_scl" = Some c ->
  slib <> SStr "sky130_fd_sc_hd" -> slib <> SStr "sky130_scl" ->
  gen_config st
  = (st, Raise (ValueError ("Incorrect standard cell library selection: "
                            +:+ setting_str slib))).
Proof.
  intros H1 H2 H3 H4 Hhd Hscl. unfold gen_config.
  rewrite run_get_setting, H1, run_get_setting, H2, run_get_setting, H3,
    run_get_setting, H4.
  cbv zeta. rewrite run_bind.
  by rewrite !bool_decide_eq_false_2.
Qed.

Lemma X10_gen_config_incorrect_selection_witness :
  gen_config (with_db (insert "technology.sky130.stdcell_library" (SStr "sky130_fd_sc_hs"))
                hd_state)
  = (with_db (insert "technology.sky130.stdcell_library" (SStr "sky130_fd_sc_hs")) hd_state,
     Raise (ValueError "Incorrect standard cell library selection: sky130_fd_sc_hs")).
Proof.
  apply (X10_gen_config_incorrect_selection _ (SStr "sky130_fd_sc_hs")
           (SStr "/pdk/sky130A") (SStr "/pdk/cds") (SStr "/pdk/scl"));
    try (vm_compute; reflexivity); intros E; discriminate E.
Defined.

(** ** The order of a directory listing *)

Lemma name_le_trans (a b c : string) : name_le a b -> name_le b c -> name_le a c.
Proof.
  unfold name_le, String.leb. intros Hab Hbc.
  destruct (String.compare a b) eqn:Eab; [| | done].
  { apply String.compare_eq_iff in Eab as ->. exact Hbc. }
  destruct (String.compare b c) eqn:Ebc; [| | done].
  { apply String.compare_eq_iff in Ebc as <-. by rewrite Eab. }
  apply OrderedTypeEx.String_as_OT.cmp_lt in Eab, Ebc.
  pose proof (OrderedTypeEx.String_as_OT.lt_trans _ _ _ Eab Ebc) as Hac.
  apply OrderedTypeEx.String_as_OT.cmp_lt in Hac.
  unfold OrderedTypeEx.String_as_OT.cmp in Hac. by rewrite Hac.
Qed.

Lemma name_le_transitive : Transitive name_le.
Proof. exact name_le_trans. Qed.

Lemma name_le_antisym : AntiSymm eq name_le.
Proof. intros a b Hab Hba. by apply String.leb_antisym. Qed.

Lemma insert_sorted_perm (x : string) (l : list string) : insert_sorted x l ≡ₚ x :: l.
Proof.
  induction l as [| y l IH]; [done |]. cbn [insert_sorted].
  destruct (String.leb x y); [done |]. rewrite IH. apply Permutation_swap.
Qed.

Lemma sort_perm (l : list string) : sort l ≡ₚ l.
Proof.
  unfold sort. induction l as [| x l IH]; [done |]. cbn [foldr].
  by rewrite insert_sorted_perm, IH.
Qed.

Lemma insert_sorted_HdRel (y x : string) (l : list string) :
  name_le y x -> Sorted.HdRel name_le y l -> Sorted.HdRel name_le y (insert_sorted x l).
Proof.
  intros Hyx Hl. destruct l as [| z l]; cbn [insert_sorted]; [by constructor |].
  destruct (String.leb x z); [by constructor |].
  constructor. by inversion Hl.
Qed.

Lemma insert_sorted_Sorted (x : string) (l : list string) :
  Sorted.Sorted name_le l -> Sorted.Sorted name_le (insert_sorted x l).
Proof.
  induction 1 as [| y l Hl IH Hy]; cbn [insert_sorted]; [by repeat constructor |].
  destruct (String.leb x y) eqn:Hxy.
  - constructor; [by constructor | by constructor].
  - constructor; [done |]. apply insert_sorted_HdRel; [| done].
    destruct (String.leb_total x y) as [H | H]; [congruence | done].
Qed.

Lemma sort_Sorted (l : list string) : Sorted.Sorted name_le (sort l).
Proof.
  unfold sort. induction l as [| x l IH]; [constructor |]. cbn [foldr].
  by apply insert_sorted_Sorted.
Qed.

(** Sorting forgets the order the names came in. *)
Lemma sort_permutation (l1 l2 : list string) : l1 ≡ₚ l2 -> sort l1 = sort l2.
Proof.
  intros H. pose proof name_le_transitive. pose proof name_le_antisym.
  apply (sorting.Sorted_unique name_le); [apply sort_Sorted .. |].
  by rewrite !sort_perm.
Qed.

(** ** Descriptor generation does not depend on the order of the listings *)

Ltac both_end Hdb :=
  cbn [fst snd db config with_db with_config];
  split; [reflexivity |];
  split; [first [intros E; discriminate E | reflexivity] |];
  first [exact Hdb | by rewrite Hdb].

Ltac both_setting Hdb :=
  rewrite !run_get_setting; rewrite <- ?Hdb;
  match goal with
  | |- context [match db ?s !! ?k with _ => _ end] =>
      destruct (db s !! k) eqn:?; [| both_end Hdb]
  end.

Ltac both_listing Hdirs Hdb :=
  rewrite !run_listdir; cbn [dirs with_db];
  match goal with
  | |- context [match dirs _ !! ?p with _ => _ end] =>
      let Hperm := fresh "Hperm" in
      destruct (Hdirs p) as [? ? Hperm |]; [| both_end Hdb];
      rewrite (sort_permutation _ _ Hperm)
  end.

Ltac both_lift Hdb :=
  rewrite !run_lift;
  match goal with
  | |- context [match ?r with Ok _ => _ | Raise _ => _ end] =>
      destruct r eqn:?; [| both_end Hdb]
  end.

Lemma gen_config_listings (s1 s2 : state) :
  same_listings s1 s2 ->
  (gen_config s1).2 = (gen_config s2).2
  /\ ((gen_config s1).2 = Ok tt ->
      config (gen_config s1).1 = config (gen_config s2).1)
  /\ db (gen_config s1).1 = db (gen_config s2).1.
Proof.
  intros (Hdb & Htl & Hdirs). unfold gen_config. cbv zeta.
  do 4 both_setting Hdb.
  destruct (bool_decide_reflect (s = SStr "sky130_fd_sc_hd")) as [-> | Hhd].
  - rewrite !run_ret. both_lift Hdb. both_listing Hdirs Hdb. both_lift Hdb.
    both_listing Hdirs Hdb. both_lift Hdb.
    rewrite !run_get_metals, <- Htl.
    match goal with
    | |- context [match tlefs ?s !! ?k with _ => _ end] =>
        destruct (tlefs s !! k); [| both_end Hdb]
    end.
    unfold set_config. both_end Hdb.
  - destruct (bool_decide_reflect (s = SStr "sky130_scl")) as [-> | Hscl].
    + rewrite !run_ret. both_lift Hdb. both_listing Hdirs Hdb. both_lift Hdb.
      rewrite !run_set_setting.
      assert (db (with_db (insert "synthesis.clock_gating_mode" (SStr "")) s1)
              = db (with_db (insert "synthesis.clock_gating_mode" (SStr "")) s2)) as Hdb'.
      { cbn [db with_db]. by rewrite Hdb. }
      both_lift Hdb'. both_listing Hdirs Hdb'. both_lift Hdb'. both_lift Hdb'.
      rewrite !run_get_metals. cbn [tlefs with_db]. rewrite <- Htl.
      match goal with
      | |- context [match tlefs ?s !! ?k with _ => _ end] =>
          destruct (tlefs s !! k); [| both_end Hdb']
      end.
      unfold set_config. both_end Hdb'.
    + rewrite !run_raise. both_end Hdb.
Qed.

(** X12. The outcome of [gen_config] does not depend on the order in which
    the operating system lists the corner directories: from two technology
    objects with the same settings whose listings hold the same names in any
    order, both runs end the same, leave the same settings and, when they
    complete, the same descriptor. *)
Theorem X12_gen_config_listing_order (s1 s2 : state) :
  same_listings s1 s2 ->
  (gen_config s1).2 = (gen_config s2).2
  /\ ((gen_config s1).2 = Ok tt ->
      config (gen_config s1).1 = config (gen_config s2).1)
  /\ db (gen_config s1).1 = db (gen_config s2).1.
Proof. apply gen_config_listings. Qed.

Lemma X12_gen_config_listing_order_witness :
  (gen_config hd_state).2 = (gen_config hd_state_reversed).2
  /\ config (gen_config hd_state).1 = config (gen_config hd_state_reversed).1.
Proof.
  destruct (X12_gen_config_listing_order hd_state hd_state_reversed) as (Hr & Hc & _).
  - split; [reflexivity |]. split; [reflexivity |].
    intros path. cbn [dirs hd_state hd_state_reversed]. rewrite lookup_fmap.
    destruct (sample_dirs !! path) as [l |]; cbn; constructor.
    symmetry. apply reverse_Permutation.
  - split; [exact Hr |]. apply Hc. vm_compute. reflexivity.
Defined.

(** * Further properties of the corner-filename parser *)

(** ** [split], [join] and [replace] *)

Lemma split_from_nonempty (sep s : string) (k : nat) : split_from sep s k <> [].
Proof.
  revert k. induction s as [| a s IH]; intros k; cbn [split_from]; [done |].
  destruct k as [| k]; [| apply IH].
  destruct (startswith (String a s) sep); [done |].
  specialize (IH 0). by destruct (split_from sep s 0).
Qed.

Lemma join_cons_head (new : string) (a : ascii) (l : list string) :
  l <> [] -> join new (cons_head a l) = String a (join new l).
Proof.
  destruct l as [| h t]; [done |]. intros _. cbn [cons_head join].
  destruct t; [done |]. by rewrite append_cons.
Qed.

Lemma join_split_from (sep new s : string) (k : nat) :
  join new (split_from sep s k) = replace_from sep new s k.
Proof.
  revert k. induction s as [| a s IH]; intros k; cbn [split_from replace_from]; [done |].
  destruct k as [| k]; [| apply IH].
  destruct (startswith (String a s) sep).
  - pose proof (split_from_nonempty sep s (String.length sep - 1)) as Hne.
    cbn [join]. destruct (split_from sep s (String.length sep - 1)) eqn:E; [done |].
    rewrite <- E, IH. by rewrite append_nil_l.
  - rewrite join_cons_head by apply split_from_nonempty. by rewrite IH.
Qed.

(** [new.join(s.split(sep))] is [s.replace(sep, new)]. *)
Lemma join_split (sep new s : string) :
  sep <> "" -> join new (split sep s) = replace sep new s.
Proof.
  intros Hsep. unfold split, replace. rewrite join_split_from. by destruct sep.
Qed.

Lemma split_from_skip (sep x rest : string) :
  split_from sep (x +:+ rest) (String.length x) = split_from sep rest 0.
Proof.
  induction x as [| c x IH]; [by rewrite append_nil_l |].
  rewrite append_cons. cbn [String.length split_from]. exact IH.
Qed.

Lemma split_occurrence (sep rest : string) :
  sep <> "" -> split sep (sep +:+ rest) = "" :: split sep rest.
Proof.
  intros Hsep. unfold split. destruct sep as [| c sep]; [done |].
  pose proof (startswith_app (String c sep) rest) as Hs.
  rewrite append_cons in Hs |- *. cbn [split_from]. rewrite Hs.
  cbn [String.length]. rewrite Nat.sub_succ, Nat.sub_0_r. by rewrite split_from_skip.
Qed.

Lemma split_other (sep : string) (a : ascii) (s : string) :
  startswith (String a s) sep = false ->
  split sep (String a s) = cons_head a (split sep s).
Proof. intros H. unfold split. cbn [split_from]. by rewrite H. Qed.

Lemma split_absent (sep s : string) :
  sep <> "" -> contains sep s = false -> split sep s = [s].
Proof.
  intros Hsep. induction s as [| a s IH]; intros H; [by destruct sep |].
  rewrite split_other by (by apply contains_head).
  by rewrite IH by (by eapply contains_tail).
Qed.

Lemma startswith_stake (y p : string) (n : nat) :
  startswith y p = true -> String.length p <= n -> startswith (stake n y) p = true.
Proof.
  revert y n. induction p as [| d p IH]; intros y n Hs Hn; [apply startswith_nil |].
  destruct y as [| c y]; [done |]. destruct n as [| n]; [cbn in Hn; lia |].
  cbn [stake startswith] in *. destruct (Ascii.eqb c d); [| done].
  apply IH; [done | cbn in Hn; lia].
Qed.

Lemma startswith_app_stake (a y p : string) (n : nat) :
  startswith (a +:+ y) p = true -> String.length p <= String.length a + n ->
  startswith (a +:+ stake n y) p = true.
Proof.
  revert p. induction a as [| c a IH]; intros p Hs Hn.
  - rewrite append_nil_l in *. by apply startswith_stake.
  - destruct p as [| d p]; [done |]. rewrite append_cons in *.
    cbn [startswith] in *. destruct (Ascii.eqb c d); [| done].
    apply IH; [done | cbn in Hn; lia].
Qed.

Lemma stake_app (n : nat) (x y : string) :
  n <= String.length x -> stake n (x +:+ y) = stake n x.
Proof.
  revert x. induction n as [| n IH]; intros x Hn; [done |].
  destruct x as [| c x]; [cbn in Hn; lia |].
  rewrite append_cons. cbn [stake]. rewrite IH; [done | cbn in Hn; lia].
Qed.

(** The piece before the first separator. *)
Lemma split_first (sep a rest : string) :
  sep <> "" ->
  contains sep (a +:+ stake (String.length sep - 1) sep) = false ->
  split sep (a +:+ sep +:+ rest) = a :: split sep rest.
Proof.
  intros Hsep. induction a as [| c a IH]; intros H.
  - rewrite append_nil_l. by apply split_occurrence.
  - rewrite append_cons in H |- *.
    rewrite split_other.
    + by rewrite IH by (by eapply contains_tail).
    + destruct (startswith (String c (a +:+ sep +:+ rest)) sep) eqn:Hs; [| done].
      apply contains_head in H. rewrite <- append_cons in Hs, H.
      apply (startswith_app_stake _ _ _ (String.length sep - 1)) in Hs.
      * rewrite stake_app in Hs by lia. congruence.
      * cbn [String.length]. destruct sep; [done |]. cbn [String.length]. lia.
Qed.

(** ** Temperature and voltage tokens *)

Lemma replace_char_app (c : ascii) (new x y : string) :
  replace (String c "") new (x +:+ y)
  = replace (String c "") new x +:+ replace (String c "") new y.
Proof.
  induction x as [| a x IH]; [by rewrite !append_nil_l |].
  rewrite append_cons.
  destruct (Ascii.eqb_spec a c) as [-> | Hne].
  - change (String c (x +:+ y)) with (String c "" +:+ (x +:+ y)).
    change (String c x) with (String c "" +:+ x).
    rewrite !replace_occurrence by done. by rewrite IH, append_assoc.
  - rewrite !replace_other; try done.
    + by rewrite IH, append_cons.
    + cbn [startswith]. by destruct (Ascii.eqb_spec a c).
    + cbn [startswith]. by destruct (Ascii.eqb_spec a c).
Qed.

Lemma contains_char (c : ascii) (s : string) :
  contains (String c "") s = has_char c s.
Proof.
  induction s as [| a s IH]; [done |]. cbn [contains has_char startswith].
  rewrite IH, startswith_nil. by destruct (Ascii.eqb a c).
Qed.

Lemma has_char_replace_char (c o n : ascii) (s : string) :
  o <> c -> n <> c ->
  has_char c (replace (String o "") (String n "") s) = has_char c s.
Proof.
  intros Ho Hn. induction s as [| a s IH]; [done |].
  destruct (Ascii.eqb_spec a o) as [-> | Hne].
  - change (String o s) with (String o "" +:+ s).
    rewrite replace_occurrence by done. rewrite append_cons, append_nil_l.
    cbn [has_char]. rewrite IH, append_cons, append_nil_l. cbn [has_char].
    by destruct (Ascii.eqb_spec n c), (Ascii.eqb_spec o c).
  - rewrite replace_other; [| done |].
    + cbn [has_char]. by rewrite IH.
    + cbn [startswith]. by destruct (Ascii.eqb_spec a o).
Qed.

(** The temperature of a token: what stands before its first [C], with
    every [n] turned into a minus sign. *)
Lemma parse_temp_token (d rest : string) :
  has_char "C" d = false ->
  parse_temp (d +:+ "C" +:+ rest) = replace "n" "-" d +:+ " C".
Proof.
  intros Hd. unfold parse_temp. rewrite !replace_char_app.
  assert (replace "n" "-" "C" = "C") as -> by reflexivity.
  rewrite split_first; [done | done |].
  cbn [String.length Nat.sub stake]. rewrite append_nil_r, contains_char.
  by rewrite has_char_replace_char.
Qed.

Lemma parse_temp_whole (t : string) :
  has_char "C" t = false -> parse_temp t = replace "n" "-" t +:+ " C".
Proof.
  intros Ht. unfold parse_temp. rewrite split_absent; [done | done |].
  rewrite contains_char. by rewrite has_char_replace_char.
Qed.

(** ** The record of a corner file *)

Lemma split_tokens (t : string) (toks : list string) :
  has_char "_" t = false ->
  Forall (fun t => has_char "_" t = false) toks ->
  split "_" (t +:+ underscore_tokens toks) = t :: toks.
Proof.
  intros Ht Htoks. revert t Ht. induction Htoks as [| t' toks Ht' _ IH]; intros t Ht.
  - cbn [underscore_tokens foldr]. rewrite append_nil_r.
    apply split_absent; [done |]. by rewrite contains_char.
  - cbn [underscore_tokens foldr]. fold (underscore_tokens toks).
    rewrite split_first; [by rewrite IH | done |].
    cbn [String.length Nat.sub stake]. by rewrite append_nil_r, contains_char.
Qed.

Lemma split_underscore_tokens (toks : list string) :
  Forall (fun t => has_char "_" t = false) toks ->
  drop 1 (split "_" (underscore_tokens toks)) = toks.
Proof.
  intros H. rewrite <- (append_nil_l (underscore_tokens toks)).
  by rewrite split_tokens.
Qed.

(** X13. The record of an IO corner file. For a file name that, with
    [.lib] removed, reads cell name, process token (once or doubled) and
    then temperature and voltage tokens, each after an underscore: with fewer
    than three such tokens the loop stops with [IndexError]; otherwise the
    file is skipped by the voltage filter or yields the record of the cell
    with the speed class of the token, the temperature of the first token
    and, as supply voltage, the second token with every [v] turned into a
    point. *)
Theorem X13_io_corner_record (SKYWATER_LIBS library f cell : string) (p : corner_code)
    (doubled : bool) (toks : list string) :
  contains "nointpwr" f = false ->
  replace ".lib" "" f = cell +:+ process_text p doubled +:+ underscore_tokens toks ->
  corner_free cell = true -> corner_free (underscore_tokens toks) = true ->
  Forall (fun t => has_char "_" t = false) toks ->
  io_corner SKYWATER_LIBS library f =
    match toks with
    | temp :: v1 :: _ :: _ =>
        if secondary_starts_with_1 toks then Ok None
        else Ok (Some (io_library SKYWATER_LIBS library f
                         {| cf_cell_name := cell; cf_speed := code_speed p;
                            cf_temp := parse_temp temp;
                            cf_vdd := replace "v" "." v1 +:+ " V" |}))
    | _ => Raise IndexError
    end.
Proof.
  intros Hn Hf Hc Ht Htoks.
  pose proof (split_underscore_tokens toks Htoks) as Hsplit.
  destruct toks as [| temp [| v1 [| v2 more]]].
  1-3: unfold io_corner;
       rewrite (io_fields_process f cell p doubled _ Hn Hf Hc Ht), Hsplit;
       by rewrite corner_of_tokens_short by (cbn; lia).
  rewrite (io_corner_process _ _ f cell p doubled _ Hn Hf Hc Ht); rewrite Hsplit.
  - cbn [lookup list_lookup default]. by rewrite join_split.
  - cbn. lia.
Qed.

Lemma X13_io_corner_record_witness :
  exists lib,
    io_corner "$SKY130A/libs.ref/sky130_fd_io" "sky130_fd_io"
      "sky130_fd_io__top_gpiov2_ff_ff_n40C_1v95_5v50.lib" = Ok (Some lib)
    /\ corner lib = Some {| nmos := "fast"; pmos := "fast"; temperature := "-40 C" |}
    /\ supplies lib = Some {| VDD := "1.95 V"; GND := "0 V" |}.
Proof.
  eexists. split.
  - apply (X13_io_corner_record _ _ _ "sky130_fd_io__top_gpiov2" FF true
             ["n40C"; "1v95"; "5v50"]); try (vm_compute; reflexivity).
    repeat constructor.
  - split; vm_compute; reflexivity.
Defined.

(** X14. The record of a [sky130_fd_sc_hd] corner file. For a file name
    that, with [.lib] removed, reads library name, a double underscore, and
    then process code, temperature token and a voltage token [a v b] with
    single underscores between them, the record has the speed class of the
    code, the temperature of the token and the supply voltage [a.b V]; its
    timing library is the [_ccsnoise] variant of the file when the directory
    has one, else the file itself. *)
Theorem X14_hd_corner_record (SKYWATER_LIBS library : string) (lib_corner_files : list string)
    (f lib code temp a b : string) :
  contains "sky130" f = true -> contains "ccsnoise" f = false ->
  replace ".lib" "" f = lib +:+ "__" +:+ code +:+ "_" +:+ temp +:+ "_" +:+ a +:+ "v" +:+ b ->
  contains "__" (lib +:+ "_") = false ->
  contains "__" (code +:+ "_" +:+ temp +:+ "_" +:+ a +:+ "v" +:+ b) = false ->
  has_char "_" code = false -> has_char "_" temp = false ->
  has_char "_" (a +:+ "v" +:+ b) = false ->
  has_char "v" a = false -> has_char "v" b = false ->
  hd_corner SKYWATER_LIBS library lib_corner_files f =
    Ok (Some
      {| nldm_liberty_file :=
           Some (path_join SKYWATER_LIBS
                   ["lib";
                    if bool_decide (replace ".lib" "" f +:+ "_ccsnoise.lib" ∈ lib_corner_files)
                    then replace ".lib" "" f +:+ "_ccsnoise.lib" else f]);
         verilog_sim := Some (path_join "cache" [library +:+ ".v"]);
         lef_file := Some (path_join SKYWATER_LIBS ["lef"; library +:+ ".lef"]);
         spice_file := Some (path_join "cache" [library +:+ ".cdl"]);
         gds_file := Some (path_join SKYWATER_LIBS ["gds"; library +:+ ".gds"]);
         corner := Some {| nmos := speed_class code; pmos := speed_class code;
                           temperature := parse_temp temp |};
         supplies := Some {| VDD := a +:+ "." +:+ b +:+ " V"; GND := "0 V" |};
         provides := [ {| lib_type := "stdcell"; vt := Some "RVT" |} ] |}).
Proof.
  intros Hsky Hccs Hf Hlib Hrest Hcode Htemp Hvolt Ha Hb.
  assert (split "__" (replace ".lib" "" f)
          = [lib; code +:+ "_" +:+ temp +:+ "_" +:+ a +:+ "v" +:+ b]) as Hs.
  { rewrite Hf, split_first by done. by rewrite (split_absent "__"). }
  assert (split "_" (code +:+ "_" +:+ temp +:+ "_" +:+ a +:+ "v" +:+ b)
          = [code; temp; a +:+ "v" +:+ b]) as Hparts.
  { replace (code +:+ "_" +:+ temp +:+ "_" +:+ a +:+ "v" +:+ b)
      with (code +:+ underscore_tokens [temp; a +:+ "v" +:+ b]).
    - apply split_tokens; [done | by repeat constructor].
    - cbn [underscore_tokens foldr]. by rewrite append_nil_r. }
  assert (split "v" (a +:+ "v" +:+ b) = [a; b]) as Hv.
  { rewrite split_first; [| done |].
    - rewrite split_absent; [done | done | by rewrite contains_char].
    - cbn [String.length Nat.sub stake]. by rewrite append_nil_r, contains_char. }
  unfold hd_corner. rewrite Hsky, Hccs. cbn [negb]. cbv zeta.
  rewrite Hs. unfold py_index. cbn [lookup list_lookup mbind result_bind].
  rewrite Hparts. cbn [lookup list_lookup mbind result_bind].
  rewrite Hv. cbn [lookup list_lookup mbind result_bind]. reflexivity.
Qed.

Lemma X14_hd_corner_record_witness :
  exists lib,
    hd_corner "$SKY130A/libs.ref/sky130_fd_sc_hd" "sky130_fd_sc_hd"
      ["sky130_fd_sc_hd__ss_n40C_1v28.lib"; "sky130_fd_sc_hd__ss_n40C_1v28_ccsnoise.lib"]
      "sky130_fd_sc_hd__ss_n40C_1v28.lib" = Ok (Some lib)
    /\ corner lib = Some {| nmos := "slow"; pmos := "slow"; temperature := "-40 C" |}
    /\ supplies lib = Some {| VDD := "1.28 V"; GND := "0 V" |}
    /\ nldm_liberty_file lib
       = Some "$SKY130A/libs.ref/sky130_fd_sc_hd/lib/sky130_fd_sc_hd__ss_n40C_1v28_ccsnoise.lib".
Proof.
  eexists. split.
  - apply (X14_hd_corner_record _ _ _ _ "sky130_fd_sc_hd" "ss" "n40C" "1" "28");
      vm_compute; reflexivity.
  - repeat split; vm_compute; reflexivity.
Defined.

Lemma scl_hardcoded_values (code : string) : scl_hardcoded code = scl_corner_values code.
Proof.
  unfold scl_hardcoded, scl_corner_values.
  destruct (bool_decide_reflect (code = "ff")) as [-> | Hff]; [done |].
  destruct (bool_decide_reflect (code = "tt")) as [-> | Htt]; [done |].
  by destruct (bool_decide_reflect (code = "ss")) as [-> | Hss].
Qed.

(** X15. The record of a [sky130_scl] corner file takes its supply voltage
    and temperature from the process code alone: [ff] gives 1.95 V at -40 C,
    [tt] 1.80 V at 25 C, [ss] 1.60 V at 100 C, whatever numbers the file name
    carries, and any other code gives a record with that code as speed class
    and an empty voltage and temperature. *)
Theorem X15_scl_corner_hardcoded (SKY130_CDS SKY130_CDS_LIB library : string)
    (lib_corner_files : list string) (f : string) (l : Library) :
  scl_corner SKY130_CDS SKY130_CDS_LIB library lib_corner_files f = Ok (Some l) ->
  exists code,
    scl_code f = Some code
    /\ corner l = Some {| nmos := (scl_corner_values code).1.1;
                          pmos := (scl_corner_values code).1.1;
                          temperature := (scl_corner_values code).2 |}
    /\ supplies l = Some {| VDD := (scl_corner_values code).1.2; GND := "0 V" |}.
Proof.
  unfold scl_corner, scl_code, py_index.
  destruct (negb _); [done |]. destruct (contains "ccsnoise" f); [done |].
  cbv zeta. rewrite <- head_lookup.
  destruct (head (split "_" _)) as [code |]; [| done].
  cbn [mbind result_bind]. rewrite scl_hardcoded_values.
  destruct (scl_corner_values code) as [[speed vdd] temp] eqn:Hv.
  intros [= <-]. exists code. by rewrite Hv.
Qed.

Lemma X15_scl_corner_hardcoded_witness :
  exists l,
    scl_corner "/pdk/cds" "/pdk/scl" "sky130_scl" [] "sky130_tt_1.8_25_nldm.lib" = Ok (Some l)
    /\ corner l = Some {| nmos := "typical"; pmos := "typical"; temperature := "25 C" |}
    /\ supplies l = Some {| VDD := "1.80 V"; GND := "0 V" |}.
Proof.
  eexists. split; [vm_compute; reflexivity |].
  destruct (X15_scl_corner_hardcoded "/pdk/cds" "/pdk/scl" "sky130_scl" []
              "sky130_tt_1.8_25_nldm.lib" _ ltac:(vm_compute; reflexivity))
    as (code & Hcode & Hc & Hs).
  assert (code = "tt") as -> by (vm_compute in Hcode; by injection Hcode as <-).
  split; [exact Hc | exact Hs].
Defined.

(** * The hook actions *)

(** ** What a match of a pattern spans *)

Lemma stake_startswith (s p : string) :
  startswith s p = true -> stake (String.length p) s = p.
Proof.
  revert s. induction p as [| b p IH]; intros [| a s]; cbn; try done.
  destruct (Ascii.eqb_spec a b) as [-> |]; [| done]. intros H. by rewrite IH.
Qed.

Lemma stake_sdrop (n : nat) (s : string) : stake n s +:+ sdrop n s = s.
Proof.
  revert s. induction n as [| n IH]; intros [| a s]; cbn [stake sdrop]; try done.
  by rewrite append_cons, IH.
Qed.

Lemma stake_add (n m : nat) (s : string) :
  stake (n + m) s = stake n s +:+ stake m (sdrop n s).
Proof.
  revert s. induction n as [| n IH]; intros s; [done |].
  destruct s as [| a s]; cbn [Nat.add stake sdrop].
  - by destruct m.
  - by rewrite IH, append_cons.
Qed.

Lemma stake_app_length (a b : string) : stake (String.length a) (a +:+ b) = a.
Proof.
  induction a as [| x a IH]; [done |]. rewrite append_cons. cbn [String.length stake].
  by rewrite IH.
Qed.

Lemma stake_length (n : nat) (s : string) :
  n <= String.length s -> String.length (stake n s) = n.
Proof.
  revert s. induction n as [| n IH]; intros [| a s] H; cbn in *; try done; try lia.
  rewrite IH; lia.
Qed.

Lemma all_dot_no_lf (s : string) : all_class CDot s = negb (has_char LF s).
Proof.
  induction s as [| a s IH]; [done |]. cbn [all_class has_char cmatch].
  rewrite IH. by destruct (Ascii.eqb a LF), (has_char LF s).
Qed.

(** ** Where a text occurs *)

Lemma contains_split (w s : string) :
  contains w s = true -> exists x y, s = x +:+ w +:+ y.
Proof.
  induction s as [| a s IH]; cbn [contains].
  - rewrite orb_false_r. intros H. exists "", "".
    destruct w; [done | discriminate H].
  - intros [H | H]%orb_true_iff.
    + exists "", (sdrop (String.length w) (String a s)).
      rewrite append_nil_l. by apply startswith_eq.
    + destruct (IH H) as (x & y & ->). exists (String a x), y. by rewrite append_cons.
Qed.

Lemma first_lf_unique (u s r b : string) :
  has_char LF u = false -> has_char LF s = false ->
  u +:+ String LF r = s +:+ String LF b -> u = s /\ r = b.
Proof.
  revert s. induction u as [| a u IH]; intros [| c s] Hu Hs; rewrite ?append_nil_l, ?append_cons.
  - by intros [= ->].
  - intros [= <- _]. cbn [has_char] in Hs. by rewrite Ascii.eqb_refl in Hs.
  - intros [= -> _]. cbn [has_char] in Hu. by rewrite Ascii.eqb_refl in Hu.
  - intros [= -> H]. cbn [has_char] in Hu, Hs.
    apply orb_false_iff in Hu as [_ Hu]. apply orb_false_iff in Hs as [_ Hs].
    destruct (IH s Hu Hs H) as [-> ->]. done.
Qed.

(** ** The pattern of the lines to scrub *)

Lemma path_alternatives (ws : list string) (st st' : mstate) :
  ws <> [] -> path (alternatives ws) st st' ->
  exists w, In w ws /\ startswith (m_rest st) w = true
    /\ st' = MState (m_pos st + String.length w) (sdrop (String.length w) (m_rest st))
               (m_caps st).
Proof.
  induction ws as [| w ws IH]; [done |]. intros _.
  destruct ws as [| w' ws].
  - cbn [alternatives path]. intros [H ->]. exists w. by split; [left |].
  - change (alternatives (w :: w' :: ws)) with (RAlt (RLit w) (alternatives (w' :: ws))).
    cbn [path]. intros [[H ->] | H].
    + exists w. by split; [left |].
    + destruct (IH ltac:(done) H) as (v & Hin & Hv). exists v. by split; [right |].
Qed.

Lemma path_alternatives_intro (ws : list string) (w : string) (st : mstate) :
  In w ws -> startswith (m_rest st) w = true ->
  path (alternatives ws) st
    (MState (m_pos st + String.length w) (sdrop (String.length w) (m_rest st)) (m_caps st)).
Proof.
  induction ws as [| v ws IH]; [done |]. intros Hin Hs.
  destruct ws as [| v' ws].
  - destruct Hin as [-> | []]. by cbn [alternatives path].
  - change (alternatives (v :: v' :: ws)) with (RAlt (RLit v) (alternatives (v' :: ws))).
    cbn [path]. destruct Hin as [-> | Hin]; [by left | right; by apply IH].
Qed.

Lemma scrub_words_no_lf (w : string) :
  In w Hook.LVS_DECK_SCRUB_LINES -> has_char LF w = false.
Proof. intros H. repeat (destruct H as [<- | H]; [reflexivity |]). destruct H. Qed.

(** A match of the scrub pattern is a whole line up to and including its
    line feed, and the line holds one of the statements. *)
Lemma scrub_path (pos : nat) (t : string) (caps : list (option string)) (st' : mstate) :
  path Hook.scrub_pattern (MState pos t caps) st' ->
  exists u w rest,
    t = u +:+ String LF rest /\ has_char LF u = false
    /\ In w Hook.LVS_DECK_SCRUB_LINES /\ contains w u = true
    /\ m_pos st' = pos + S (String.length u).
Proof.
  unfold Hook.scrub_pattern. cbn [path].
  intros (mid1 & (n1 & Hn1 & Hx & ->) & mid2 & (st1 & Hw & ->) & mid3
          & (n2 & Hn2 & Hy & ->) & Hnl & ->).
  cbn [m_pos m_rest m_caps] in *.
  apply path_alternatives in Hw as (w & Hin & Hsw & ->); [| done].
  cbn [m_pos m_rest m_caps] in *.
  set (t1 := sdrop n1 t) in *. set (t2 := sdrop (String.length w) t1) in *.
  set (t3 := sdrop n2 t2) in *.
  pose proof (startswith_eq _ _ Hnl) as E3. fold t3 in E3.
  exists (stake n1 t +:+ w +:+ stake n2 t2), w, (sdrop 1 t3).
  assert (t = (stake n1 t +:+ w +:+ stake n2 t2) +:+ String LF (sdrop 1 t3)) as Ht.
  { rewrite !append_assoc.
    change (String LF (sdrop 1 t3)) with (nl +:+ sdrop (String.length nl) t3).
    rewrite <- E3. unfold t3. rewrite stake_sdrop. unfold t2.
    rewrite <- (startswith_eq _ _ Hsw). unfold t1. by rewrite stake_sdrop. }
  split; [exact Ht |].
  rewrite all_dot_no_lf in Hx, Hy. apply negb_true_iff in Hx, Hy.
  split; [by rewrite !has_char_app, Hx, Hy, (scrub_words_no_lf w Hin) |].
  split; [done |]. split; [apply contains_middle |].
  rewrite !length_append, !stake_length by done. change (String.length nl) with 1. lia.
Qed.

Lemma scrub_path_intro (pos : nat) (x w y b : string) (caps : list (option string)) :
  has_char LF x = false -> has_char LF y = false -> In w Hook.LVS_DECK_SCRUB_LINES ->
  exists st', path Hook.scrub_pattern
                (MState pos (x +:+ w +:+ y +:+ String LF b) caps) st'.
Proof.
  intros Hx Hy Hw. unfold Hook.scrub_pattern. cbn [path].
  eexists. eexists. split.
  { exists (String.length x). cbn [m_rest m_pos m_caps].
    split; [rewrite length_append; lia |].
    split; [by rewrite stake_app_length, all_dot_no_lf, Hx | reflexivity]. }
  cbn [m_rest m_pos m_caps]. rewrite sdrop_app_length.
  eexists. split.
  { eexists. split; [| reflexivity].
    apply (path_alternatives_intro _ w); [done |]. cbn [m_rest]. apply startswith_app. }
  cbn [m_rest m_pos m_caps]. rewrite sdrop_app_length.
  eexists. split.
  { exists (String.length y). cbn [m_rest m_pos m_caps].
    split; [rewrite length_append; lia |].
    split; [by rewrite stake_app_length, all_dot_no_lf, Hy | reflexivity]. }
  cbn [m_rest m_pos m_caps]. rewrite sdrop_app_length.
  split; [| reflexivity]. unfold nl. cbn [startswith].
  rewrite Ascii.eqb_refl. apply startswith_nil.
Qed.

Lemma scrub_words_line (s : string) :
  existsb (fun w => contains w s) Hook.LVS_DECK_SCRUB_LINES = true
  <-> exists w, In w Hook.LVS_DECK_SCRUB_LINES /\ contains w s = true.
Proof. apply existsb_exists. Qed.

(** On a line that holds a statement to scrub, the pattern matches the
    line with its line feed. *)
Lemma scrub_match_line (pos : nat) (s b : string) :
  has_char LF s = false ->
  existsb (fun w => contains w s) Hook.LVS_DECK_SCRUB_LINES = true ->
  exists caps,
    match_at Hook.scrub_pattern 1 pos (s +:+ String LF b) = Some (S (String.length s), caps).
Proof.
  intros Hs (w & Hw & Hc)%scrub_words_line.
  destruct (contains_split _ _ Hc) as (x & y & ->).
  rewrite !has_char_app in Hs.
  apply orb_false_iff in Hs as [Hx Hs]. apply orb_false_iff in Hs as [_ Hy].
  destruct (scrub_path_intro pos x w y b [None] Hx Hy Hw) as [st' Hp].
  unfold match_at. cbn [replicate].
  rewrite !append_assoc.
  destruct (rmatch_complete Hook.scrub_pattern
              (fun st => Some (m_pos st - pos, m_caps st)) _ _ Hp) as [[len caps] Hm];
    [done |].
  rewrite Hm. apply rmatch_sound in Hm as (st1 & Hp1 & [= <- <-]).
  apply scrub_path in Hp1 as (u & w' & rest & Ht & Hu & _ & _ & Hpos).
  rewrite <- !append_assoc in Ht.
  apply first_lf_unique in Ht as [<- _]; [| by rewrite !has_char_app, Hx, Hy,
                                            (scrub_words_no_lf w Hw) | done].
  rewrite Hpos.
  match goal with
  | |- context [pos + S ?n - pos] => replace (pos + S n - pos) with (S n) by lia
  end.
  rewrite ?append_assoc. by eexists.
Qed.

(** Elsewhere the pattern does not match. *)
Lemma scrub_no_match_line (pos : nat) (s b : string) :
  has_char LF s = false ->
  existsb (fun w => contains w s) Hook.LVS_DECK_SCRUB_LINES = false ->
  match_at Hook.scrub_pattern 1 pos (s +:+ String LF b) = None.
Proof.
  intros Hs Hnone. unfold match_at. cbn [replicate].
  destruct (rmatch _ _ _) as [[len caps] |] eqn:Hm; [| done].
  apply rmatch_sound in Hm as (st1 & Hp1 & _).
  apply scrub_path in Hp1 as (u & w & rest & Ht & Hu & Hw & Hc & _).
  symmetry in Ht. apply first_lf_unique in Ht as [Hus _]; [| done | done].
  subst u. apply not_true_iff_false in Hnone. destruct Hnone.
  apply scrub_words_line. by exists w.
Qed.

Lemma scrub_no_match_last (pos : nat) (s : string) :
  has_char LF s = false -> match_at Hook.scrub_pattern 1 pos s = None.
Proof.
  intros Hs. unfold match_at. cbn [replicate].
  destruct (rmatch _ _ _) as [[len caps] |] eqn:Hm; [| done].
  apply rmatch_sound in Hm as (st1 & Hp1 & _).
  apply scrub_path in Hp1 as (u & w & rest & -> & _).
  rewrite has_char_app in Hs. cbn [has_char] in Hs.
  rewrite Ascii.eqb_refl in Hs. by rewrite orb_true_r in Hs.
Qed.

(** ** Scrubbing an LVS deck *)

Lemma sub_from_skip (r : regex) (groups : nat) (repl : string) (pos : nat)
    (x rest : string) :
  sub_from r groups repl pos (x +:+ rest) (String.length x)
  = sub_from r groups repl (pos + String.length x) rest 0.
Proof.
  revert pos. induction x as [| c x IH]; intros pos.
  - by rewrite append_nil_l, Nat.add_0_r.
  - rewrite append_cons. cbn [String.length sub_from]. rewrite IH. f_equal. lia.
Qed.

Lemma scrub_words_tail (a : ascii) (s : string) (ws : list string) :
  existsb (fun w => contains w (String a s)) ws = false ->
  existsb (fun w => contains w s) ws = false.
Proof.
  induction ws as [| w ws IH]; [done |]. cbn [existsb].
  intros [H1 H2]%orb_false_iff. by rewrite (contains_tail _ _ _ H1), IH.
Qed.

Lemma scrub_copy_line (pos : nat) (s b : string) :
  has_char LF s = false ->
  existsb (fun w => contains w s) Hook.LVS_DECK_SCRUB_LINES = false ->
  sub_from Hook.scrub_pattern 1 "" pos (s +:+ String LF b) 0
  = s +:+ String LF (sub_from Hook.scrub_pattern 1 "" (pos + S (String.length s)) b 0).
Proof.
  revert pos. induction s as [| a s IH]; intros pos Hs Hw.
  - pose proof (scrub_no_match_line pos "" b Hs Hw) as Hm.
    rewrite append_nil_l in Hm |- *. cbn [sub_from]. rewrite Hm.
    cbn [String.length]. by rewrite Nat.add_1_r.
  - pose proof (scrub_no_match_line pos (String a s) b Hs Hw) as Hm.
    rewrite append_cons in Hm |- *. cbn [sub_from]. rewrite Hm.
    cbn [has_char] in Hs. apply orb_false_iff in Hs as [_ Hs].
    rewrite IH by eauto using scrub_words_tail.
    rewrite append_cons. cbn [String.length].
    by replace (S pos + S (String.length s)) with (pos + S (S (String.length s))) by lia.
Qed.

Lemma scrub_copy_last (pos : nat) (s : string) :
  has_char LF s = false -> sub_from Hook.scrub_pattern 1 "" pos s 0 = s.
Proof.
  revert pos. induction s as [| a s IH]; intros pos Hs; [done |].
  cbn [sub_from]. rewrite (scrub_no_match_last pos (String a s) Hs).
  cbn [has_char] in Hs. apply orb_false_iff in Hs as [_ Hs]. by rewrite IH.
Qed.

Lemma scrub_drop_line (pos : nat) (s b : string) :
  has_char LF s = false ->
  existsb (fun w => contains w s) Hook.LVS_DECK_SCRUB_LINES = true ->
  sub_from Hook.scrub_pattern 1 "" pos (s +:+ String LF b) 0
  = sub_from Hook.scrub_pattern 1 "" (pos + S (String.length s)) b 0.
Proof.
  intros Hs Hw. destruct (scrub_match_line pos s b Hs Hw) as [caps Hm].
  destruct s as [| a s].
  - rewrite append_nil_l in Hm |- *. cbn [sub_from]. rewrite Hm.
    cbn [String.length Nat.sub]. by rewrite append_nil_l, Nat.add_1_r.
  - rewrite append_cons in Hm |- *. cbn [sub_from]. rewrite Hm.
    cbn [String.length]. rewrite Nat.sub_succ, Nat.sub_0_r, append_nil_l.
    change (String LF b) with (nl +:+ b). rewrite <- append_assoc.
    replace (S (String.length s)) with (String.length (s +:+ nl))
      by (rewrite length_append; cbn; lia).
    rewrite sub_from_skip. f_equal. rewrite length_append. cbn. lia.
Qed.

Lemma contains_app_lf (w s : string) :
  has_char LF w = false -> contains w (s +:+ nl) = contains w s.
Proof.
  intros Hw. induction s as [| a s IH].
  - rewrite append_nil_l. unfold nl. cbn [contains].
    pose proof (startswith_lf w "" "" Hw) as H. rewrite append_nil_l in H.
    rewrite H. by destruct (startswith "" w).
  - rewrite append_cons. cbn [contains]. rewrite IH. f_equal.
    rewrite <- append_cons. unfold nl. by apply startswith_lf.
Qed.

Lemma scrub_words_app_lf (s : string) :
  existsb (fun w => contains w (s +:+ nl)) Hook.LVS_DECK_SCRUB_LINES
  = existsb (fun w => contains w s) Hook.LVS_DECK_SCRUB_LINES.
Proof.
  cbn [existsb Hook.LVS_DECK_SCRUB_LINES]. by rewrite !contains_app_lf.
Qed.

Lemma scrubbed_line (s : string) :
  scrubbed (s +:+ nl) = existsb (fun w => contains w s) Hook.LVS_DECK_SCRUB_LINES.
Proof.
  unfold scrubbed. rewrite has_char_app, scrub_words_app_lf. cbn [has_char nl].
  by rewrite Ascii.eqb_refl, orb_true_r.
Qed.

Lemma scrub_sub (text : string) (pos : nat) :
  sub_from Hook.scrub_pattern 1 "" pos text 0 = scrub text.
Proof.
  revert pos. pattern text. revert text. apply lines_ind.
  - done.
  - intros a s Hs pos. rewrite scrub_copy_last by done.
    unfold scrub. rewrite readlines_no_lf by done.
    rewrite filter_cons, decide_True; [| unfold scrubbed; by rewrite Hs].
    unfold writelines. cbn [filter foldr]. by rewrite filter_nil, append_nil_r.
  - intros s b Hs IH pos. unfold scrub in *. rewrite readlines_line by done.
    rewrite filter_cons. pose proof (scrubbed_line s) as Hline.
    destruct (existsb (fun w => contains w s) Hook.LVS_DECK_SCRUB_LINES) eqn:Hw.
    + rewrite decide_False by congruence. rewrite scrub_drop_line by done. apply IH.
    + rewrite decide_True by done. rewrite scrub_copy_line by done.
      unfold writelines in *. cbn [foldr]. rewrite IH.
      unfold nl. by rewrite append_assoc.
Qed.

(** X16. What the LVS deck set-up removes from a deck: the substitution of
    the scrub pattern by nothing deletes exactly the lines that end with a
    line feed and hold one of the six statements ([VIRTUAL CONNECT REPORT],
    [SOURCE PRIMARY], [SOURCE SYSTEM SPICE], [SOURCE PATH], [ERC],
    [LVS REPORT]), whole, and leaves every other line as it is, a last line
    without line feed included. *)
Theorem X16_lvs_deck_scrub (text : string) :
  re_sub Hook.scrub_pattern 1 "" text
  = writelines (filter (fun line => scrubbed line = false) (readlines text)).
Proof. apply scrub_sub. Qed.

(** ** The LVS deck set-up as a hook *)

Lemma setup_decks_other (sources : list string) (i : nat) (decks : list Deck) (tech : state) :
  Forall (fun d => tool_name d <> "calibre") decks ->
  Hook.setup_decks sources i decks tech = (tech, Ok tt).
Proof.
  intros Hdecks. revert i. induction Hdecks as [| d decks Hd _ IH]; intros i; [done |].
  cbn [Hook.setup_decks]. unfold Hook.setup_deck.
  rewrite bool_decide_eq_false_2 by done. cbn [negb]. apply IH.
Qed.

Lemma setup_decks_no_source (i : nat) (decks : list Deck) (tech : state) :
  Hook.setup_decks [] i decks tech = (tech, Ok tt).
Proof.
  revert i. induction decks as [| d decks IH]; intros i; [done |].
  cbn [Hook.setup_decks]. unfold Hook.setup_deck.
  destruct (negb (bool_decide (tool_name d = "calibre"))); [apply IH |].
  rewrite lookup_nil. apply IH.
Qed.

Lemma setup_deck_run (sources : list string) (i : nat) (deck : Deck) (tech : state)
    (src text : string) :
  tool_name deck = "calibre" ->
  sources !! i = Some src ->
  files tech !! path_str (Path src) = Some text ->
  path_str (Path src) <> deck_path deck ->
  Hook.setup_deck sources i deck tech
  = (with_files (insert (deck_path deck)
                   (scrub (universal_newlines text) +:+ Hook.LVS_DECK_INSERT_LINES)) tech,
     Ok tt).
Proof.
  intros Htool Hsrc Htext Hne. unfold Hook.setup_deck.
  rewrite bool_decide_eq_true_2 by done. cbn [negb]. rewrite Hsrc.
  cbv zeta. rewrite run_exists_path, Htext.
  rewrite (bool_decide_eq_true_2 (is_Some (Some text))) by done. cbn [orb negb].
  rewrite run_read, Htext, run_open_w, run_read.
  rewrite with_files_files, lookup_insert_ne by done. rewrite Htext, run_write.
  unfold write. rewrite !with_files_compose. f_equal.
  unfold with_files. f_equal.
  rewrite !lookup_insert_eq. cbn [default id]. rewrite !insert_insert_eq.
  rewrite append_nil_l. unfold re_sub. by rewrite scrub_sub.
Qed.

(** X17. The LVS hook of Calibre on a technology whose first LVS deck is
    the Calibre one: with the first deck source, as [pathlib] writes its
    path, a readable file other than the deck, the hook returns [True] and
    the deck is the source, read with universal newlines, without the
    scrubbed lines, followed by the two [LVS FILTER] lines; the decks of
    other tools and every other file hold what they held, and no command is
    added to the tool. *)
Theorem X17_setup_calibre_lvs_deck (ht : Hook.HammerTool) (c : TechJSON) (deck : Deck)
    (others : list Deck) (src text : string) (rest : list string) :
  Hook.is_lvs ht = true ->
  Hook.lvs_deck_sources ht = Some (src :: rest) ->
  config (Hook.technology ht) = Some c ->
  lvs_decks c = deck :: others ->
  tool_name deck = "calibre" ->
  Forall (fun d => tool_name d <> "calibre") others ->
  files (Hook.technology ht) !! path_str (Path src) = Some text ->
  path_str (Path src) <> deck_path deck ->
  exists ht',
    Hook.setup_calibre_lvs_deck ht = (ht', Hook.Done true)
    /\ files (Hook.technology ht')
       = <[deck_path deck :=
             scrub (universal_newlines text) +:+ Hook.LVS_DECK_INSERT_LINES]>
           (files (Hook.technology ht))
    /\ Hook.output ht' = Hook.output ht.
Proof.
  intros Hlvs Hsources Hc Hdecks Htool Hothers Htext Hne.
  unfold Hook.setup_calibre_lvs_deck. rewrite Hlvs, Hsources, Hc, Hdecks.
  cbn [negb Hook.setup_decks].
  rewrite (setup_deck_run _ _ _ _ src text) by done.
  rewrite setup_decks_other by done. by eexists.
Qed.

Lemma X17_setup_calibre_lvs_deck_witness :
  exists ht',
    Hook.setup_calibre_lvs_deck lvs_tool = (ht', Hook.Done true)
    /\ files (Hook.technology ht')
       = <["$SKY130_NDA/s8/V2.0.1/LVS/Calibre/lvsRules_s8" :=
             "LVS POWER NAME VPWR
LVS ABORT ON SUPPLY ERROR NO
LVS FILTER D  OPEN  SOURCE
LVS FILTER D  OPEN  LAYOUT
"]> (files lvs_technology)
    /\ Hook.output ht' = [].
Proof.
  apply (X17_setup_calibre_lvs_deck lvs_tool (mkTechJSON [] [] [] [] []) calibre_lvs_deck
           [pegasus_lvs_deck] "/pdk//decks/./lvsRules_s8" sample_deck []);
    try reflexivity.
  - repeat constructor. discriminate.
  - discriminate.
Defined.

(** X18. The LVS hook of Calibre stops at a deck source that does not
    exist: it raises [FileNotFoundError] with the path as [pathlib] writes
    it (without doubled slashes and [.] components), and no file is
    written. *)
Theorem X18_lvs_deck_source_missing (ht : Hook.HammerTool) (c : TechJSON) (deck : Deck)
    (others : list Deck) (src : string) (rest : list string) :
  Hook.is_lvs ht = true ->
  Hook.lvs_deck_sources ht = Some (src :: rest) ->
  config (Hook.technology ht) = Some c ->
  lvs_decks c = deck :: others ->
  tool_name deck = "calibre" ->
  files (Hook.technology ht) !! path_str (Path src) = None ->
  dirs (Hook.technology ht) !! path_str (Path src) = None ->
  Hook.setup_calibre_lvs_deck ht
  = (ht, Hook.Failed (Hook.Error
           (FileNotFoundError ("LVS deck not found: " +:+ path_str (Path src))))).
Proof.
  intros Hlvs Hsources Hc Hdecks Htool Hfile Hdir.
  unfold Hook.setup_calibre_lvs_deck. rewrite Hlvs, Hsources, Hc, Hdecks.
  cbn [negb Hook.setup_decks]. unfold Hook.setup_deck.
  rewrite bool_decide_eq_true_2 by done. cbn [negb lookup list_lookup]. cbv zeta.
  rewrite run_exists_path, Hfile, Hdir.
  rewrite (bool_decide_eq_false_2 (is_Some None)) by (by intros [? ?]).
  cbn [orb negb]. unfold raise. by destruct ht.
Qed.

Lemma X18_lvs_deck_source_missing_witness :
  Hook.setup_calibre_lvs_deck
    (Hook.with_technology (with_files (fun _ => ∅)) lvs_tool)
  = (Hook.with_technology (with_files (fun _ => ∅)) lvs_tool,
     Hook.Failed (Hook.Error (FileNotFoundError "LVS deck not found: /pdk/decks/lvsRules_s8"))).
Proof.
  apply (X18_lvs_deck_source_missing
           (Hook.with_technology (with_files (fun _ => ∅)) lvs_tool)
           (mkTechJSON [] [] [] [] []) calibre_lvs_deck [pegasus_lvs_deck]
           "/pdk//decks/./lvsRules_s8" []); reflexivity.
Defined.

(** X19. With an empty list of deck sources the LVS hook of Calibre
    returns [True] and changes nothing, whatever the LVS decks of the
    technology are: a Calibre deck without source is passed over, not
    raised to the caller. *)
Theorem X19_lvs_deck_without_source (ht : Hook.HammerTool) (c : TechJSON) :
  Hook.is_lvs ht = true ->
  Hook.lvs_deck_sources ht = Some [] ->
  config (Hook.technology ht) = Some c ->
  Hook.setup_calibre_lvs_deck ht = (ht, Hook.Done true).
Proof.
  intros Hlvs Hsources Hc.
  unfold Hook.setup_calibre_lvs_deck. rewrite Hlvs, Hsources, Hc.
  cbn [negb]. rewrite setup_decks_no_source. by destruct ht.
Qed.

Lemma X19_lvs_deck_without_source_witness :
  Hook.setup_calibre_lvs_deck
    {| Hook.is_par := false; Hook.is_tcl := false; Hook.is_drc := false; Hook.is_lvs := true;
       Hook.output := []; Hook.all_power_nets := []; Hook.all_ground_nets := [];
       Hook.drc_run_file := ""; Hook.drc_ctl_file := "";
       Hook.lvs_run_file := ""; Hook.lvs_ctl_file := "";
       Hook.sram_cache := []; Hook.lvs_deck_sources := Some [];
       Hook.technology := lvs_technology |}
  = ({| Hook.is_par := false; Hook.is_tcl := false; Hook.is_drc := false; Hook.is_lvs := true;
        Hook.output := []; Hook.all_power_nets := []; Hook.all_ground_nets := [];
        Hook.drc_run_file := ""; Hook.drc_ctl_file := "";
        Hook.lvs_run_file := ""; Hook.lvs_ctl_file := "";
        Hook.sram_cache := []; Hook.lvs_deck_sources := Some [];
        Hook.technology := lvs_technology |}, Hook.Done true).
Proof.
  apply (X19_lvs_deck_without_source _ (mkTechJSON [] [] [] [] [])); reflexivity.
Defined.

(** ** The SRAM black boxes *)

Lemma sky130_sram_names_named (cache : list (gmap string string)) (names : list string) :
  named cache names -> Hook.sky130_sram_names cache = Ok names.
Proof.
  induction 1 as [| d name cache names Hd _ IH]; [done |].
  cbn [Hook.sky130_sram_names]. by rewrite Hd, IH.
Qed.

Lemma sky130_sram_names_unnamed (cache : list (gmap string string)) :
  Exists (fun d => d !! "name" = None) cache ->
  Hook.sky130_sram_names cache = Raise (KeyError "name").
Proof.
  induction cache as [| d cache IH]; intros Hex; [by apply Exists_nil in Hex |].
  cbn [Hook.sky130_sram_names]. destruct (d !! "name") as [name |] eqn:Hd; [| done].
  apply Exists_cons in Hex as [Hex | Hex]; [congruence |]. by rewrite IH.
Qed.

Lemma box_text_from (line : string -> string) (names : list string) (box : string) :
  foldl (fun box name => box +:+ line name) box names
  = box +:+ writelines (map line names).
Proof.
  revert box. induction names as [| name names IH]; intros box.
  - by rewrite append_nil_r.
  - cbn [foldl map]. rewrite IH. unfold writelines. cbn [foldr].
    by rewrite append_assoc.
Qed.

Lemma box_text_lines (line : string -> string) (names : list string) :
  Hook.box_text line names = writelines (map line names).
Proof. unfold Hook.box_text. by rewrite box_text_from, append_nil_l. Qed.

Lemma blackbox_named (msg : string) (line : string -> string) (run_file : string)
    (ht : Hook.HammerTool) (names : list string) :
  named (Hook.sram_cache ht) names ->
  Hook.blackbox true msg line run_file ht
  = (Hook.append_file run_file (writelines (map line names)) ht, Hook.Done true).
Proof.
  intros Hnames. unfold Hook.blackbox. cbn [negb].
  by rewrite (sky130_sram_names_named _ names), box_text_lines.
Qed.

(** X20. The SRAM black-box hooks of Calibre DRC, Pegasus DRC and Calibre
    LVS, on a cache whose entries all have a name: each returns [True] and
    appends to its run file, after what the file holds, one line per SRAM
    in the order of the cache ([EXCLUDE CELL], [exclude_cell]), two for
    LVS ([LVS BOX], [LVS FILTER ... OPEN]); each line starts with its line
    feed, so the text does not end with one, and no other file and no
    command of the tool is changed. *)
Theorem X20_blackbox_srams (ht : Hook.HammerTool) (names : list string) :
  named (Hook.sram_cache ht) names ->
  (Hook.is_drc ht = true ->
   appends (Hook.drc_run_file ht)
     (writelines (map (fun name => nl +:+ "EXCLUDE CELL " +:+ name) names))
     ht (Hook.calibre_drc_blackbox_srams ht)
   /\ appends (Hook.drc_ctl_file ht)
        (writelines (map (fun name => nl +:+ "exclude_cell " +:+ name) names))
        ht (Hook.pegasus_drc_blackbox_srams ht))
  /\ (Hook.is_lvs ht = true ->
      appends (Hook.lvs_run_file ht)
        (writelines
           (flat_map (fun name => [ nl +:+ "LVS BOX " +:+ name;
                                    nl +:+ "LVS FILTER " +:+ name +:+ " OPEN " ]) names))
        ht (Hook.calibre_lvs_blackbox_srams ht)).
Proof.
  intros Hnames. split.
  - intros Hdrc. unfold Hook.calibre_drc_blackbox_srams, Hook.pegasus_drc_blackbox_srams.
    rewrite Hdrc. by rewrite !(blackbox_named _ _ _ _ names).
  - intros Hlvs. unfold Hook.calibre_lvs_blackbox_srams.
    rewrite Hlvs, (blackbox_named _ _ _ _ names) by done.
    replace (writelines (flat_map _ names))
      with (writelines (map (fun name => (nl +:+ "LVS BOX " +:+ name)
                               +:+ (nl +:+ "LVS FILTER " +:+ name +:+ " OPEN ")) names));
      [done |].
    clear Hnames. induction names as [| name names IH]; [done |].
    cbn [map flat_map app]. unfold writelines in *. cbn [foldr]. rewrite IH.
    by rewrite append_assoc.
Qed.

Lemma X20_blackbox_srams_witness :
  files (Hook.technology (Hook.calibre_lvs_blackbox_srams lvs_tool).1)
    !! "/build/lvs-rundir/lvs_run_file"
  = Some "
LVS BOX sram22_64x32m4w8
LVS FILTER sram22_64x32m4w8 OPEN 
LVS BOX sram22_512x64m4w8
LVS FILTER sram22_512x64m4w8 OPEN ".
Proof.
  destruct (X20_blackbox_srams lvs_tool ["sram22_64x32m4w8"; "sram22_512x64m4w8"])
    as [_ Hlvs]; [by repeat constructor |].
  destruct Hlvs as (_ & Hfiles & _); [reflexivity |].
  rewrite Hfiles. reflexivity.
Defined.

(** X21. A cache entry without a name stops the SRAM black-box hooks: the
    hook fails with [KeyError 'name'] and its run file is as it was, also
    when the entries before have names. *)
Theorem X21_blackbox_unnamed (ht : Hook.HammerTool) :
  Exists (fun d => d !! "name" = None) (Hook.sram_cache ht) ->
  (Hook.is_drc ht = true ->
   Hook.calibre_drc_blackbox_srams ht = (ht, Hook.Failed (Hook.Error (KeyError "name")))
   /\ Hook.pegasus_drc_blackbox_srams ht = (ht, Hook.Failed (Hook.Error (KeyError "name"))))
  /\ (Hook.is_lvs ht = true ->
      Hook.calibre_lvs_blackbox_srams ht = (ht, Hook.Failed (Hook.Error (KeyError "name")))).
Proof.
  intros Hex.
  unfold Hook.calibre_drc_blackbox_srams, Hook.pegasus_drc_blackbox_srams,
    Hook.calibre_lvs_blackbox_srams, Hook.blackbox.
  rewrite (sky130_sram_names_unnamed _ Hex).
  split; [intros -> | intros ->]; done.
Qed.

Lemma X21_blackbox_unnamed_witness :
  Hook.calibre_lvs_blackbox_srams
    {| Hook.is_par := false; Hook.is_tcl := false; Hook.is_drc := false; Hook.is_lvs := true;
       Hook.output := []; Hook.all_power_nets := []; Hook.all_ground_nets := [];
       Hook.drc_run_file := ""; Hook.drc_ctl_file := "";
       Hook.lvs_run_file := "/build/lvs-rundir/lvs_run_file"; Hook.lvs_ctl_file := "";
       Hook.sram_cache := [ {[ "name" := "sram22_64x32m4w8" ]}; {[ "type" := "sram" ]} ];
       Hook.lvs_deck_sources := None;
       Hook.technology := lvs_technology |}
  = ({| Hook.is_par := false; Hook.is_tcl := false; Hook.is_drc := false; Hook.is_lvs := true;
        Hook.output := []; Hook.all_power_nets := []; Hook.all_ground_nets := [];
        Hook.drc_run_file := ""; Hook.drc_ctl_file := "";
        Hook.lvs_run_file := "/build/lvs-rundir/lvs_run_file"; Hook.lvs_ctl_file := "";
        Hook.sram_cache := [ {[ "name" := "sram22_64x32m4w8" ]}; {[ "type" := "sram" ]} ];
        Hook.lvs_deck_sources := None;
        Hook.technology := lvs_technology |},
     Hook.Failed (Hook.Error (KeyError "name"))).
Proof.
  refine (proj2 (X21_blackbox_unnamed _ _) _); [| reflexivity].
  apply Exists_cons_tl, Exists_cons_hd. reflexivity.
Defined.

(** ** The supply connections *)

Lemma append_commands_output (cmds : list string) (ht : Hook.HammerTool) :
  Hook.output (foldl (fun ht cmd => Hook.append cmd ht) ht cmds) = Hook.output ht ++ cmds.
Proof.
  revert ht. induction cmds as [| cmd cmds IH]; intros ht.
  - by rewrite app_nil_r.
  - cbn [foldl]. rewrite IH. cbn [Hook.append Hook.output]. by rewrite <- app_assoc.
Qed.

Lemma connect_loop (nets : list Hook.Supply) (ht : Hook.HammerTool) :
  foldl (fun ht pwr_gnd_net =>
           match Hook.tie pwr_gnd_net with
           | Some t =>
               Hook.append (Hook.connect_net t (Hook.supply_name pwr_gnd_net))
                 (Hook.append (Hook.connect_pg_pin t (Hook.supply_name pwr_gnd_net)) ht)
           | None => ht
           end) ht nets
  = foldl (fun ht cmd => Hook.append cmd ht) ht (flat_map net_commands nets).
Proof.
  revert ht. induction nets as [| net nets IH]; intros ht; [done |].
  cbn [foldl flat_map]. rewrite foldl_app, IH. unfold net_commands.
  by destruct (Hook.tie net).
Qed.

Lemma append_commands_rest (cmds : list string) (ht : Hook.HammerTool) :
  Hook.technology (foldl (fun ht cmd => Hook.append cmd ht) ht cmds) = Hook.technology ht.
Proof. revert ht. induction cmds as [| cmd cmds IH]; intros ht; [done |]. cbn [foldl]. by rewrite IH. Qed.

(** X22. The supply connection hooks of place-and-route: both return
    [True] and add to the commands of the tool, after those it has, the
    [pg_pin] command and then the [net] command of every power net and then
    of every ground net that has a tie, in order; a net without tie gets no
    command, and the technology is not touched. The second hook is the
    first one run again. *)
Theorem X22_sky130_connect_nets (ht : Hook.HammerTool) :
  Hook.is_par ht = true ->
  Hook.is_tcl ht = true ->
  exists ht',
    Hook.sky130_connect_nets ht = (ht', Hook.Done true)
    /\ Hook.sky130_connect_nets2 ht = (ht', Hook.Done true)
    /\ Hook.output ht'
       = Hook.output ht
         ++ flat_map net_commands (Hook.all_power_nets ht ++ Hook.all_ground_nets ht)
    /\ Hook.technology ht' = Hook.technology ht.
Proof.
  intros Hpar Htcl. unfold Hook.sky130_connect_nets2, Hook.sky130_connect_nets.
  rewrite Hpar, Htcl. cbn [negb]. rewrite connect_loop.
  eexists. repeat split.
  - apply append_commands_output.
  - apply append_commands_rest.
Qed.

Lemma X22_sky130_connect_nets_witness :
  exists ht',
    Hook.sky130_connect_nets par_tool = (ht', Hook.Done true)
    /\ Hook.sky130_connect_nets2 par_tool = (ht', Hook.Done true)
    /\ Hook.output ht'
       = [ "init_design";
           "connect_global_net VDD -type pg_pin -pin_base_name VPWR -all -auto_tie -netlist_override";
           "connect_global_net VDD -type net    -net_base_name VPWR -all -netlist_override";
           "connect_global_net VSS -type pg_pin -pin_base_name VGND -all -auto_tie -netlist_override";
           "connect_global_net VSS -type net    -net_base_name VGND -all -netlist_override" ]
    /\ Hook.technology ht' = lvs_technology.
Proof.
  destruct (X22_sky130_connect_nets par_tool) as (ht' & H1 & H2 & H3 & H4);
    [reflexivity | reflexivity |].
  exists ht'. repeat split; assumption.
Defined.

(** ** C5: delayed-net harmonisation *)

(** A greedy star in front of a continuation that accepts everything takes
    the whole run of its class. *)
Lemma star_greedy_total {R} (c : cclass) (k : nat -> string -> option R)
    (pos : nat) (rest : string) :
  (forall p r, is_Some (k p r)) ->
  star_greedy c k pos rest = k (pos + class_run c rest) (sdrop (class_run c rest) rest).
Proof.
  intros Hk. revert pos. induction rest as [| a rest IH]; intros pos; cbn [star_greedy class_run].
  - by rewrite Nat.add_0_r.
  - destruct (cmatch c a); [| by rewrite Nat.add_0_r].
    rewrite IH. cbn [sdrop]. rewrite <- Nat.add_succ_comm.
    by destruct (Hk (S pos + class_run c rest) (sdrop (class_run c rest) rest)) as [x ->].
Qed.

Lemma class_run_line (v t : string) :
  has_char LF v = false ->
  class_run CDot v = String.length v
  /\ class_run CDot (v +:+ String LF t) = String.length v.
Proof.
  induction v as [| a v IH]; [by rewrite append_nil_l |]. cbn [has_char]. intros H.
  apply orb_false_iff in H as [Ha Hv]. destruct (IH Hv) as [IH1 IH2].
  rewrite append_cons. cbn [class_run cmatch String.length]. rewrite Ha. cbn [negb].
  by rewrite IH1, IH2.
Qed.

(** A pattern that cannot take a line feed consumes text without one. *)
Lemma path_lf_free (r : regex) (st st' : mstate) :
  lf_free_re r = true -> path r st st' ->
  exists u, m_rest st = u +:+ m_rest st' /\ m_pos st' = m_pos st + String.length u
    /\ has_char LF u = false.
Proof.
  revert st st'. induction r as [s | | c g | r1 IH1 r2 IH2 | r1 IH1 r2 IH2 | n r IH];
    intros st st'; cbn [lf_free_re path].
  - intros Hs [Hst ->]. exists s. cbn [m_rest m_pos]. split; [by apply startswith_eq |].
    split; [done |]. rewrite all_dot_no_lf in Hs. by apply negb_true_iff in Hs.
  - intros _ [_ ->]. exists "". rewrite append_nil_l. cbn. split; [done |]. split; [lia | done].
  - destruct c; [| done]. intros _ (n & Hn & Hall & ->). exists (stake n (m_rest st)).
    cbn [m_rest m_pos]. split; [by rewrite stake_sdrop |].
    split; [by rewrite stake_length |].
    rewrite all_dot_no_lf in Hall. by apply negb_true_iff in Hall.
  - intros Hr (mid & Hp1 & Hp2). apply andb_true_iff in Hr as [Hr1 Hr2].
    destruct (IH1 _ _ Hr1 Hp1) as (u1 & He1 & Hpos1 & Hu1).
    destruct (IH2 _ _ Hr2 Hp2) as (u2 & He2 & Hpos2 & Hu2).
    exists (u1 +:+ u2). split; [by rewrite He1, He2, append_assoc |].
    split; [rewrite length_append; lia |]. by rewrite has_char_app, Hu1, Hu2.
  - intros Hr Hp. apply andb_true_iff in Hr as [Hr1 Hr2].
    destruct Hp as [Hp | Hp]; eauto.
  - intros Hr (st1 & Hp & ->). cbn [m_rest m_pos]. eauto.
Qed.

(** A line, with the line feed it may end with. *)
Lemma one_line_body (line : string) :
  one_line line = true ->
  exists body, has_char LF body = false /\ (line = body \/ line = body +:+ nl).
Proof.
  induction line as [| a s IH]; [exists ""; split; [done | by left] |]. cbn [one_line].
  destruct s as [| b s].
  - intros _. destruct (Ascii.eqb_spec a LF) as [-> | Hne].
    + exists "". split; [done |]. right. by rewrite append_nil_l.
    + exists (String a ""). split; [| by left]. cbn [has_char].
      by apply Ascii.eqb_neq in Hne as ->.
  - intros H. apply andb_true_iff in H as [Ha Hs]. apply negb_true_iff in Ha.
    destruct (IH Hs) as (body & Hb & Hline). exists (String a body).
    split; [cbn [has_char]; by rewrite Ha, Hb |].
    rewrite append_cons. destruct Hline as [-> | ->]; [by left | by right].
Qed.

Lemma readlines_one_line (text : string) :
  Forall (fun line => one_line line = true) (readlines text).
Proof.
  induction text as [| a text IH]; [constructor |]. cbn [readlines].
  destruct (Ascii.eqb a LF) eqn:Ha; [by constructor |].
  destruct (readlines text) as [| h t]; cbn [cons_line]; [by repeat constructor |].
  apply Forall_cons in IH as [Hh Ht]. constructor; [| done].
  cbn [one_line]. destruct h; [done |]. by rewrite Ha, Hh.
Qed.

(** Text without line feed at the start of a line is part of its body. *)
Lemma line_prefix (u body tail r : string) :
  has_char LF u = false -> has_char LF body = false ->
  tail = "" \/ tail = nl ->
  body +:+ tail = u +:+ r ->
  exists v, body = u +:+ v /\ r = v +:+ tail.
Proof.
  intros Hu Hb Htail. revert body Hb. induction u as [| a u IH]; intros body Hb.
  { rewrite append_nil_l. intros <-. exists body. by rewrite append_nil_l. }
  cbn [has_char] in Hu. apply orb_false_iff in Hu as [Ha Hu].
  destruct body as [| b body].
  - rewrite append_nil_l, append_cons. destruct Htail as [-> | ->]; [done |].
    intros [= <- _]. by rewrite Ascii.eqb_refl in Ha.
  - rewrite !append_cons. intros [= -> Heq].
    cbn [has_char] in Hb. apply orb_false_iff in Hb as [_ Hb].
    destruct (IH Hu body Hb Heq) as (v & -> & ->). exists v. by rewrite append_cons.
Qed.

Lemma capture_lf_free : lf_free_re capture_pattern = true.
Proof. reflexivity. Qed.

Lemma capture_needs_text (pos : nat) (s : string) :
  is_Some (match_at capture_pattern 1 pos s) -> 13 <= String.length s.
Proof.
  unfold match_at. cbn [replicate].
  destruct (rmatch capture_pattern _ _) as [[len caps] |] eqn:Hm; [| by intros [? ?]].
  intros _. apply rmatch_sound in Hm as (st' & Hp & _).
  pose proof (capture_path_length _ _ Hp) as Hlen.
  apply (path_lf_free _ _ _ capture_lf_free) in Hp as (u & Hrest & Hpos & _).
  cbn [m_rest m_pos] in *. rewrite Hrest, length_append. lia.
Qed.

Lemma rmatch_seq_sound {R} (r1 r2 : regex) (k : mstate -> option R) (st : mstate) (x : R) :
  rmatch (r1 ⋅ r2) k st = Some x -> exists mid, path r1 st mid /\ rmatch r2 k mid = Some x.
Proof. intros H. exact (rmatch_sound r1 (rmatch r2 k) st x H). Qed.

(** In a line a match of the capture pattern that starts at the first
    character goes up to the end of the line, its line feed apart. *)
Lemma capture_whole_line (body tail : string) (len : nat) (caps : list (option string)) :
  has_char LF body = false -> tail = "" \/ tail = nl ->
  match_at capture_pattern 1 0 (body +:+ tail) = Some (len, caps) ->
  len = String.length body.
Proof.
  intros Hb Htail. unfold match_at. cbn [replicate].
  destruct (rmatch capture_pattern _ _) as [[len' caps'] |] eqn:Hm; [| done].
  intros Hlen. assert (len' = len) as ->.
  { destruct len'; [done | by injection Hlen as <- _]. }
  clear Hlen. unfold capture_pattern in Hm.
  apply rmatch_seq_sound in Hm as (mid1 & Hp1 & Hm).
  apply rmatch_seq_sound in Hm as (mid2 & Hp2 & Hm).
  cbn [rmatch] in Hm. rewrite star_greedy_total in Hm by (intros; by eexists).
  injection Hm as <- _.
  assert (path (RStar CDot true
                  ⋅ RGroup 1 (RLit "SLEEP" ⋅ RStar CDot false ⋅ RLit "B" ⋅ RStar CDot false
                                ⋅ RLit "delayed"))%re
               (MState 0 (body +:+ tail) [None]) mid2) as Hp by (by exists mid1).
  apply path_lf_free in Hp as (u & Hrest & Hpos & Hu); [| reflexivity].
  cbn [m_rest m_pos] in Hrest, Hpos.
  apply line_prefix in Hrest as (v & Hbody & Hr); [| done ..].
  assert (has_char LF v = false) as Hv.
  { rewrite Hbody, has_char_app in Hb. by apply orb_false_iff in Hb as [_ ?]. }
  assert (class_run CDot (m_rest mid2) = String.length v) as ->.
  { rewrite Hr. destruct Htail as [-> | ->].
    - rewrite append_nil_r. by apply class_run_line.
    - by apply (class_run_line v ""). }
  rewrite Hpos, Hbody, length_append. lia.
Qed.

Lemma has_char_stake (c : ascii) (n : nat) (s : string) :
  has_char c s = false -> has_char c (stake n s) = false.
Proof.
  revert s. induction n as [| n IH]; intros [| a s]; cbn [stake has_char]; try done.
  intros H. apply orb_false_iff in H as [-> Hs]. by rewrite IH.
Qed.

(** A match that starts later in the line gives one that starts at its
    first character. *)
Lemma capture_from_start (body tail : string) (p : nat) :
  has_char LF body = false -> tail = "" \/ tail = nl ->
  is_Some (match_at capture_pattern 1 p (sdrop p (body +:+ tail))) ->
  is_Some (match_at capture_pattern 1 0 (body +:+ tail)).
Proof.
  intros Hb Htail Hm. pose proof (capture_needs_text _ _ Hm) as Hlen.
  rewrite length_sdrop, length_append in Hlen.
  assert (String.length tail <= 1) as Ht by (destruct Htail as [-> | ->]; cbn; lia).
  unfold match_at in Hm. cbn [replicate] in Hm.
  destruct (rmatch capture_pattern _ _) as [x |] eqn:Hr; [| by destruct Hm].
  clear Hm. apply rmatch_sound in Hr as (st' & Hp & _).
  unfold capture_pattern in Hp. cbn [path] in Hp.
  destruct Hp as (mid & (n1 & Hn1 & Hall1 & ->) & Hrest).
  cbn [m_pos m_rest m_caps] in *.
  apply (match_at_capture 0 (body +:+ tail) st').
  unfold capture_pattern. cbn [path].
  exists (MState (p + n1) (sdrop n1 (sdrop p (body +:+ tail))) [None]).
  split; [| exact Hrest].
  exists (p + n1). cbn [m_rest m_pos m_caps]. rewrite length_sdrop, length_append in Hn1.
  split; [rewrite length_append; lia |]. split; [| by rewrite sdrop_sdrop].
  rewrite stake_add, all_dot_no_lf, has_char_app.
  rewrite all_dot_no_lf in Hall1. apply negb_true_iff in Hall1. rewrite Hall1, orb_false_r.
  rewrite stake_app by lia. by rewrite has_char_stake.
Qed.

Lemma findall_from_skip (r : regex) (pos : nat) (x rest : string) :
  findall_from r pos (x +:+ rest) (String.length x)
  = findall_from r (pos + String.length x) rest 0.
Proof.
  revert pos. induction x as [| c x IH]; intros pos.
  - by rewrite append_nil_l, Nat.add_0_r.
  - rewrite append_cons. cbn [String.length findall_from]. rewrite IH. f_equal. lia.
Qed.

Lemma findall_none (r : regex) (pos : nat) (s : string) :
  (forall p, p < String.length s -> match_at r 1 (pos + p) (sdrop p s) = None) ->
  findall_from r pos s 0 = [].
Proof.
  revert pos. induction s as [| a s IH]; intros pos H; [done |]. cbn [findall_from].
  pose proof (H 0 ltac:(cbn; lia)) as H0. rewrite Nat.add_0_r in H0. cbn [sdrop] in H0.
  rewrite H0. apply IH. intros p Hp.
  pose proof (H (S p) ltac:(cbn; lia)) as HS. cbn [sdrop] in HS.
  by replace (S pos + p) with (pos + S p) by lia.
Qed.

(** The capture pattern finds at most one spelling in a line. *)
Lemma capture_once (line : string) :
  one_line line = true ->
  re_findall capture_pattern line = []
  \/ exists elem, re_findall capture_pattern line = [elem].
Proof.
  intros Hline. apply one_line_body in Hline as (body & Hb & Hline).
  assert (exists tail, (tail = "" \/ tail = nl) /\ line = body +:+ tail)
    as (tail & Htail & ->).
  { destruct Hline as [-> | ->]; [exists "" | exists nl].
    - split; [by left | by rewrite append_nil_r].
    - split; [by right | done]. }
  unfold re_findall.
  destruct (match_at capture_pattern 1 0 (body +:+ tail)) as [[len caps] |] eqn:Hm.
  - right. pose proof (capture_whole_line _ _ _ _ Hb Htail Hm) as ->.
    pose proof (capture_needs_text 0 (body +:+ tail) ltac:(by rewrite Hm)) as Hlen.
    destruct body as [| a x].
    { rewrite append_nil_l in Hlen. by destruct Htail as [-> | ->]; cbn in Hlen; lia. }
    rewrite append_cons in Hm |- *. cbn [findall_from]. rewrite Hm.
    cbn [String.length]. rewrite Nat.sub_succ, Nat.sub_0_r, findall_from_skip.
    eexists. f_equal. destruct Htail as [-> | ->]; [done |].
    unfold nl. cbn [findall_from].
    destruct (match_at capture_pattern 1 _ (String LF "")) eqn:Hnl; [| done].
    pose proof (capture_needs_text _ _ ltac:(by rewrite Hnl)) as H. cbn in H. lia.
  - left. apply findall_none. intros p Hp. cbn [Nat.add].
    destruct (match_at capture_pattern 1 p (sdrop p (body +:+ tail))) eqn:Hp'; [| done].
    destruct (capture_from_start body tail p Hb Htail ltac:(by rewrite Hp')) as [y Hy].
    by rewrite Hy in Hm.
Qed.

(** C5 (as amended). The harmonisation always completes, and it is the
    single pass over the file: a declaration line ([wire SLEEP…B…delayed;])
    is kept and sets the canonical spelling; every later line up to the next
    declaration (or the end of the file) is rewritten by the spelling
    [re.findall] gets from it with the capture pattern
    [.*(SLEEP.*?B.*?delayed).*], matched case-sensitively. In a line of a
    file that is at most one spelling: when there is none the line is left
    as it is, when it is the canonical one too, and else every occurrence of
    that spelling in the line is replaced by the canonical one. The greedy
    start of the pattern leaves the first of two spellings in a line
    uncaptured, so that in
    [and and0 (X, SLEEP1_B_delayed, SLEEP1__B_delayed);] only the second
    becomes [SLEEP1B_delayed]. After the declaration [wire SLEEP1B_delayed;]
    the references [SLEEP1_B_delayed] and [SLEEP1B_delayed] come out as
    [SLEEP1B_delayed], and [Sleep1Bdelay], which the pattern does not match,
    stays [Sleep1Bdelay]. *)
Theorem C5_delayed_net_harmonization :
  (forall sl, harmonize sl = Ok (harmonize_pass None sl))
  /\ (forall text, Forall (fun line => one_line line = true) (readlines text))
  /\ (forall line, one_line line = true ->
        re_findall capture_pattern line = []
        \/ exists elem, re_findall capture_pattern line = [elem])
  /\ (forall canonical line,
        re_findall capture_pattern line = [] -> fix_reference canonical line = line)
  /\ (forall canonical line elem,
        re_findall capture_pattern line = [elem] ->
        fix_reference canonical line
        = if bool_decide (elem = canonical) then line else replace elem canonical line)
  /\ fix_reference "SLEEP1B_delayed" two_spellings
     = "  and and0 (X, SLEEP1_B_delayed, SLEEP1B_delayed);" +:+ nl
  /\ harmonize delayed_net_lines
     = Ok [ "  wire SLEEP1B_delayed;" +:+ nl;
            "  not not0 (SLEEP1B_delayed, A);" +:+ nl;
            "  and and0 (X, SLEEP1B_delayed, B);" +:+ nl;
            "  buf buf0 (Y, Sleep1Bdelay);" +:+ nl ].
Proof.
  split; [apply harmonize_is_pass |].
  split; [apply readlines_one_line |].
  split; [apply capture_once |].
  split; [| split; [| split]].
  - intros canonical line H. unfold fix_reference. by rewrite H.
  - intros canonical line elem H. unfold fix_reference. rewrite H. cbn [foldl].
    destruct (decide (elem = canonical)) as [Heq | Hne].
    + by rewrite bool_decide_eq_false_2, bool_decide_eq_true_2 by (done || by intros ?).
    + by rewrite bool_decide_eq_true_2, bool_decide_eq_false_2 by done.
  - vm_compute. reflexivity.
  - rewrite harmonize_is_pass. vm_compute. reflexivity.
Qed.

Lemma C5_delayed_net_harmonization_witness :
  fix_reference "SLEEP1B_delayed" ("  not not0 (SLEEP1_B_delayed, A);" +:+ nl)
  = replace "SLEEP1_B_delayed" "SLEEP1B_delayed" ("  not not0 (SLEEP1_B_delayed, A);" +:+ nl)
  /\ fix_reference "SLEEP1B_delayed" ("  buf buf0 (Y, Sleep1Bdelay);" +:+ nl)
     = "  buf buf0 (Y, Sleep1Bdelay);" +:+ nl
  /\ (re_findall capture_pattern two_spellings = []
      \/ exists elem, re_findall capture_pattern two_spellings = [elem]).
Proof.
  destruct C5_delayed_net_harmonization as (_ & _ & Honce & Hnone & Hone & _).
  split; [| split].
  - rewrite (Hone _ _ "SLEEP1_B_delayed"); reflexivity.
  - apply Hnone. reflexivity.
  - apply Honce. reflexivity.
Defined.

(** C5 as stated fails at its own example: the third reference,
    [Sleep1Bdelay], is not rewritten to [SLEEP1B_delayed]. *)
Lemma C5_counterexample :
  harmonize delayed_net_lines
  <> Ok [ "  wire SLEEP1B_delayed;" +:+ nl;
          "  not not0 (SLEEP1B_delayed, A);" +:+ nl;
          "  and and0 (X, SLEEP1B_delayed, B);" +:+ nl;
          "  buf buf0 (Y, SLEEP1B_delayed);" +:+ nl ]
  /\ (l ← harmonize delayed_net_lines; py_index (l : list string) 3)
     = Ok ("  buf buf0 (Y, Sleep1Bdelay);" +:+ nl).
Proof. split; [vm_compute; intros E; discriminate E | vm_compute; reflexivity]. Qed.
